(** * The Ali intent provider of xiaozhi-server, embedded in Rocq

    Source: [main/xiaozhi-server/core/providers/intent/intent_ali/intent_ali.py],
    class [IntentProvider]: a TTL- and size-bounded cache of intent strings
    ([clean_cache]), the parser of the tagged LLM answer ([parse_text]) and
    the detection entry point ([detect_intent]).

    Conventions of the embedding.
    - A Python [str] is the list of its Unicode code points ([pystr]),
      each a natural number.
    - A Python [dict] is an association list in insertion order with
      pairwise distinct keys ([dict_wf]); [d[k] = v], [del d[k]], [k in d]
      and [d.items()] are the operations below.
    - A raised exception is a value of [exn]; code that may raise returns a
      [result].
    - [time.time()] readings are taken as integers (whole seconds): only
      their order and their differences matter to the code, and the
      rounding of float subtraction is outside the model. The clock is an
      oracle [nat -> Z] read through a counter kept in the state.
    - The library functions the source calls ([hashlib.md5], [str.strip],
      [re.search] on the three tag patterns, [json.loads], [json.dumps])
      are modelled after CPython's behaviour; binary floating point is kept
      behind the interface [FloatModel].
    - Resource limits of CPython (the recursion limit, the digit limit of
      [int], memory) are not modelled.
    - Logging is left out: the logger calls of the source only format
      values that are at hand. *)

From Stdlib Require Import ZArith NArith List String Ascii Bool Lia Permutation Sorted.
Import ListNotations.
Local Open Scope Z_scope.
Set Warnings "-register-all".

(* ------------------------------------------------------------------ *)
(** * Strings *)

Local Open Scope N_scope.

Definition pystr := list N.

(** An ASCII literal of the source, as code points. *)
Definition lit (s : string) : pystr :=
  map N_of_ascii (list_ascii_of_string s).

(** The same, with every apostrophe standing for a double quote (code 34);
    used to write JSON texts. *)
Definition qlit (s : string) : pystr :=
  map (fun c => if c =? 39 then 34 else c) (lit s).

Fixpoint str_eqb (a b : pystr) : bool :=
  match a, b with
  | [], [] => true
  | x :: a', y :: b' => (x =? y) && str_eqb a' b'
  | _, _ => false
  end.

(** [s.startswith(p)], returning what follows the prefix. *)
Fixpoint strip_prefix (p s : pystr) : option pystr :=
  match p, s with
  | [], _ => Some s
  | x :: p', y :: s' => if x =? y then strip_prefix p' s' else None
  | _ :: _, [] => None
  end.

(** First occurrence of [p] in [s]: the text before it and the text after. *)
Fixpoint find (p s : pystr) {struct s} : option (pystr * pystr) :=
  match strip_prefix p s with
  | Some r => Some ([], r)
  | None =>
      match s with
      | [] => None
      | c :: s' =>
          match find p s' with
          | Some (b, a) => Some (c :: b, a)
          | None => None
          end
      end
  end.

(** [sub in s] for two strings. *)
Definition contains (sub s : pystr) : bool :=
  match find sub s with Some _ => true | None => false end.

(** [str.isspace] for one code point (CPython's [_PyUnicode_IsWhitespace]). *)
Definition isspace (c : N) : bool :=
  ((9 <=? c) && (c <=? 13)) || ((28 <=? c) && (c <=? 32))
  || (c =? 133) || (c =? 160) || (c =? 5760)
  || ((8192 <=? c) && (c <=? 8202))
  || (c =? 8232) || (c =? 8233) || (c =? 8239) || (c =? 8287) || (c =? 12288).

Fixpoint lstrip (s : pystr) : pystr :=
  match s with
  | c :: r => if isspace c then lstrip r else s
  | [] => []
  end.

Definition rstrip (s : pystr) : pystr := rev (lstrip (rev s)).

(** [s.strip()] *)
Definition strip (s : pystr) : pystr := rstrip (lstrip s).

(** [re.search(r'<tag>(.*?)</tag>', text, re.DOTALL)], as [m.group(1)].
    The search is leftmost and the group is lazy: the match starts at the
    first opening tag that has a closing tag after it, which is the first
    opening tag at all (a closing tag after a later opening tag is also
    after the first one), and the group stops at the first closing tag that
    follows. With [re.DOTALL] the dot matches every code point. *)
Definition re_search_group (open close text : pystr) : option pystr :=
  match find open text with
  | None => None
  | Some (_, after_open) =>
      match find close after_open with
      | None => None
      | Some (group1, _) => Some group1
      end
  end.

Local Close Scope N_scope.

(* ------------------------------------------------------------------ *)
(** * Exceptions *)

Inductive exn :=
| ValueError (msg : pystr)
| JSONDecodeError
| TypeError
| KeyError
| AttributeError
| UnicodeEncodeError
| Raised (what : string).   (* raised by a collaborator: LLM client, registry *)

Inductive result (A : Type) :=
| Ok (a : A)
| Err (e : exn).
Arguments Ok {A} a.
Arguments Err {A} e.

Definition rbind {A B} (r : result A) (k : A -> result B) : result B :=
  match r with
  | Ok a => k a
  | Err e => Err e
  end.

Declare Scope res_scope.
Delimit Scope res_scope with res.
Notation "'let?' x ':=' r 'in' k" := (rbind r (fun x => k))
  (at level 10, x pattern, r at level 200, k at level 200) : res_scope.

(* ------------------------------------------------------------------ *)
(** * [text.encode()] and [hashlib.md5(...).hexdigest()] *)

Module MD5.

(** UTF-8; lone surrogates make [str.encode] raise. *)
Definition encode_char (code : N) : result (list Z) :=
  let c := Z.of_N code in
  if c <? 128 then Ok [c]
  else if c <? 2048 then
    Ok [Z.lor 192 (Z.shiftr c 6); Z.lor 128 (Z.land c 63)]
  else if (55296 <=? c) && (c <=? 57343) then Err UnicodeEncodeError
  else if c <? 65536 then
    Ok [Z.lor 224 (Z.shiftr c 12);
        Z.lor 128 (Z.land (Z.shiftr c 6) 63);
        Z.lor 128 (Z.land c 63)]
  else
    Ok [Z.lor 240 (Z.shiftr c 18);
        Z.lor 128 (Z.land (Z.shiftr c 12) 63);
        Z.lor 128 (Z.land (Z.shiftr c 6) 63);
        Z.lor 128 (Z.land c 63)].

Fixpoint encode (s : pystr) : result (list Z) :=
  match s with
  | [] => Ok []
  | c :: r =>
      match encode_char c, encode r with
      | Ok b, Ok bs => Ok (b ++ bs)
      | Err e, _ => Err e
      | _, Err e => Err e
      end
  end.

Definition w32 (x : Z) : Z := x mod 4294967296.

Definition rotl (x n : Z) : Z :=
  w32 (Z.lor (Z.shiftl x n) (Z.shiftr x (32 - n))).

Definition not32 (x : Z) : Z := Z.lxor x 4294967295.

Definition K : list Z :=
  [3614090360; 3905402710; 606105819; 3250441966;
   4118548399; 1200080426; 2821735955; 4249261313;
   1770035416; 2336552879; 4294925233; 2304563134;
   1804603682; 4254626195; 2792965006; 1236535329;
   4129170786; 3225465664; 643717713; 3921069994;
   3593408605; 38016083; 3634488961; 3889429448;
   568446438; 3275163606; 4107603335; 1163531501;
   2850285829; 4243563512; 1735328473; 2368359562;
   4294588738; 2272392833; 1839030562; 4259657740;
   2763975236; 1272893353; 4139469664; 3200236656;
   681279174; 3936430074; 3572445317; 76029189;
   3654602809; 3873151461; 530742520; 3299628645;
   4096336452; 1126891415; 2878612391; 4237533241;
   1700485571; 2399980690; 4293915773; 2240044497;
   1873313359; 4264355552; 2734768916; 1309151649;
   4149444226; 3174756917; 718787259; 3951481745].

Definition shifts : list Z :=
  [7; 12; 17; 22; 7; 12; 17; 22; 7; 12; 17; 22; 7; 12; 17; 22;
   5; 9; 14; 20; 5; 9; 14; 20; 5; 9; 14; 20; 5; 9; 14; 20;
   4; 11; 16; 23; 4; 11; 16; 23; 4; 11; 16; 23; 4; 11; 16; 23;
   6; 10; 15; 21; 6; 10; 15; 21; 6; 10; 15; 21; 6; 10; 15; 21].

Definition nthZ (l : list Z) (i : Z) : Z := nth (Z.to_nat i) l 0.

(** Little-endian bytes of a word, and back. *)
Definition le_bytes (n : nat) (x : Z) : list Z :=
  map (fun i => Z.land (Z.shiftr x (8 * Z.of_nat i)) 255) (seq 0 n).

Fixpoint le_word (bs : list Z) : Z :=
  match bs with
  | [] => 0
  | b :: r => b + 256 * le_word r
  end.

Fixpoint words (n : nat) (bs : list Z) : list Z :=
  match n with
  | O => []
  | S n' => le_word (firstn 4 bs) :: words n' (skipn 4 bs)
  end.

Definition pad (msg : list Z) : list Z :=
  let len := Z.of_nat (List.length msg) in
  let zeros := Z.to_nat ((55 - len) mod 64) in
  msg ++ [128] ++ repeat 0 zeros ++ le_bytes 8 ((8 * len) mod 2 ^ 64).

Definition step (M : list Z) (st : Z * Z * Z * Z) (i : Z) : Z * Z * Z * Z :=
  let '(a, b, c, d) := st in
  let '(f, g) :=
    if i <? 16 then (Z.lor (Z.land b c) (Z.land (not32 b) d), i)
    else if i <? 32 then
      (Z.lor (Z.land d b) (Z.land (not32 d) c), (5 * i + 1) mod 16)
    else if i <? 48 then (Z.lxor b (Z.lxor c d), (3 * i + 5) mod 16)
    else (Z.lxor c (Z.lor b (not32 d)), (7 * i) mod 16) in
  let f' := w32 (f + a + nthZ K i + nthZ M g) in
  (d, w32 (b + rotl f' (nthZ shifts i)), b, c).

Definition block (h : Z * Z * Z * Z) (M : list Z) : Z * Z * Z * Z :=
  let '(a0, b0, c0, d0) := h in
  let '(a, b, c, d) := fold_left (step M) (map Z.of_nat (seq 0 64)) h in
  (w32 (a0 + a), w32 (b0 + b), w32 (c0 + c), w32 (d0 + d)).

Fixpoint blocks (n : nat) (h : Z * Z * Z * Z) (bs : list Z) : Z * Z * Z * Z :=
  match n with
  | O => h
  | S n' => blocks n' (block h (words 16 (firstn 64 bs))) (skipn 64 bs)
  end.

Definition digest (msg : list Z) : list Z :=
  let p := pad msg in
  let '(a, b, c, d) :=
    blocks (List.length p / 64)
      (1732584193, 4023233417, 2562383102, 271733878) p in
  le_bytes 4 a ++ le_bytes 4 b ++ le_bytes 4 c ++ le_bytes 4 d.

Definition hex_digit (n : Z) : Z := if n <? 10 then 48 + n else 87 + n.

Definition hexdigest (bs : list Z) : pystr :=
  flat_map (fun b => [Z.to_N (hex_digit (Z.shiftr b 4));
                      Z.to_N (hex_digit (Z.land b 15))]) bs.

End MD5.

(** [hashlib.md5(text.encode()).hexdigest()] *)
Definition cache_key_of (text : pystr) : result pystr :=
  match MD5.encode text with
  | Ok bytes => Ok (MD5.hexdigest (MD5.digest bytes))
  | Err e => Err e
  end.


(* ------------------------------------------------------------------ *)
(** * Dictionaries *)

Section Dict.
Context {V : Type}.

Definition dict := list (pystr * V).

(** [d.get(k)] *)
Fixpoint dict_get (k : pystr) (d : dict) : option V :=
  match d with
  | [] => None
  | (k', v) :: r => if str_eqb k k' then Some v else dict_get k r
  end.

(** [k in d] *)
Definition dict_mem (k : pystr) (d : dict) : bool :=
  match dict_get k d with Some _ => true | None => false end.

(** [d[k] = v]: an existing key keeps its place, a new key goes last. *)
Fixpoint dict_set (k : pystr) (v : V) (d : dict) : dict :=
  match d with
  | [] => [(k, v)]
  | (k', v') :: r =>
      if str_eqb k k' then (k', v) :: r else (k', v') :: dict_set k v r
  end.

(** [del d[k]], for a key of the dictionary. *)
Definition dict_del (k : pystr) (d : dict) : dict :=
  filter (fun kv => negb (str_eqb k (fst kv))) d.

(** [dict(pairs)] *)
Definition dict_of_pairs (pairs : list (pystr * V)) : dict :=
  fold_left (fun d kv => dict_set (fst kv) (snd kv) d) pairs [].

(** Keys are pairwise distinct, as in every Python dictionary. *)
Definition dict_wf (d : dict) : Prop := NoDup (map fst d).
End Dict.
Arguments dict V : clear implicits.

(* ------------------------------------------------------------------ *)
(** * JSON texts: the lexical layer of [json.loads] and [json.dumps] *)

Local Open Scope N_scope.

Definition is_ws (c : N) : bool :=
  (c =? 32) || (c =? 9) || (c =? 10) || (c =? 13).

Fixpoint skip_ws (s : pystr) : pystr :=
  match s with
  | c :: r => if is_ws c then skip_ws r else s
  | [] => []
  end.

Definition is_digit (c : N) : bool := (48 <=? c) && (c <=? 57).

Fixpoint span_digits (s : pystr) : pystr * pystr :=
  match s with
  | c :: r =>
      if is_digit c then let '(d, t) := span_digits r in (c :: d, t)
      else ([], s)
  | [] => ([], [])
  end.

(** The number scanner ([_match_number_unicode]), in its three steps.
    The integer part: an optional minus sign, then one zero or a nonzero
    digit followed by digits. *)
Definition scan_int (s : pystr) : option (pystr * pystr) :=
  let '(sign, s1) :=
    match s with
    | c :: r => if c =? 45 then ([45], r) else ([], s)
    | [] => ([], s)
    end in
  match s1 with
  | [] => None
  | c :: r =>
      if (49 <=? c) && (c <=? 57) then
        let '(d, t) := span_digits r in Some (sign ++ c :: d, t)
      else if c =? 48 then Some (sign ++ [48], r)
      else None
  end.

(** The fraction: a dot followed by at least one digit, or nothing. *)
Definition scan_frac (s : pystr) : pystr * pystr :=
  match s with
  | p :: r =>
      if p =? 46 then
        match span_digits r with
        | ([], _) => ([], s)
        | (d, t) => (p :: d, t)
        end
      else ([], s)
  | [] => ([], s)
  end.

(** The exponent: [e] or [E], an optional sign and at least one digit, or
    nothing (the scanner backtracks when no digit follows). *)
Definition scan_exp (s : pystr) : pystr * pystr :=
  match s with
  | e :: r =>
      if (e =? 101) || (e =? 69) then
        let '(sg, r') :=
          match r with
          | x :: r' => if (x =? 45) || (x =? 43) then ([x], r') else ([], r)
          | [] => ([], r)
          end in
        match span_digits r' with
        | ([], _) => ([], s)
        | (d, t) => (e :: sg ++ d, t)
        end
      else ([], s)
  | [] => ([], s)
  end.

(** The integer part, the fraction and the exponent read (the last two
    possibly empty), and the text that follows. *)
Definition match_number (s : pystr) : option (pystr * pystr * pystr * pystr) :=
  match scan_int s with
  | None => None
  | Some (i, s2) =>
      let '(frac, s3) := scan_frac s2 in
      let '(ex, s4) := scan_exp s3 in
      Some (i, frac, ex, s4)
  end.

(** [int(text)] on the integer part of a number. *)
Definition digits_value (ds : pystr) : Z :=
  fold_left (fun acc c => 10 * acc + (Z.of_N c - 48))%Z ds 0%Z.

Definition py_int (t : pystr) : Z :=
  match t with
  | c :: ds => if c =? 45 then (- digits_value ds)%Z else digits_value t
  | [] => 0%Z
  end.

(** [int.__repr__] *)
Fixpoint digits_of (fuel : nat) (n : Z) (acc : pystr) : pystr :=
  match fuel with
  | O => acc
  | S fuel' =>
      let acc' := Z.to_N (48 + n mod 10) :: acc in
      if (n <? 10)%Z then acc' else digits_of fuel' (n / 10)%Z acc'
  end.

Definition repr_int (n : Z) : pystr :=
  if (n <? 0)%Z then 45 :: digits_of (S (Z.to_nat (Z.log2 (- n)))) (- n)%Z []
  else digits_of (S (Z.to_nat (Z.log2 n))) n [].

Definition hex_val (c : N) : option N :=
  if is_digit c then Some (c - 48)
  else if (97 <=? c) && (c <=? 102) then Some (c - 87)
  else if (65 <=? c) && (c <=? 70) then Some (c - 55)
  else None.

Definition hex4 (a b c d : N) : option N :=
  match hex_val a, hex_val b, hex_val c, hex_val d with
  | Some x, Some y, Some z, Some w => Some (((x * 16 + y) * 16 + z) * 16 + w)
  | _, _, _, _ => None
  end.

Definition is_high_surrogate (u : N) : bool := (55296 <=? u) && (u <=? 56319).
Definition is_low_surrogate (u : N) : bool := (56320 <=? u) && (u <=? 57343).
Definition join_surrogates (hi lo : N) : N :=
  65536 + N.lor (N.shiftl (hi - 55296) 10) (lo - 56320).

(** The escape table [BACKSLASH] of the decoder. *)
Definition unescape (e : N) : option N :=
  if e =? 34 then Some 34 else if e =? 92 then Some 92
  else if e =? 47 then Some 47 else if e =? 98 then Some 8
  else if e =? 102 then Some 12 else if e =? 110 then Some 10
  else if e =? 114 then Some 13 else if e =? 116 then Some 9
  else None.

Definition push (c : N) (r : result (pystr * pystr)) : result (pystr * pystr) :=
  match r with
  | Ok (s, rest) => Ok (c :: s, rest)
  | Err e => Err e
  end.

(** [scanstring] in strict mode, started after the opening quote: the
    decoded string and the text after the closing quote. *)
Fixpoint scanstring (s : pystr) : result (pystr * pystr) :=
  match s with
  | [] => Err JSONDecodeError
  | c :: r =>
      if c =? 34 then Ok ([], r)
      else if c =? 92 then
        match r with
        | [] => Err JSONDecodeError
        | e :: r1 =>
            if e =? 117 then
              match r1 with
              | h1 :: h2 :: h3 :: h4 :: r2 =>
                  match hex4 h1 h2 h3 h4 with
                  | None => Err JSONDecodeError
                  | Some u =>
                      match r2 with
                      | b :: u' :: g1 :: g2 :: g3 :: g4 :: r3 =>
                          if is_high_surrogate u && (b =? 92) && (u' =? 117)
                          then
                            match hex4 g1 g2 g3 g4 with
                            | None => Err JSONDecodeError
                            | Some u2 =>
                                if is_low_surrogate u2
                                then push (join_surrogates u u2) (scanstring r3)
                                else push u (scanstring r2)
                            end
                          else push u (scanstring r2)
                      | _ => push u (scanstring r2)
                      end
                  end
              | _ => Err JSONDecodeError
              end
            else
              match unescape e with
              | Some c' => push c' (scanstring r1)
              | None => Err JSONDecodeError
              end
        end
      else if c <=? 31 then Err JSONDecodeError
      else push c (scanstring r)
  end.

(** [encode_basestring] ([ensure_ascii=False]): only the quote, the
    backslash and the control characters below 32 are escaped. *)
Definition hex_lower (n : N) : N := if n <? 10 then 48 + n else 87 + n.

Definition escape_char (c : N) : pystr :=
  if c =? 34 then [92; 34]
  else if c =? 92 then [92; 92]
  else if c =? 10 then [92; 110]
  else if c =? 13 then [92; 114]
  else if c =? 9 then [92; 116]
  else if c =? 8 then [92; 98]
  else if c =? 12 then [92; 102]
  else if c <? 32 then
    [92; 117; 48; 48; hex_lower (c / 16); hex_lower (c mod 16)]
  else [c].

Definition encode_basestring (s : pystr) : pystr :=
  34 :: flat_map escape_char s ++ [34].

Fixpoint join (sep : pystr) (parts : list pystr) : pystr :=
  match parts with
  | [] => []
  | [p] => p
  | p :: rest => p ++ sep ++ join sep rest
  end.

Local Close Scope N_scope.

(* ------------------------------------------------------------------ *)
(** * Floating point, kept behind an interface *)

(** What [float.__repr__] prints for a finite float, as the number scanner
    reads it back: the whole text is one number with a fraction or an
    exponent. *)
Definition float_literal (s : pystr) : bool :=
  match match_number s with
  | Some (_, frac, ex, []) =>
      match frac, ex with
      | [], [] => false
      | _, _ => true
      end
  | _ => false
  end.

(** What [json.dumps] prints for a float ([float.__repr__], or one of
    [NaN], [Infinity], [-Infinity] under the default [allow_nan=True]). *)
Definition float_text (s : pystr) : bool :=
  float_literal s || str_eqb s (lit "NaN") || str_eqb s (lit "Infinity")
  || str_eqb s (lit "-Infinity").

(** Python's [float]: [float(text)] on a number the scanner accepted, the
    three constants of the decoder, and the text [json.dumps] prints. The
    values themselves (binary64 rounding) are not modelled. *)
Class FloatModel : Type := {
  float : Type;
  parse_float : pystr -> float;
  float_nan : float;
  float_inf : float;
  float_neg_inf : float;
  float_repr : float -> pystr;
  float_repr_text : forall f, float_text (float_repr f) = true
}.

(** An instance that runs: a float is the text of the literal it was read
    from (so [1.50] prints as [1.50], where CPython prints [1.5]). *)
Definition text_float_repr (f : pystr) : pystr :=
  if float_text f then f else lit "NaN".

Section Provider.
Context {FM : FloatModel}.
Local Open Scope res_scope.
Local Open Scope N_scope.

(* ------------------------------------------------------------------ *)
(** * JSON values, [json.loads] and [json.dumps] *)

(** The Python values [json.loads] builds. *)
Inductive json :=
| JNull
| JBool (b : bool)
| JInt (n : Z)
| JFloat (f : float)
| JStr (s : pystr)
| JArr (items : list json)
| JObj (members : dict json).

(** [scan_once], [_parse_array] and [_parse_object] of the decoder. The
    functions recurse on [fuel]; [json_loads] gives them more than any
    text needs ([json_loads_fuel]), so that [RecursionError], the answer on
    exhausted fuel, never comes out of it. A [StopIteration] of the
    scanner is turned into [JSONDecodeError] by each of its callers and is
    written as that error directly. *)
Definition RecursionError : exn := Raised "RecursionError".

Fixpoint scan_once (fuel : nat) (s : pystr) {struct fuel}
  : result (json * pystr) :=
  match fuel with
  | O => Err RecursionError
  | S fuel' =>
      match s with
      | [] => Err JSONDecodeError
      | c :: r =>
          if c =? 34 then
            let? (str, rest) := scanstring r in Ok (JStr str, rest)
          else if c =? 123 then
            match skip_ws r with
            | c1 :: r1 =>
                if c1 =? 125 then Ok (JObj [], r1)
                else
                  let? (pairs, rest) := scan_members fuel' (c1 :: r1) in
                  Ok (JObj (dict_of_pairs pairs), rest)
            | [] => Err JSONDecodeError
            end
          else if c =? 91 then
            match skip_ws r with
            | c1 :: r1 =>
                if c1 =? 93 then Ok (JArr [], r1)
                else
                  let? (items, rest) := scan_items fuel' (c1 :: r1) in
                  Ok (JArr items, rest)
            | [] => Err JSONDecodeError
            end
          else
            match strip_prefix (lit "null") s with
            | Some rest => Ok (JNull, rest)
            | None =>
            match strip_prefix (lit "true") s with
            | Some rest => Ok (JBool true, rest)
            | None =>
            match strip_prefix (lit "false") s with
            | Some rest => Ok (JBool false, rest)
            | None =>
            match strip_prefix (lit "NaN") s with
            | Some rest => Ok (JFloat float_nan, rest)
            | None =>
            match strip_prefix (lit "Infinity") s with
            | Some rest => Ok (JFloat float_inf, rest)
            | None =>
            match strip_prefix (lit "-Infinity") s with
            | Some rest => Ok (JFloat float_neg_inf, rest)
            | None =>
            match match_number s with
            | Some (i, [], [], rest) => Ok (JInt (py_int i), rest)
            | Some (i, frac, ex, rest) =>
                Ok (JFloat (parse_float (i ++ frac ++ ex)), rest)
            | None => Err JSONDecodeError
            end end end end end end end
      end
  end

with scan_items (fuel : nat) (s : pystr) {struct fuel}
  : result (list json * pystr) :=
  match fuel with
  | O => Err RecursionError
  | S fuel' =>
      let? (v, rest) := scan_once fuel' s in
      match skip_ws rest with
      | c :: r =>
          if c =? 93 then Ok ([v], r)
          else if c =? 44 then
            let? (vs, rest') := scan_items fuel' (skip_ws r) in
            Ok (v :: vs, rest')
          else Err JSONDecodeError
      | [] => Err JSONDecodeError
      end
  end

with scan_members (fuel : nat) (s : pystr) {struct fuel}
  : result (list (pystr * json) * pystr) :=
  match fuel with
  | O => Err RecursionError
  | S fuel' =>
      match s with
      | q :: r0 =>
          if q =? 34 then
            let? (key, r1) := scanstring r0 in
            match skip_ws r1 with
            | c1 :: r2 =>
                if c1 =? 58 then
                  let? (v, r3) := scan_once fuel' (skip_ws r2) in
                  match skip_ws r3 with
                  | c2 :: r4 =>
                      if c2 =? 125 then Ok ([(key, v)], r4)
                      else if c2 =? 44 then
                        let? (ps, r5) := scan_members fuel' (skip_ws r4) in
                        Ok ((key, v) :: ps, r5)
                      else Err JSONDecodeError
                  | [] => Err JSONDecodeError
                  end
                else Err JSONDecodeError
            | [] => Err JSONDecodeError
            end
          else Err JSONDecodeError
      | [] => Err JSONDecodeError
      end
  end.

Definition loads_fuel (s : pystr) : nat := 2 * List.length s + 2.

(** [json.loads(s)] for a [str]: the byte-order-mark check of [loads], then
    [JSONDecoder.decode] (leading whitespace, one value, trailing
    whitespace, nothing more). *)
Definition json_loads (s : pystr) : result json :=
  match s with
  | c :: _ =>
      if c =? 65279 then Err JSONDecodeError
      else
        let? (v, rest) := scan_once (loads_fuel s) (skip_ws s) in
        match skip_ws rest with
        | [] => Ok v
        | _ :: _ => Err JSONDecodeError
        end
  | [] => Err JSONDecodeError
  end.

(** [json.dumps(v, ensure_ascii=False)] with the default separators. *)
Fixpoint json_dumps (v : json) : pystr :=
  match v with
  | JNull => lit "null"
  | JBool true => lit "true"
  | JBool false => lit "false"
  | JInt n => repr_int n
  | JFloat f => float_repr f
  | JStr s => encode_basestring s
  | JArr items => lit "[" ++ join (lit ", ") (map json_dumps items) ++ lit "]"
  | JObj members =>
      lit "{"
      ++ join (lit ", ")
           (map (fun kv => encode_basestring (fst kv) ++ lit ": "
                           ++ json_dumps (snd kv)) members)
      ++ lit "}"
  end.

(** The operations of the source on decoded values. *)

(** [len(v)] *)
Definition py_len (v : json) : result nat :=
  match v with
  | JStr s => Ok (List.length s)
  | JArr l => Ok (List.length l)
  | JObj d => Ok (List.length d)
  | _ => Err TypeError
  end.

(** [v[0]], for a [v] with [len(v) != 0]; a dictionary decoded from JSON
    has string keys only, so that the key [0] is never in it. *)
Definition py_first (v : json) : result json :=
  match v with
  | JStr (c :: _) => Ok (JStr [c])
  | JArr (x :: _) => Ok x
  | JStr [] | JArr [] => Err (Raised "IndexError")
  | JObj _ => Err KeyError
  | _ => Err TypeError
  end.

(** [key in v], for a string [key] *)
Definition py_in (key : pystr) (v : json) : result bool :=
  match v with
  | JObj d => Ok (dict_mem key d)
  | JArr l =>
      Ok (existsb (fun x => match x with JStr s => str_eqb s key | _ => false end) l)
  | JStr s => Ok (contains key s)
  | _ => Err TypeError
  end.

(** [v[key]], for a string [key] *)
Definition py_getitem (key : pystr) (v : json) : result json :=
  match v with
  | JObj d =>
      match dict_get key d with
      | Some x => Ok x
      | None => Err KeyError
      end
  | _ => Err TypeError
  end.

(** [v.get(key, default)] *)
Definition py_get (key : pystr) (default : json) (v : json) : result json :=
  match v with
  | JObj d =>
      match dict_get key d with
      | Some x => Ok x
      | None => Ok default
      end
  | _ => Err AttributeError
  end.

(* ------------------------------------------------------------------ *)
(** * [IntentProvider.parse_text] *)

Definition group_or_empty (open close text : pystr) : pystr :=
  match re_search_group open close text with
  | Some g => strip g
  | None => []
  end.

Definition parse_text (text : pystr) : result (dict json) :=
  let tags := group_or_empty (lit "<tags>") (lit "</tags>") text in
  let tool_call := group_or_empty (lit "<tool_call>") (lit "</tool_call>") text in
  let content := group_or_empty (lit "<content>") (lit "</content>") text in
  let? tools := json_loads tool_call in
  let? n := py_len tools in
  if Nat.eqb n 0 then
    Ok [(lit "tags", JStr tags); (lit "content", JStr content)]
  else
    let? first := py_first tools in
    Ok [(lit "tags", JStr tags);
        (lit "function_call", first);
        (lit "content", JStr content)].

Local Close Scope N_scope.

(* ------------------------------------------------------------------ *)
(** * The provider object and its collaborators *)

(** A value of [self.intent_cache]: [{"intent": ..., "timestamp": ...}]. *)
Record cache_entry := { intent : pystr; timestamp : Z }.

Definition cache := dict cache_entry.

(** [self.cache_expiry] and [self.cache_max_size], set in [__init__]. *)
Definition cache_expiry : Z := 600.
Definition cache_max_size : nat := 100.

(** The LLM client: the answer of [response_no_stream] may depend on how
    many calls came before, and the client may raise. *)
Record LLMClient := {
  response_no_stream : nat -> pystr -> pystr -> result pystr
}.

(** The connection: [initialize_music_handler(conn)] of the music plugin
    and [conn.func_handler.get_functions()] of the tool registry are code
    outside this file; their results are taken as given. *)
Record Conn := {
  initialize_music_handler : result json;
  get_functions : result (list json)
}.

(** The provider ([llm], [intent_cache]) together with what the call
    observes of the world: how often the clock has been read and the calls
    made to the LLM client, oldest first. *)
Record State := {
  llm : option LLMClient;
  intent_cache : cache;
  clock_reads : nat;
  llm_calls : list (pystr * pystr)
}.

Definition with_cache (c : cache) (st : State) : State :=
  {| llm := llm st; intent_cache := c;
     clock_reads := clock_reads st; llm_calls := llm_calls st |}.

Definition with_reads (n : nat) (st : State) : State :=
  {| llm := llm st; intent_cache := intent_cache st;
     clock_reads := n; llm_calls := llm_calls st |}.

Definition with_calls (l : list (pystr * pystr)) (st : State) : State :=
  {| llm := llm st; intent_cache := intent_cache st;
     clock_reads := clock_reads st; llm_calls := l |}.

(** [IntentProvider.__init__] *)
Definition init : State :=
  {| llm := None; intent_cache := []; clock_reads := 0; llm_calls := [] |}.

(** Stateful code that may raise. *)
Definition M (A : Type) : Type := State -> result A * State.

Definition ret {A} (a : A) : M A := fun st => (Ok a, st).

Definition raise {A} (e : exn) : M A := fun st => (Err e, st).

Definition bind {A B} (m : M A) (k : A -> M B) : M B :=
  fun st =>
    match m st with
    | (Ok a, st') => k a st'
    | (Err e, st') => (Err e, st')
    end.

Definition lift {A} (r : result A) : M A := fun st => (r, st).

Notation "x <- m ;; k" := (bind m (fun x => k))
  (at level 61, m at next level, right associativity).
Notation "m ;; k" := (bind m (fun _ => k))
  (at level 61, right associativity).

Section Run.
Variable clock : nat -> Z.

(** [time.time()] *)
Definition time_time : M Z :=
  fun st => (Ok (clock (clock_reads st)), with_reads (S (clock_reads st)) st).

Definition get_cache : M cache := fun st => (Ok (intent_cache st), st).

Definition put_cache (c : cache) : M unit := fun st => (Ok tt, with_cache c st).

(** [sorted(items, key=lambda x: x[1]["timestamp"])]: stable. *)
Fixpoint insert_by_timestamp (x : pystr * cache_entry)
    (l : list (pystr * cache_entry)) : list (pystr * cache_entry) :=
  match l with
  | [] => [x]
  | y :: r =>
      if timestamp (snd x) <=? timestamp (snd y) then x :: l
      else y :: insert_by_timestamp x r
  end.

Definition sorted_by_timestamp (items : list (pystr * cache_entry))
  : list (pystr * cache_entry) :=
  fold_right insert_by_timestamp [] items.

(** [now - v["timestamp"] > self.cache_expiry] for an item [(k, v)]. *)
Definition expired (now : Z) (kv : pystr * cache_entry) : bool :=
  now - timestamp (snd kv) >? cache_expiry.

(** The body of [clean_cache] after [now = time.time()]. *)
Definition clean_cache_at (now : Z) (c : cache) : cache :=
  let expired_keys := map fst (filter (expired now) c) in
  let c1 := fold_left (fun d key => dict_del key d) expired_keys c in
  if (cache_max_size <? List.length c1)%nat then
    let sorted_items := sorted_by_timestamp c1 in
    fold_left (fun d kv => dict_del (fst kv) d)
      (firstn (List.length sorted_items - cache_max_size) sorted_items) c1
  else c1.

(** [IntentProvider.clean_cache] *)
Definition clean_cache : M unit :=
  now <- time_time ;;
  c <- get_cache ;;
  put_cache (clean_cache_at now c).

(** [self.llm.response_no_stream(system_prompt=..., user_prompt=...)] *)
Definition call_llm (client : LLMClient) (system_prompt user_prompt : pystr)
  : M pystr :=
  fun st =>
    (response_no_stream client (List.length (llm_calls st))
       system_prompt user_prompt,
     with_calls (llm_calls st ++ [(system_prompt, user_prompt)]) st).

Fixpoint map_result {A B} (f : A -> result B) (l : list A) : result (list B) :=
  match l with
  | [] => Ok []
  | x :: r =>
      let? y := f x in
      let? ys := map_result f r in
      Ok (y :: ys)
  end.

Definition system_prompt_of (tools_string : pystr) : pystr :=
  lit "You are Qwen, created by Alibaba Cloud. You are a helpful assistant. You may call one or more tools to assist with the user query. The tools you can use are as follows:"
  ++ [10%N] ++ lit "        " ++ tools_string
  ++ [10%N] ++ lit "        Response in INTENT_MODE.".

(** The literal returned by the handler of [json.JSONDecodeError]. *)
Definition fallback_intent : pystr :=
  qlit "{'intent': '" ++ [32487; 32493; 32842; 22825]%N ++ qlit "'}".

(** [self.intent_cache[cache_key] = {"intent": intent, "timestamp": time.time()}] *)
Definition store (cache_key intent : pystr) : M unit :=
  now <- time_time ;;
  c <- get_cache ;;
  put_cache (dict_set cache_key {| intent := intent; timestamp := now |} c).

(** Lines 99-110: the tool schemas of the registry, serialized into the
    system prompt. [music_file_names] is looked up and not used. *)
Definition build_system_prompt (conn : Conn) : result pystr :=
  let? music_config := initialize_music_handler conn in
  let? music_file_names := py_getitem (lit "music_file_names") music_config in
  let? tools := get_functions conn in
  let? tools := map_result (py_getitem (lit "function")) tools in
  let tools_string := json_dumps (JArr tools) in
  Ok (system_prompt_of tools_string).

(** Lines 134-182: the answer of the LLM is parsed and serialized, the
    serialized intent is decoded again, logged and cached. The decoder
    called on the serialized intent (line 138) is the argument [decode],
    [json_loads] in [detect_intent]; with it the handler of lines 175-182
    can be stated for a decoder that fails. Only [json.JSONDecodeError] is
    caught. *)
Definition postprocess (decode : pystr -> result json)
    (cache_key raw : pystr) : M pystr :=
  parsed <- lift (parse_text (strip raw)) ;;
  let intent := json_dumps (JObj parsed) in
  match decode intent with
  | Ok intent_data =>
      has_call <- lift (py_in (lit "function_call") intent_data) ;;
      if has_call : bool then
        function_data <- lift (py_getitem (lit "function_call") intent_data) ;;
        lift (py_get (lit "name") JNull function_data) ;;
        lift (py_get (lit "arguments") (JObj []) function_data) ;;
        store cache_key intent ;;
        time_time ;;                            (* postprocess_time *)
        ret intent
      else
        store cache_key intent ;;
        time_time ;;                            (* postprocess_time *)
        ret intent
  | Err JSONDecodeError =>
      time_time ;;                              (* postprocess_time *)
      ret fallback_intent
  | Err e => raise e
  end.

(** Lines 96-182 of [detect_intent]: what runs when the lookup did not
    return. *)
Definition miss_path (decode : pystr -> result json) (conn : Conn)
    (client : LLMClient) (cache_key text : pystr) : M pystr :=
  clean_cache ;;
  let user_prompt := text in
  system_prompt <- lift (build_system_prompt conn) ;;
  time_time ;;                                  (* preprocess_time *)
  time_time ;;                                  (* llm_start_time *)
  raw <- call_llm client system_prompt user_prompt ;;
  time_time ;;                                  (* llm_time *)
  time_time ;;                                  (* postprocess_start_time *)
  postprocess decode cache_key raw.

(** The lookup of lines 86-94: the cached intent when the key is present
    and its entry is at most [cache_expiry] old. *)
Definition lookup (cache_key : pystr) : M (option pystr) :=
  c <- get_cache ;;
  match dict_get cache_key c with
  | Some cache_entry =>
      now <- time_time ;;
      if now - timestamp cache_entry <=? cache_expiry then
        time_time ;;                            (* cache_time *)
        ret (Some (intent cache_entry))
      else ret None
  | None => ret None
  end.

Definition detect_intent_with (decode : pystr -> result json) (conn : Conn)
    (text : pystr) : M pystr :=
  fun st =>
    match llm st with
    | None => (Err (ValueError (lit "LLM provider not set")), st)
    | Some client =>
        (time_time ;;                           (* total_start_time *)
         cache_key <- lift (cache_key_of text) ;;
         hit <- lookup cache_key ;;
         match hit with
         | Some cached => ret cached
         | None => miss_path decode conn client cache_key text
         end) st
    end.

(** [IntentProvider.detect_intent]; [dialogue_history] is not used by the
    source. *)
Definition detect_intent (conn : Conn) (text : pystr) : M pystr :=
  detect_intent_with json_loads conn text.

End Run.

End Provider.

#[export] Instance text_float : FloatModel.
Proof.
  refine {| float := pystr;
            parse_float := fun s => s;
            float_nan := lit "NaN";
            float_inf := lit "Infinity";
            float_neg_inf := lit "-Infinity";
            float_repr := text_float_repr |}.
  intros f. unfold text_float_repr.
  destruct (float_text f) eqn:E; [exact E | reflexivity].
Defined.

(* ------------------------------------------------------------------ *)
(** * A concrete provider, used by the examples *)

Definition demo_clock (n : nat) : Z := 1000 + Z.of_nat n.

Definition demo_conn : Conn :=
  {| initialize_music_handler :=
       Ok (JObj [(lit "music_file_names", JArr [])]);
     get_functions :=
       Ok [JObj [(lit "type", JStr (lit "function"));
                 (lit "function", JObj [(lit "name", JStr (lit "play_music"))])]] |}.

(** A client that always answers [raw]. *)
Definition demo_client (raw : pystr) : LLMClient :=
  {| response_no_stream := fun _ _ _ => Ok raw |}.

Definition demo_state (raw : pystr) (c : cache) : State :=
  {| llm := Some (demo_client raw); intent_cache := c;
     clock_reads := 0; llm_calls := [] |}.

(** [hashlib.md5("play x".encode()).hexdigest()] and the same for ["stop"]. *)
Definition play_x_key : pystr := lit "048c79020176e6ed2a11de63564457a1".
Definition stop_key : pystr := lit "ef399b2d446bb37b7c32ad2cc1b6045b".

Definition answer_empty : pystr :=
  qlit "<tags>music</tags><tool_call>[]</tool_call><content>hi</content>".

Definition answer_play : pystr :=
  qlit "<tags>music</tags><tool_call>[{'name':'play','arguments':{'song':'x'}}]</tool_call><content>hi</content>".

Definition answer_number : pystr :=
  qlit "<tags>music</tags><tool_call>[1]</tool_call><content>hi</content>".

Definition answer_broken : pystr :=
  qlit "<tags>music</tags><tool_call>[{'name':</tool_call><content>hi</content>".

(** A decoder that rejects every text. *)
Definition failing_decoder {FM : FloatModel} (s : pystr) : result json :=
  Err JSONDecodeError.

(** A cache of [n] entries with keys [0], [1], ... and timestamps
    [t0], [t0 + 1], ... *)
Definition numbered_cache (n : nat) (t0 : Z) : cache :=
  map (fun i => (repr_int (Z.of_nat i),
                 {| intent := lit "{}"; timestamp := t0 + Z.of_nat i |}))
      (seq 0 n).

Fixpoint distinct (keys : list pystr) : bool :=
  match keys with
  | [] => true
  | k :: r => negb (existsb (str_eqb k) r) && distinct r
  end.

(** The prompt built from [demo_conn]. *)
Definition demo_prompt : pystr :=
  system_prompt_of
    (json_dumps (JArr [JObj [(lit "name", JStr (lit "play_music"))]])).

Definition play_x : pystr := lit "play x".

(** One entry for ["play x"], stored at time 500. *)
Definition hit_cache : cache :=
  [(play_x_key, {| intent := lit "cached"; timestamp := 500 |})].

(** One entry for ["stop"], stored at time 0 and long expired. *)
Definition stale_cache : cache :=
  [(stop_key, {| intent := lit "old"; timestamp := 0 |})].

(** A fresh entry for ["play x"] next to the expired one for ["stop"]. *)
Definition mixed_cache : cache :=
  [(play_x_key, {| intent := lit "cached"; timestamp := 900 |});
   (stop_key, {| intent := lit "old"; timestamp := 0 |})].

(** 150 entries stored at times 380, 381, ...: at time 1000 the first 20
    are expired. *)
Definition crowded : State := demo_state answer_empty (numbered_cache 150 380).

(** A clock that stands still. *)
Definition frozen_clock (n : nat) : Z := 1000.

(** A connection whose music handler raises. *)
Definition broken_conn : Conn :=
  {| initialize_music_handler := Err (Raised "music handler");
     get_functions := Ok [] |}.

(** A connection whose music handler gives a dictionary without
    [music_file_names]. *)
Definition bare_conn : Conn :=
  {| initialize_music_handler := Ok (JObj []); get_functions := Ok [] |}.

(** A client that always raises, in a provider with the expired entry for
    ["stop"]. *)
Definition failing_client : LLMClient :=
  {| response_no_stream := fun _ _ _ => Err (Raised "timeout") |}.

Definition failing_state : State :=
  {| llm := Some failing_client; intent_cache := stale_cache;
     clock_reads := 0; llm_calls := [] |}.

(** A text that [str.encode] refuses. *)
Definition lone_surrogate : pystr := [55357%N].

(** An answer whose tool region holds an object, not an array. *)
Definition answer_object : pystr :=
  qlit "<tool_call>{'name': 'play'}</tool_call>".

(** An answer without tools, with tags and content outside ASCII. *)
Definition answer_cjk : pystr :=
  lit "<tags>" ++ [38899%N; 20048%N] ++ lit "</tags><tool_call>[]</tool_call><content>"
  ++ [22909%N] ++ lit "</content>".

(* ------------------------------------------------------------------ *)
(** * The vocabulary of the statements *)

Local Open Scope N_scope.

(** What may follow a number without changing what the scanner reads. *)
Definition ends_number (rest : pystr) : bool :=
  match rest with
  | [] => true
  | c :: _ => negb (is_digit c || (c =? 46) || (c =? 101) || (c =? 69))
  end.

(** A value is followed by a comma, a closing bracket or brace, or nothing. *)
Definition ends_value (rest : pystr) : bool :=
  match rest with
  | [] => true
  | c :: _ => (c =? 44) || (c =? 93) || (c =? 125)
  end.

(** The first character of a serialized value. *)
Definition value_start (c : N) : bool :=
  is_digit c || (c =? 34) || (c =? 123) || (c =? 91) || (c =? 110)
  || (c =? 116) || (c =? 102) || (c =? 78) || (c =? 73) || (c =? 45).

Local Close Scope N_scope.

(** Whether the key of an item is among [keys]. *)
Definition key_in {V : Type} (keys : list pystr) (kv : pystr * V) : bool :=
  existsb (str_eqb (fst kv)) keys.

Definition older_eq (a b : pystr * cache_entry) : Prop :=
  timestamp (snd a) <= timestamp (snd b).

(** The first loop of [clean_cache] leaves the entries that are not
    expired. *)
Definition fresh (now : Z) (c : cache) : cache :=
  filter (fun kv => negb (expired now kv)) c.

(** A result that consumed input, or an error other than exhausted fuel. *)
Definition progress {A : Type} (s : pystr) (r : result (A * pystr)) : Prop :=
  match r with
  | Ok (_, rest) => (List.length rest < List.length s)%nat
  | Err e => e <> RecursionError
  end.

(** No whitespace at either end. *)
Definition stripped (s : pystr) : Prop :=
  match s with [] => True | c :: _ => isspace c = false end
  /\ match rev s with [] => True | c :: _ => isspace c = false end.

(** A UTF-16 surrogate, which [str.encode] refuses. *)
Definition is_surrogate (c : N) : bool := ((55296 <=? c) && (c <=? 57343))%N.

(** The digits of [hexdigest]. *)
Definition is_lower_hex (c : N) : bool :=
  (((48 <=? c) && (c <=? 57)) || ((97 <=? c) && (c <=? 102)))%N.

(** The characters [json.dumps(..., ensure_ascii=False)] escapes. *)
Definition needs_escape (c : N) : bool := ((c =? 34) || (c =? 92) || (c <? 32))%N.

(** [a] comes before [b] in the list: for the items of a dictionary, [a]
    was inserted first. *)
Inductive before {A : Type} (a b : A) : list A -> Prop :=
| before_here l : In b l -> before a b (a :: l)
| before_later x l : before a b l -> before a b (x :: l).

Section Vocabulary.
Context {FM : FloatModel}.

(** With fuel above twice the length of the text, the three scanners
    consume input or fail for a reason of their own. *)
Definition fuel_ok (fuel : nat) : Prop :=
  (forall s, (2 * List.length s + 1 <= fuel)%nat ->
             progress s (scan_once fuel s))
  /\ (forall s, (2 * List.length s + 2 <= fuel)%nat ->
                progress s (scan_items fuel s))
  /\ (forall s, (2 * List.length s + 2 <= fuel)%nat ->
                progress s (scan_members fuel s)).

(** The value the scanner builds from the three parts of a number. *)
Definition number_value (i frac ex : pystr) : json :=
  match frac, ex with
  | [], [] => JInt (py_int i)
  | _, _ => JFloat (parse_float (i ++ frac ++ ex))
  end.

(** Two values of the same kind: the same constructor, and the same text
    for strings. *)
Definition same_kind (a b : json) : Prop :=
  match a, b with
  | JNull, JNull => True
  | JBool x, JBool y => x = y
  | JInt _, JInt _ => True
  | JFloat _, JFloat _ => True
  | JStr x, JStr y => x = y
  | JArr x, JArr y => List.length x = List.length y
  | JObj _, JObj _ => True
  | _, _ => False
  end.

Definition same_member (kv kv' : pystr * json) : Prop :=
  fst kv = fst kv' /\ same_kind (snd kv) (snd kv').

(** The same kind and, for an object, the same keys in the same order with
    values of the same kind, before [dict(pairs)] is taken. *)
Definition similar (v v' : json) : Prop :=
  same_kind v v'
  /\ match v, v' with
     | JObj d, JObj d' =>
         exists pairs, d' = dict_of_pairs pairs /\ Forall2 same_member d pairs
     | _, _ => True
     end.

(** Fuel that scanning the text of a value takes. *)
Fixpoint need (v : json) : nat :=
  match v with
  | JArr l => S (fold_right (fun x acc => S (Nat.max (need x) acc)) O l)
  | JObj d => S (fold_right (fun kv acc => S (Nat.max (need (snd kv)) acc)) O d)
  | _ => 1
  end.

Definition need_items (l : list json) : nat :=
  fold_right (fun x acc => S (Nat.max (need x) acc)) O l.

Definition need_members (d : dict json) : nat :=
  fold_right (fun kv acc => S (Nat.max (need (snd kv)) acc)) O d.

Definition member_text (kv : pystr * json) : pystr :=
  encode_basestring (fst kv) ++ lit ": " ++ json_dumps (snd kv).

(** What the scanner is shown to do on the text of [v]. *)
Definition reads_back (v : json) : Prop :=
  forall fuel rest,
    (need v <= fuel)%nat -> ends_value rest = true ->
    exists v', scan_once fuel (json_dumps v ++ rest) = Ok (v', rest)
               /\ similar v v'.

(** The two shapes of what [parse_text] returns. *)
Definition plain_result (tags content : pystr) : dict json :=
  [(lit "tags", JStr tags); (lit "content", JStr content)].

Definition call_result (tags : pystr) (call : json) (content : pystr) : dict json :=
  [(lit "tags", JStr tags); (lit "function_call", call);
   (lit "content", JStr content)].

(** Logging the call does not raise: there is no [function_call], or it is
    an object. *)
Definition loggable (parsed : dict json) : Prop :=
  match dict_get (lit "function_call") parsed with
  | Some (JObj _) | None => True
  | Some _ => False
  end.

(** No cached intent is the fallback literal. *)
Definition no_fallback (c : cache) : Prop :=
  Forall (fun kv => intent (snd kv) <> fallback_intent) c.

(** The state in which post-processing starts: the cache cleaned at the
    reading [clean_cache] took, five more readings of the clock, one more
    call in the log. *)
Definition after_llm (clock : nat -> Z) (st : State) (prompt text : pystr) : State :=
  {| llm := llm st;
     intent_cache := clean_cache_at (clock (clock_reads st)) (intent_cache st);
     clock_reads := 5 + clock_reads st;
     llm_calls := llm_calls st ++ [(prompt, text)] |}.

(** The state after [store] and the last reading of the clock. *)
Definition stored (clock : nat -> Z) (key intent_text : pystr) (st : State) : State :=
  {| llm := llm st;
     intent_cache :=
       dict_set key {| intent := intent_text;
                       timestamp := clock (clock_reads st) |}
         (intent_cache st);
     clock_reads := 2 + clock_reads st;
     llm_calls := llm_calls st |}.

(** The call gets past the lookup without a hit, in state [st1]. *)
Definition misses (clock : nat -> Z) (text : pystr) (st : State) (client : LLMClient)
    (key : pystr) (st1 : State) : Prop :=
  llm st = Some client
  /\ cache_key_of text = Ok key
  /\ lookup clock key (with_reads (S (clock_reads st)) st) = (Ok None, st1).

(** The prompt is built and the LLM client answers [raw]. *)
Definition answered (conn : Conn) (client : LLMClient) (text : pystr)
    (st1 : State) (prompt raw : pystr) : Prop :=
  build_system_prompt conn = Ok prompt
  /\ response_no_stream client (List.length (llm_calls st1)) prompt text
     = Ok raw.

End Vocabulary.

(** What [parse_text] makes of [answer_play]. *)
Definition parsed_play {FM : FloatModel} : dict json :=
  call_result (lit "music")
    (JObj [(lit "name", JStr (lit "play"));
           (lit "arguments", JObj [(lit "song", JStr (lit "x"))])])
    (lit "hi").

(* ------------------------------------------------------------------ *)
(** * Facts about strings and dictionaries *)

Lemma str_eqb_eq (a b : pystr) : str_eqb a b = true <-> a = b.
Proof.
  revert b. induction a as [|x a IH]; intros [|y b]; simpl; split;
    try congruence; try reflexivity.
  - intros H. apply andb_true_iff in H as [Hx Hr].
    apply N.eqb_eq in Hx. apply IH in Hr. congruence.
  - intros H. injection H as -> ->. rewrite N.eqb_refl. simpl.
    now apply IH.
Qed.

Lemma str_eqb_refl (a : pystr) : str_eqb a a = true.
Proof. now apply str_eqb_eq. Qed.

Lemma str_eqb_sym (a b : pystr) : str_eqb a b = str_eqb b a.
Proof.
  destruct (str_eqb a b) eqn:E1, (str_eqb b a) eqn:E2; try reflexivity.
  - apply str_eqb_eq in E1. subst. now rewrite str_eqb_refl in E2.
  - apply str_eqb_eq in E2. subst. now rewrite str_eqb_refl in E1.
Qed.

Lemma str_eqb_neq (a b : pystr) : str_eqb a b = false <-> a <> b.
Proof.
  split.
  - intros H E. apply str_eqb_eq in E. congruence.
  - intros H. destruct (str_eqb a b) eqn:E; [|reflexivity].
    apply str_eqb_eq in E. contradiction.
Qed.

Section DictFacts.
Context {V : Type}.
Implicit Types (d : dict V) (k : pystr).

Lemma key_in_In keys (kv : pystr * V) : key_in keys kv = true <-> In (fst kv) keys.
Proof.
  unfold key_in. rewrite existsb_exists. split.
  - intros [k [Hin He]]. apply str_eqb_eq in He. now subst.
  - intros Hin. exists (fst kv). split; [assumption|apply str_eqb_refl].
Qed.

Lemma filter_filter (f g : pystr * V -> bool) d :
  filter f (filter g d) = filter (fun kv => g kv && f kv) d.
Proof.
  induction d as [|x d IH]; simpl; [reflexivity|].
  destruct (g x); simpl; [destruct (f x)|]; now rewrite IH.
Qed.

(** Deleting a list of keys one after the other keeps the items whose key
    is not in the list, in their order. *)
Lemma fold_dict_del keys d :
  fold_left (fun d k => dict_del k d) keys d
  = filter (fun kv => negb (key_in keys kv)) d.
Proof.
  revert d. induction keys as [|k keys IH]; intros d; simpl.
  - induction d as [|x d IHd]; simpl; [reflexivity|now rewrite <- IHd].
  - rewrite IH. unfold dict_del. rewrite filter_filter.
    apply filter_ext. intros kv. unfold key_in. simpl.
    rewrite negb_orb, (str_eqb_sym k). reflexivity.
Qed.

Lemma fold_dict_del_items (items : list (pystr * V)) d :
  fold_left (fun d kv => dict_del (fst kv) d) items d
  = filter (fun kv => negb (key_in (map fst items) kv)) d.
Proof.
  rewrite <- fold_dict_del. revert d.
  induction items as [|x items IH]; intros d; simpl; [reflexivity|apply IH].
Qed.

Lemma dict_wf_item_eq d a b :
  dict_wf d -> In a d -> In b d -> fst a = fst b -> a = b.
Proof.
  unfold dict_wf. induction d as [|x d IH]; simpl; [contradiction|].
  intros Hnd Ha Hb Hk. inversion Hnd as [|? ? Hnot Hnd']; subst.
  destruct Ha as [->|Ha], Hb as [->|Hb].
  - reflexivity.
  - exfalso. apply Hnot. rewrite Hk. now apply in_map.
  - exfalso. apply Hnot. rewrite <- Hk. now apply in_map.
  - now apply IH.
Qed.

Lemma dict_wf_filter (f : pystr * V -> bool) d :
  dict_wf d -> dict_wf (filter f d).
Proof.
  unfold dict_wf. induction d as [|x d IH]; simpl; intros H; [assumption|].
  inversion H as [|? ? Hnot Hnd]; subst.
  destruct (f x); simpl; [|now apply IH].
  constructor; [|now apply IH].
  intros Hin. apply Hnot. apply in_map_iff in Hin as [y [Hy Hiny]].
  apply filter_In in Hiny as [Hiny _]. rewrite <- Hy. now apply in_map.
Qed.

(** Deleting the keys of the items that satisfy [p] removes exactly those
    items. *)
Lemma filter_del_selected (p : pystr * V -> bool) d :
  dict_wf d ->
  filter (fun kv => negb (key_in (map fst (filter p d)) kv)) d
  = filter (fun kv => negb (p kv)) d.
Proof.
  intros Hwf. apply filter_ext_in. intros kv Hkv. f_equal.
  destruct (p kv) eqn:Hp.
  - apply key_in_In. apply in_map. apply filter_In. now split.
  - destruct (key_in _ kv) eqn:Hk; [|reflexivity].
    apply key_in_In in Hk. apply in_map_iff in Hk as [kv' [Hfst Hin]].
    apply filter_In in Hin as [Hin Hp'].
    assert (kv' = kv) by now apply (dict_wf_item_eq d).
    congruence.
Qed.

Lemma filter_perm (f : pystr * V -> bool) (l l' : list (pystr * V)) :
  Permutation l l' -> Permutation (filter f l) (filter f l').
Proof.
  induction 1 as [|x l l' _ IH|x y l|l l' l'' _ IH1 _ IH2]; simpl.
  - constructor.
  - destruct (f x); [now constructor|assumption].
  - destruct (f x), (f y); try apply Permutation_refl; apply perm_swap.
  - now transitivity (filter f l').
Qed.

Lemma filter_all_deleted (keys : list pystr) (l : list (pystr * V)) :
  (forall kv, In kv l -> key_in keys kv = true) ->
  filter (fun kv => negb (key_in keys kv)) l = [].
Proof.
  induction l as [|x l IH]; simpl; intros H; [reflexivity|].
  rewrite (H x (or_introl eq_refl)). simpl. apply IH.
  intros kv Hkv. apply H. now right.
Qed.

(** When the items split into victims and survivors, deleting the keys of
    the victims leaves the survivors. *)
Lemma del_victims_perm d (victims survivors : list (pystr * V)) :
  dict_wf d ->
  Permutation d (victims ++ survivors) ->
  Permutation (filter (fun kv => negb (key_in (map fst victims) kv)) d)
              survivors.
Proof.
  intros Hwf Hperm.
  assert (Hwf' : dict_wf (victims ++ survivors)).
  { unfold dict_wf in *. eapply Permutation_NoDup; [|exact Hwf].
    now apply Permutation_map. }
  etransitivity; [apply filter_perm; exact Hperm|].
  rewrite filter_app.
  replace (filter _ victims) with (@nil (pystr * V)).
  - simpl. replace (filter _ survivors) with survivors; [reflexivity|].
    symmetry. apply forallb_filter_id. apply forallb_forall.
    intros kv Hkv. apply negb_true_iff.
    destruct (key_in (map fst victims) kv) eqn:Hk; [|reflexivity].
    exfalso. apply key_in_In in Hk. apply in_map_iff in Hk as [kv' [Hf Hin]].
    unfold dict_wf in Hwf'. rewrite map_app in Hwf'.
    apply NoDup_app_remove_l in Hwf' as Hs.
    clear - Hwf' Hf Hin Hkv.
    induction victims as [|v vs IH]; simpl in *; [contradiction|].
    inversion Hwf' as [|? ? Hnot Hnd]; subst.
    destruct Hin as [->|Hin].
    + apply Hnot. apply in_or_app. right. rewrite Hf. now apply in_map.
    + now apply IH.
  - symmetry. apply filter_all_deleted.
    intros kv Hkv. apply key_in_In. now apply in_map.
Qed.
End DictFacts.

(* ------------------------------------------------------------------ *)
(** * The cache: [clean_cache] *)

Lemma insert_by_timestamp_perm x l :
  Permutation (insert_by_timestamp x l) (x :: l).
Proof.
  induction l as [|y l IH]; simpl; [reflexivity|].
  destruct (_ <=? _); [reflexivity|].
  rewrite IH. apply perm_swap.
Qed.

Lemma sorted_by_timestamp_perm l : Permutation (sorted_by_timestamp l) l.
Proof.
  induction l as [|x l IH]; simpl; [reflexivity|].
  rewrite insert_by_timestamp_perm. now constructor.
Qed.

Lemma insert_by_timestamp_sorted x l :
  StronglySorted older_eq l -> StronglySorted older_eq (insert_by_timestamp x l).
Proof.
  induction 1 as [|y l Hs IH Hall]; simpl.
  - constructor; constructor.
  - destruct (timestamp (snd x) <=? timestamp (snd y)) eqn:E.
    + apply Z.leb_le in E. constructor; [now constructor|].
      constructor; [exact E|].
      eapply Forall_impl; [|exact Hall]. unfold older_eq in *. intros; lia.
    + apply Z.leb_gt in E. constructor; [exact IH|].
      eapply Permutation_Forall; [symmetry; apply insert_by_timestamp_perm|].
      constructor; [unfold older_eq; lia|exact Hall].
Qed.

Lemma sorted_by_timestamp_sorted l :
  StronglySorted older_eq (sorted_by_timestamp l).
Proof.
  induction l as [|x l IH]; simpl; [constructor|].
  now apply insert_by_timestamp_sorted.
Qed.

Lemma sorted_split_le (front back : list (pystr * cache_entry)) a b :
  StronglySorted older_eq (front ++ back) ->
  In a front -> In b back -> older_eq a b.
Proof.
  induction front as [|x front IH]; simpl; [contradiction|].
  intros Hs [->|Ha] Hb; inversion Hs as [|? ? Hs' Hall]; subst.
  - rewrite Forall_forall in Hall. apply Hall, in_or_app. now right.
  - now apply IH.
Qed.

Lemma purge_expired now (c : cache) :
  dict_wf c ->
  fold_left (fun d key => dict_del key d) (map fst (filter (expired now) c)) c
  = fresh now c.
Proof.
  intros Hwf. rewrite fold_dict_del. now apply filter_del_selected.
Qed.

Lemma clean_cache_at_small now (c : cache) :
  dict_wf c ->
  (List.length (fresh now c) <= cache_max_size)%nat ->
  clean_cache_at now c = fresh now c.
Proof.
  intros Hwf Hlen. unfold clean_cache_at. rewrite purge_expired by assumption.
  destruct (Nat.ltb_spec cache_max_size (List.length (fresh now c)));
    [lia|reflexivity].
Qed.

Lemma clean_cache_at_large now (c : cache) :
  dict_wf c ->
  (cache_max_size < List.length (fresh now c))%nat ->
  let sorted_items := sorted_by_timestamp (fresh now c) in
  let n := (List.length sorted_items - cache_max_size)%nat in
  clean_cache_at now c
  = filter (fun kv => negb (key_in (map fst (firstn n sorted_items)) kv))
      (fresh now c)
  /\ Permutation (clean_cache_at now c) (skipn n sorted_items).
Proof.
  intros Hwf Hlen. cbv zeta. unfold clean_cache_at.
  rewrite purge_expired by assumption.
  destruct (Nat.ltb_spec cache_max_size (List.length (fresh now c))); [|lia].
  rewrite fold_dict_del_items. split; [reflexivity|].
  apply del_victims_perm.
  - now apply dict_wf_filter.
  - rewrite firstn_skipn. symmetry. apply sorted_by_timestamp_perm.
Qed.

Lemma clean_cache_at_fresh now (c : cache) :
  dict_wf c -> incl (clean_cache_at now c) (fresh now c).
Proof.
  intros Hwf kv Hin.
  destruct (Nat.leb_spec (List.length (fresh now c)) cache_max_size).
  - now rewrite clean_cache_at_small in Hin.
  - destruct (clean_cache_at_large now c Hwf) as [Heq _]; [assumption|].
    rewrite Heq in Hin. now apply filter_In in Hin as [Hin _].
Qed.

Lemma clean_cache_at_wf now (c : cache) :
  dict_wf c -> dict_wf (clean_cache_at now c).
Proof.
  intros Hwf.
  destruct (Nat.leb_spec (List.length (fresh now c)) cache_max_size).
  - rewrite clean_cache_at_small by assumption. now apply dict_wf_filter.
  - destruct (clean_cache_at_large now c Hwf) as [Heq _]; [assumption|].
    rewrite Heq. now apply dict_wf_filter, dict_wf_filter.
Qed.

Lemma clean_cache_run clock (st : State) :
  clean_cache clock st
  = (Ok tt,
     with_cache (clean_cache_at (clock (clock_reads st)) (intent_cache st))
       (with_reads (S (clock_reads st)) st)).
Proof. reflexivity. Qed.

(** C4. [clean_cache] first removes every entry older than 600 seconds (the
    entries left are [fresh]); then, if more than 100 entries remain, it
    deletes oldest-timestamp entries (every deleted entry is at most as
    recent as every kept one) until exactly 100 remain; so after
    [clean_cache] the cache holds at most 100 entries. *)
Theorem clean_cache_purges_and_bounds clock (st : State) :
  dict_wf (intent_cache st) ->
  let now := clock (clock_reads st) in
  let remaining := fresh now (intent_cache st) in
  let after := intent_cache (snd (clean_cache clock st)) in
  fst (clean_cache clock st) = Ok tt
  /\ (forall kv, In kv remaining <->
                 In kv (intent_cache st) /\ ~ now - timestamp (snd kv) > 600)
  /\ ((List.length remaining <= 100)%nat -> after = remaining)
  /\ ((100 < List.length remaining)%nat ->
        List.length after = 100%nat
        /\ incl after remaining
        /\ forall evicted kept,
             In evicted remaining -> ~ In evicted after -> In kept after ->
             timestamp (snd evicted) <= timestamp (snd kept))
  /\ (List.length after <= 100)%nat.
Proof.
  intros Hwf now remaining after. rewrite clean_cache_run in *.
  subst after. simpl. fold now. fold remaining.
  assert (Hsmall : (List.length remaining <= 100)%nat ->
                   clean_cache_at now (intent_cache st) = remaining)
    by (intros; now apply clean_cache_at_small).
  assert (Hlarge : (100 < List.length remaining)%nat ->
            List.length (clean_cache_at now (intent_cache st)) = 100%nat
            /\ incl (clean_cache_at now (intent_cache st)) remaining
            /\ forall evicted kept,
                In evicted remaining ->
                ~ In evicted (clean_cache_at now (intent_cache st)) ->
                In kept (clean_cache_at now (intent_cache st)) ->
                timestamp (snd evicted) <= timestamp (snd kept)).
  { intros Hlen.
    destruct (clean_cache_at_large now (intent_cache st) Hwf Hlen)
      as [_ Hperm].
    fold remaining in Hperm.
    set (sorted_items := sorted_by_timestamp remaining) in *.
    set (n := (List.length sorted_items - cache_max_size)%nat) in *.
    assert (Hsl : List.length sorted_items = List.length remaining)
      by (apply Permutation_length, sorted_by_timestamp_perm).
    split; [|split].
    - rewrite (Permutation_length Hperm), length_skipn.
      unfold n, cache_max_size in *. lia.
    - now apply clean_cache_at_fresh.
    - intros evicted kept He Hne Hk.
      apply (sorted_split_le (firstn n sorted_items) (skipn n sorted_items)).
      + rewrite firstn_skipn. apply sorted_by_timestamp_sorted.
      + assert (Hin : In evicted (firstn n sorted_items ++ skipn n sorted_items)).
        { rewrite firstn_skipn.
          eapply Permutation_in; [symmetry; apply sorted_by_timestamp_perm|].
          exact He. }
        apply in_app_or in Hin as [Hin|Hin]; [assumption|].
        exfalso. apply Hne.
        eapply Permutation_in; [symmetry; exact Hperm|exact Hin].
      + eapply Permutation_in; [exact Hperm|exact Hk]. }
  split; [reflexivity|]. split; [|split; [assumption|split; [assumption|]]].
  - intros kv. unfold remaining, fresh. rewrite filter_In.
    unfold expired, cache_expiry. rewrite negb_true_iff, Z.gtb_ltb, Z.ltb_ge.
    split; intros [H1 H2]; (split; [assumption|lia]).
  - destruct (Nat.leb_spec (List.length remaining) 100) as [Hle|Hgt].
    + rewrite Hsmall by assumption. exact Hle.
    + destruct (Hlarge Hgt) as [-> _]. lia.
Qed.

(* ------------------------------------------------------------------ *)
(** * Running [detect_intent] *)

Section DetectFacts.
Context {FM : FloatModel}.
Variable clock : nat -> Z.
Variable decode : pystr -> result json.

Lemma detect_without_llm conn text st :
  llm st = None ->
  detect_intent_with clock decode conn text st
  = (Err (ValueError (lit "LLM provider not set")), st).
Proof. intros H. unfold detect_intent_with. now rewrite H. Qed.

Lemma detect_with_llm conn text st client key :
  llm st = Some client ->
  cache_key_of text = Ok key ->
  detect_intent_with clock decode conn text st
  = match lookup clock key (with_reads (S (clock_reads st)) st) with
    | (Ok (Some cached), st1) => (Ok cached, st1)
    | (Ok None, st1) => miss_path clock decode conn client key text st1
    | (Err e, st1) => (Err e, st1)
    end.
Proof.
  intros Hllm Hkey. unfold detect_intent_with. rewrite Hllm.
  unfold bind at 1. unfold time_time at 1.
  unfold bind at 1. unfold lift at 1. rewrite Hkey.
  unfold bind at 1.
  destruct (lookup clock key _) as [[[cached|]|e] st1]; reflexivity.
Qed.

Lemma detect_encode_error conn text st client e :
  llm st = Some client ->
  cache_key_of text = Err e ->
  detect_intent_with clock decode conn text st
  = (Err e, with_reads (S (clock_reads st)) st).
Proof.
  intros Hllm Hkey. unfold detect_intent_with. rewrite Hllm.
  unfold bind at 1. unfold time_time at 1.
  unfold bind at 1. unfold lift at 1. now rewrite Hkey.
Qed.

Lemma lookup_absent key st :
  dict_get key (intent_cache st) = None ->
  lookup clock key st = (Ok None, st).
Proof.
  intros H. unfold lookup, bind, get_cache. now rewrite H.
Qed.

Lemma lookup_fresh key st e :
  dict_get key (intent_cache st) = Some e ->
  clock (clock_reads st) - timestamp e <= cache_expiry ->
  lookup clock key st
  = (Ok (Some (intent e)), with_reads (2 + clock_reads st) st).
Proof.
  intros H Hage. unfold lookup, bind, get_cache. rewrite H.
  unfold time_time at 1. cbn [clock_reads with_reads].
  apply Z.leb_le in Hage. now rewrite Hage.
Qed.

Lemma lookup_expired key st e :
  dict_get key (intent_cache st) = Some e ->
  cache_expiry < clock (clock_reads st) - timestamp e ->
  lookup clock key st = (Ok None, with_reads (1 + clock_reads st) st).
Proof.
  intros H Hage. unfold lookup, bind, get_cache. rewrite H.
  unfold time_time at 1. cbn [clock_reads with_reads].
  apply Z.leb_gt in Hage. now rewrite Hage.
Qed.

(** What a lookup can do: it keeps the cache and the call log. *)
Lemma lookup_keeps key st r st1 :
  lookup clock key st = (r, st1) ->
  intent_cache st1 = intent_cache st /\ llm_calls st1 = llm_calls st
  /\ llm st1 = llm st /\ (clock_reads st <= clock_reads st1)%nat.
Proof.
  unfold lookup, bind, get_cache.
  destruct (dict_get key (intent_cache st)) as [e|].
  - unfold time_time at 1. cbn [clock_reads with_reads].
    destruct (_ <=? _); intros H; injection H as <- <-; cbn; repeat split; lia.
  - intros H; injection H as <- <-; repeat split; lia.
Qed.

Lemma miss_path_run conn client key text st prompt raw :
  build_system_prompt conn = Ok prompt ->
  response_no_stream client (List.length (llm_calls st)) prompt text = Ok raw ->
  miss_path clock decode conn client key text st
  = postprocess clock decode key raw (after_llm clock st prompt text).
Proof.
  intros Hp Hr. unfold miss_path.
  unfold bind at 1. rewrite clean_cache_run.
  unfold bind at 1. unfold lift at 1. rewrite Hp.
  unfold bind at 1. unfold time_time at 1.
  unfold bind at 1. unfold time_time at 1.
  unfold bind at 1. unfold call_llm at 1.
  cbn [llm_calls with_reads with_cache]. rewrite Hr.
  unfold bind at 1. unfold time_time at 1.
  unfold bind at 1. unfold time_time at 1.
  reflexivity.
Qed.

(** Before the answer of the LLM is there, a failure of a collaborator ends
    the call with the cache as [clean_cache] left it. *)
Lemma miss_path_cache conn client key text st r st' :
  miss_path clock decode conn client key text st = (r, st') ->
  intent_cache st'
  = clean_cache_at (clock (clock_reads st)) (intent_cache st)
  \/ exists i t,
       intent_cache st'
       = dict_set key {| intent := i; timestamp := t |}
           (clean_cache_at (clock (clock_reads st)) (intent_cache st))
       /\ r = Ok i
       /\ t = clock (5 + clock_reads st)%nat.
Proof.
  unfold miss_path.
  unfold bind at 1. rewrite clean_cache_run.
  unfold bind at 1. unfold lift at 1.
  destruct (build_system_prompt conn) as [prompt|e];
    [|intros H; injection H as <- <-; now left].
  unfold bind at 1. unfold time_time at 1.
  unfold bind at 1. unfold time_time at 1.
  unfold bind at 1. unfold call_llm at 1.
  cbn [llm_calls with_reads with_cache clock_reads].
  destruct (response_no_stream client _ prompt text) as [raw|e];
    [|intros H; injection H as <- <-; now left].
  unfold bind at 1. unfold time_time at 1.
  unfold bind at 1. unfold time_time at 1.
  cbn [llm_calls with_reads with_cache with_calls clock_reads intent_cache llm].
  unfold postprocess. unfold bind at 1. unfold lift at 1.
  destruct (parse_text (strip raw)) as [parsed|e];
    [|intros H; injection H as <- <-; now left].
  destruct (decode _) as [data|e].
  - unfold bind at 1. unfold lift at 1.
    destruct (py_in _ data) as [[|]|e];
      [| |intros H; injection H as <- <-; now left].
    + unfold bind at 1. unfold lift at 1.
      destruct (py_getitem _ data) as [fd|e];
        [|intros H; injection H as <- <-; now left].
      unfold bind at 1. unfold lift at 1.
      destruct (py_get _ JNull fd) as [?|e];
        [|intros H; injection H as <- <-; now left].
      unfold bind at 1. unfold lift at 1.
      destruct (py_get _ _ fd) as [?|e];
        [|intros H; injection H as <- <-; now left].
      intros H; injection H as <- <-. right. eexists _, _.
      cbn. repeat split.
    + intros H; injection H as <- <-. right. eexists _, _.
      cbn. repeat split.
  - destruct e; intros H; injection H as <- <-; now left.
Qed.

End DetectFacts.

(* ------------------------------------------------------------------ *)
(** * The claims on [detect_intent]: configuration and cache hits *)

Section Claims.
Context {FM : FloatModel}.
Variable clock : nat -> Z.

(** C7. When no LLM client is configured ([self.llm] is [None]),
    [detect_intent] raises the configuration error of the source,
    [ValueError("LLM provider not set")], for every input, before anything
    else happens: the state after the call is the state before it, so the
    cache is unchanged, the clock has not been read and the LLM has not
    been invoked. *)
Theorem detect_intent_requires_llm conn text st :
  llm st = None ->
  detect_intent clock conn text st
  = (Err (ValueError (lit "LLM provider not set")), st).
Proof. apply detect_without_llm. Qed.

(** An absent key is a miss: the call continues with [miss_path]. *)
Lemma detect_intent_absent_key conn text st client key :
  llm st = Some client ->
  cache_key_of text = Ok key ->
  dict_get key (intent_cache st) = None ->
  detect_intent clock conn text st
  = miss_path clock json_loads conn client key text
      (with_reads (1 + clock_reads st) st).
Proof.
  intros Hllm Hkey Habs. unfold detect_intent.
  rewrite (detect_with_llm _ _ _ _ _ _ _ Hllm Hkey).
  now rewrite lookup_absent.
Qed.

(** C1. With a client configured, for every text whose MD5 key is in the
    cache with an entry at most 600 seconds old (at the reading of the
    clock the lookup takes), [detect_intent] returns the cached intent
    string as it is, leaves the cache alone and does not invoke
    [response_no_stream]; when the entry is older than 600 seconds the
    call goes on as for a miss, with [miss_path]. *)
Theorem detect_intent_cache_hit conn text st client key e :
  llm st = Some client ->
  cache_key_of text = Ok key ->
  dict_get key (intent_cache st) = Some e ->
  let age := clock (S (clock_reads st)) - timestamp e in
  (age <= 600 ->
     exists st',
       detect_intent clock conn text st = (Ok (intent e), st')
       /\ intent_cache st' = intent_cache st
       /\ llm_calls st' = llm_calls st)
  /\ (600 < age ->
        detect_intent clock conn text st
        = miss_path clock json_loads conn client key text
            (with_reads (2 + clock_reads st) st)).
Proof.
  intros Hllm Hkey Hget age. unfold detect_intent.
  rewrite (detect_with_llm _ _ _ _ _ _ _ Hllm Hkey). split; intros Hage.
  - rewrite (lookup_fresh _ _ _ e) by assumption.
    eexists. split; [reflexivity|]. split; reflexivity.
  - now rewrite (lookup_expired _ _ _ e) by assumption.
Qed.

End Claims.


(* ------------------------------------------------------------------ *)
(** * [json.loads] reads back what [json.dumps] writes *)

Local Open Scope N_scope.

(** * Strings written by [encode_basestring] are read back by [scanstring] *)

Ltac neqb :=
  repeat match goal with
  | |- context [N.eqb ?a ?b] => destruct (N.eqb_spec a b); try lia
  | |- context [N.leb ?a ?b] => destruct (N.leb_spec a b); try lia
  | |- context [N.ltb ?a ?b] => destruct (N.ltb_spec a b); try lia
  end.

Lemma scanstring_plain c r :
  c <> 34 -> c <> 92 -> 32 <= c ->
  scanstring (c :: r) = push c (scanstring r).
Proof. intros. cbn [scanstring]. neqb. reflexivity. Qed.

Lemma scanstring_u00 h1 h2 r u :
  hex4 48 48 h1 h2 = Some u -> is_high_surrogate u = false ->
  scanstring (92 :: 117 :: 48 :: 48 :: h1 :: h2 :: r) = push u (scanstring r).
Proof.
  intros Hh Hs. cbn [scanstring]. cbn [N.eqb Pos.eqb]. rewrite Hh.
  destruct r as [|b [|u' [|g1 [|g2 [|g3 [|g4 r3]]]]]]; try reflexivity.
  now rewrite Hs.
Qed.

Lemma hex_val_lower x : x < 16 -> hex_val (hex_lower x) = Some x.
Proof.
  intros H. unfold hex_lower, hex_val, is_digit.
  destruct (N.ltb_spec x 10).
  - replace ((48 <=? 48 + x) && (48 + x <=? 57)) with true
      by (symmetry; apply andb_true_iff; split; apply N.leb_le; lia).
    f_equal. lia.
  - replace ((48 <=? 87 + x) && (87 + x <=? 57)) with false
      by (symmetry; apply andb_false_iff; right; apply N.leb_gt; lia).
    replace ((97 <=? 87 + x) && (87 + x <=? 102)) with true
      by (symmetry; apply andb_true_iff; split; apply N.leb_le; lia).
    f_equal. lia.
Qed.

Lemma scanstring_escape_char c r :
  scanstring (escape_char c ++ r) = push c (scanstring r).
Proof.
  unfold escape_char.
  destruct (N.eqb_spec c 34) as [->|H34]; [reflexivity|].
  destruct (N.eqb_spec c 92) as [->|H92]; [reflexivity|].
  destruct (N.eqb_spec c 10) as [->|H10]; [reflexivity|].
  destruct (N.eqb_spec c 13) as [->|H13]; [reflexivity|].
  destruct (N.eqb_spec c 9) as [->|H9]; [reflexivity|].
  destruct (N.eqb_spec c 8) as [->|H8]; [reflexivity|].
  destruct (N.eqb_spec c 12) as [->|H12]; [reflexivity|].
  destruct (N.ltb_spec c 32) as [Hlt|Hge].
  - cbn [app]. apply scanstring_u00.
    + assert (Hz : hex_val 48 = Some 0) by reflexivity.
      assert (c / 16 < 16) by (apply N.Div0.div_lt_upper_bound; lia).
      assert (c mod 16 < 16) by (apply N.mod_lt; lia).
      unfold hex4. rewrite Hz, !hex_val_lower by assumption.
      f_equal. pose proof (N.div_mod c 16). lia.
    + unfold is_high_surrogate. apply andb_false_iff. left.
      apply N.leb_gt. lia.
  - cbn [app]. now apply scanstring_plain.
Qed.

Lemma scanstring_encoded s rest :
  scanstring (flat_map escape_char s ++ 34 :: rest) = Ok (s, rest).
Proof.
  induction s as [|c s IH]; [reflexivity|].
  cbn [flat_map]. rewrite <- app_assoc, scanstring_escape_char, IH.
  reflexivity.
Qed.

(** * Numbers *)

Lemma ends_number_cases rest :
  ends_number rest = true ->
  rest = [] \/ exists c r, rest = c :: r /\ is_digit c = false
                           /\ c <> 46 /\ c <> 101 /\ c <> 69.
Proof.
  destruct rest as [|c r]; [now left|]. cbn. intros H. right. exists c, r.
  apply negb_true_iff in H. apply orb_false_iff in H as [H H69].
  apply orb_false_iff in H as [H H101]. apply orb_false_iff in H as [H H46].
  apply N.eqb_neq in H46, H101, H69. now repeat split.
Qed.

Lemma span_digits_app s d t rest :
  span_digits s = (d, t) ->
  (t = [] -> ends_number rest = true) ->
  span_digits (s ++ rest) = (d, t ++ rest).
Proof.
  revert d t. induction s as [|c s IH]; intros d t H Hr.
  - cbn in H. injection H as <- <-. cbn [app].
    destruct (ends_number_cases rest (Hr eq_refl)) as [->|(c & r & -> & Hd & _)];
      [reflexivity|]. cbn. now rewrite Hd.
  - cbn in H |- *. destruct (is_digit c).
    + destruct (span_digits s) as [d' t'] eqn:E. injection H as <- <-.
      now rewrite (IH d' t' eq_refl Hr).
    + now injection H as <- <-.
Qed.

Lemma span_digits_all ds rest :
  forallb is_digit ds = true -> ends_number rest = true ->
  span_digits (ds ++ rest) = (ds, rest).
Proof.
  intros Hd Hr. induction ds as [|c ds IH].
  - now apply (span_digits_app [] [] []).
  - cbn in Hd |- *. apply andb_true_iff in Hd as [Hc Hd]. rewrite Hc.
    now rewrite IH.
Qed.

Lemma scan_exp_none rest : ends_number rest = true -> scan_exp rest = ([], rest).
Proof.
  intros H. destruct (ends_number_cases rest H) as [->|(c & r & -> & _ & _ & He & HE)];
    [reflexivity|].
  cbn. apply N.eqb_neq in He, HE. now rewrite He, HE.
Qed.

Lemma scan_frac_none rest : ends_number rest = true -> scan_frac rest = ([], rest).
Proof.
  intros H. destruct (ends_number_cases rest H) as [->|(c & r & -> & _ & Hp & _)];
    [reflexivity|].
  cbn. apply N.eqb_neq in Hp. now rewrite Hp.
Qed.

Lemma scan_exp_app s ex rest :
  scan_exp s = (ex, []) -> ends_number rest = true ->
  scan_exp (s ++ rest) = (ex, rest).
Proof.
  intros H Hr. destruct s as [|e r].
  - cbn in H. injection H as <-. now apply scan_exp_none.
  - cbn [app]. unfold scan_exp in *.
    destruct ((e =? 101) || (e =? 69)); [|discriminate].
    destruct r as [|x r'].
    + cbn in H. discriminate.
    + cbn [app]. destruct ((x =? 45) || (x =? 43)).
      * destruct (span_digits r') as [d t] eqn:E.
        destruct d as [|d0 d]; [discriminate|]. injection H as <- ->.
        now rewrite (span_digits_app r' (d0 :: d) [] rest E).
      * destruct (span_digits (x :: r')) as [d t] eqn:E.
        destruct d as [|d0 d]; [discriminate|]. injection H as <- ->.
        change (x :: r' ++ rest) with ((x :: r') ++ rest).
        now rewrite (span_digits_app (x :: r') (d0 :: d) [] rest E).
Qed.

Lemma scan_frac_app s fr s3 ex rest :
  scan_frac s = (fr, s3) -> scan_exp s3 = (ex, []) ->
  ends_number rest = true ->
  scan_frac (s ++ rest) = (fr, s3 ++ rest).
Proof.
  intros H He Hr. destruct s as [|p r].
  - cbn in H. injection H as <- <-. now apply scan_frac_none.
  - cbn [app]. unfold scan_frac in *.
    destruct (N.eqb_spec p 46) as [->|Hp].
    + destruct (span_digits r) as [d t] eqn:E.
      destruct d as [|d0 d].
      * injection H as <- <-. cbn in He. discriminate.
      * injection H as <- <-.
        rewrite (span_digits_app r (d0 :: d) t rest E); [reflexivity|].
        now intros _.
    + now injection H as <- <-.
Qed.

Lemma scan_int_app s i s2 rest :
  scan_int s = Some (i, s2) ->
  (s2 = [] -> ends_number rest = true) ->
  scan_int (s ++ rest) = Some (i, s2 ++ rest).
Proof.
  intros H Hr. unfold scan_int in *.
  assert (Hbody : forall sign s1,
    match s1 with
    | [] => None
    | c :: r =>
        if (49 <=? c) && (c <=? 57)
        then let '(d, t) := span_digits r in Some (sign ++ c :: d, t)
        else if c =? 48 then Some (sign ++ [48], r) else None
    end = Some (i, s2) ->
    match s1 ++ rest with
    | [] => None
    | c :: r =>
        if (49 <=? c) && (c <=? 57)
        then let '(d, t) := span_digits r in Some (sign ++ c :: d, t)
        else if c =? 48 then Some (sign ++ [48], r) else None
    end = Some (i, s2 ++ rest)).
  { intros sign [|c r] Hb; [discriminate|]. cbn [app].
    destruct ((49 <=? c) && (c <=? 57)).
    - destruct (span_digits r) as [d t] eqn:E. injection Hb as <- <-.
      now rewrite (span_digits_app r d t rest E Hr).
    - destruct (c =? 48); [|discriminate]. now injection Hb as <- <-. }
  destruct s as [|c r]; [discriminate|]. cbn [app].
  destruct (c =? 45).
  - now apply Hbody.
  - now apply (Hbody [] (c :: r)).
Qed.

Lemma match_number_app s i fr ex rest :
  match_number s = Some (i, fr, ex, []) ->
  ends_number rest = true ->
  match_number (s ++ rest) = Some (i, fr, ex, rest).
Proof.
  unfold match_number. intros H Hr.
  destruct (scan_int s) as [[i' s2]|] eqn:Ei; [|discriminate].
  destruct (scan_frac s2) as [fr' s3] eqn:Ef.
  destruct (scan_exp s3) as [ex' s4] eqn:Ee.
  injection H as -> -> -> ->.
  assert (Hs3 : s3 = [] -> ends_number rest = true) by auto.
  rewrite (scan_int_app s i s2 rest Ei).
  - rewrite (scan_frac_app s2 fr s3 ex rest Ef Ee Hr).
    now rewrite (scan_exp_app s3 ex rest Ee Hr).
  - auto.
Qed.

Lemma digit_of_mod n : (0 <= n)%Z -> is_digit (Z.to_N (48 + n mod 10)) = true.
Proof.
  intros H. pose proof (Z.mod_pos_bound n 10 ltac:(lia)).
  unfold is_digit. apply andb_true_iff. split; apply N.leb_le; lia.
Qed.

(** [digits_of] writes the decimal digits of [n] in front of [acc]: at least
    one digit, and no leading zero unless [n] is zero. *)
Lemma digits_of_shape fuel n acc :
  (0 <= n < 2 ^ Z.of_nat (S fuel))%Z ->
  exists d ds,
    digits_of (S fuel) n acc = d :: ds ++ acc
    /\ is_digit d = true /\ forallb is_digit ds = true
    /\ ((0 < n)%Z -> d <> 48) /\ (n = 0%Z -> d = 48 /\ ds = []).
Proof.
  revert n acc. induction fuel as [|fuel IH]; intros n acc Hn.
  - assert (n < 10)%Z as Hlt by (change (2 ^ Z.of_nat 1)%Z with 2%Z in Hn; lia).
    cbn [digits_of]. apply Z.ltb_lt in Hlt as Hb. rewrite Hb.
    exists (Z.to_N (48 + n mod 10)), []. repeat split.
    + apply digit_of_mod; lia.
    + rewrite Z.mod_small by lia. lia.
    + subst. reflexivity.
  - change (digits_of (S (S fuel)) n acc)
      with (let acc' := Z.to_N (48 + n mod 10) :: acc in
            if (n <? 10)%Z then acc' else digits_of (S fuel) (n / 10) acc').
    cbv zeta. destruct (Z.ltb_spec n 10) as [Hlt|Hge].
    + exists (Z.to_N (48 + n mod 10)), []. repeat split.
      * apply digit_of_mod; lia.
      * rewrite Z.mod_small by lia. lia.
      * subst. reflexivity.
    + assert (Hq : (0 <= n / 10 < 2 ^ Z.of_nat (S fuel))%Z).
      { split; [apply Z.div_pos; lia|].
        apply Z.div_lt_upper_bound; [lia|].
        rewrite Nat2Z.inj_succ, Z.pow_succ_r in Hn by lia. lia. }
      destruct (IH (n / 10)%Z (Z.to_N (48 + n mod 10) :: acc) Hq)
        as (d & ds & Heq & Hd & Hds & Hnz & _).
      exists d, (ds ++ [Z.to_N (48 + n mod 10)]). repeat split.
      * rewrite Heq, <- app_assoc. reflexivity.
      * assumption.
      * rewrite forallb_app, Hds. cbn [forallb andb]. rewrite digit_of_mod by lia. reflexivity.
      * intros _. apply Hnz. apply Z.div_str_pos. lia.
      * lia.
      * lia.
Qed.

Lemma log2_fuel n :
  (0 <= n)%Z -> (0 <= n < 2 ^ Z.of_nat (S (Z.to_nat (Z.log2 n))))%Z.
Proof.
  intros H. split; [assumption|].
  rewrite Nat2Z.inj_succ, Z2Nat.id by apply Z.log2_nonneg.
  destruct (Z.eq_dec n 0) as [->|Hn]; [reflexivity|].
  apply Z.log2_spec. lia.
Qed.

(** The shape of [int.__repr__]. *)
Lemma repr_int_shape n :
  exists sign d ds,
    repr_int n = sign ++ d :: ds
    /\ (sign = [] \/ sign = [45])
    /\ is_digit d = true /\ forallb is_digit ds = true
    /\ (d = 48 -> ds = []).
Proof.
  unfold repr_int. destruct (Z.ltb_spec n 0) as [Hneg|Hpos].
  - destruct (digits_of_shape _ (- n)%Z [] (log2_fuel (- n) ltac:(lia)))
      as (d & ds & Heq & Hd & Hds & Hnz & _).
    exists [45], d, ds. rewrite Heq, app_nil_r. repeat split; auto.
    intros ->. exfalso. apply Hnz; lia.
  - destruct (digits_of_shape _ n [] (log2_fuel n Hpos))
      as (d & ds & Heq & Hd & Hds & Hnz & Hz).
    exists [], d, ds. rewrite Heq, app_nil_r. repeat split; auto.
    intros ->. destruct (Z.eq_dec n 0) as [->|Hn]; [now apply Hz|].
    exfalso. apply Hnz; lia.
Qed.

Lemma scan_int_digits sign d ds rest :
  (sign = [] \/ sign = [45]) ->
  is_digit d = true -> forallb is_digit ds = true -> (d = 48 -> ds = []) ->
  ends_number rest = true ->
  scan_int ((sign ++ d :: ds) ++ rest) = Some (sign ++ d :: ds, rest).
Proof.
  intros Hs Hd Hds Hz Hr.
  assert (Hd' := Hd). unfold is_digit in Hd'.
  apply andb_true_iff in Hd' as [H1 H2]. apply N.leb_le in H1, H2.
  assert (Hbody : forall sg,
    match (d :: ds) ++ rest with
    | [] => None
    | c :: r =>
        if (49 <=? c) && (c <=? 57)
        then let '(d, t) := span_digits r in Some (sg ++ c :: d, t)
        else if c =? 48 then Some (sg ++ [48], r) else None
    end = Some (sg ++ d :: ds, rest)).
  { intros sg. cbn [app]. destruct (N.eq_dec d 48) as [->|Hne].
    - rewrite (Hz eq_refl). reflexivity.
    - replace ((49 <=? d) && (d <=? 57)) with true
        by (symmetry; apply andb_true_iff; split; apply N.leb_le; lia).
      now rewrite span_digits_all. }
  unfold scan_int. destruct Hs as [->| ->].
  - cbn [app]. destruct (N.eqb_spec d 45); [lia|]. apply (Hbody []).
  - cbn [app]. change (45 =? 45) with true. cbv iota. apply (Hbody [45]).
Qed.

Lemma match_number_repr_int n rest :
  ends_number rest = true ->
  match_number (repr_int n ++ rest) = Some (repr_int n, [], [], rest).
Proof.
  intros Hr. destruct (repr_int_shape n) as (sign & d & ds & -> & Hs & Hd & Hds & Hz).
  unfold match_number. rewrite scan_int_digits by assumption.
  now rewrite scan_frac_none, scan_exp_none.
Qed.

Section Roundtrip.
Context {FM : FloatModel}.

Lemma scan_int_head s p :
  scan_int s = Some p ->
  exists c r, s = c :: r
    /\ (is_digit c = true
        \/ (c = 45 /\ exists d r', r = d :: r' /\ is_digit d = true)).
Proof.
  unfold scan_int. intros H.
  assert (Hbody : forall sign s1,
    match s1 with
    | [] => None
    | c :: r =>
        if (49 <=? c) && (c <=? 57)
        then let '(d, t) := span_digits r in Some (sign ++ c :: d, t)
        else if c =? 48 then Some (sign ++ [48], r) else None
    end = Some p -> exists d r', s1 = d :: r' /\ is_digit d = true).
  { intros sign [|c r] Hb; [discriminate|]. exists c, r. split; [reflexivity|].
    destruct ((49 <=? c) && (c <=? 57)) eqn:E.
    - apply andb_true_iff in E as [E1 E2]. apply N.leb_le in E1, E2.
      unfold is_digit. apply andb_true_iff; split; apply N.leb_le; lia.
    - destruct (N.eqb_spec c 48) as [->|]; [reflexivity|discriminate]. }
  destruct s as [|c r]; [discriminate|]. exists c, r. split; [reflexivity|].
  destruct (N.eqb_spec c 45) as [->|Hc].
  - right. split; [reflexivity|]. now apply (Hbody [45]).
  - left. destruct (Hbody [] (c :: r) H) as (d & r' & Heq & Hd).
    now injection Heq as -> ->.
Qed.

Lemma digit_bounds c : is_digit c = true -> 48 <= c <= 57.
Proof.
  unfold is_digit. intros H. apply andb_true_iff in H as [H1 H2].
  apply N.leb_le in H1, H2. lia.
Qed.

(** One step of the scanner, by the first character. *)
Lemma scan_once_string fuel r :
  scan_once (S fuel) (34 :: r)
  = rbind (scanstring r) (fun '(str, rest) => Ok (JStr str, rest)).
Proof. reflexivity. Qed.

Lemma scan_once_object fuel r :
  scan_once (S fuel) (123 :: r)
  = match skip_ws r with
    | c1 :: r1 =>
        if c1 =? 125 then Ok (JObj [], r1)
        else rbind (scan_members fuel (c1 :: r1))
               (fun '(pairs, rest) => Ok (JObj (dict_of_pairs pairs), rest))
    | [] => Err JSONDecodeError
    end.
Proof. reflexivity. Qed.

Lemma scan_once_array fuel r :
  scan_once (S fuel) (91 :: r)
  = match skip_ws r with
    | c1 :: r1 =>
        if c1 =? 93 then Ok (JArr [], r1)
        else rbind (scan_items fuel (c1 :: r1))
               (fun '(items, rest) => Ok (JArr items, rest))
    | [] => Err JSONDecodeError
    end.
Proof. reflexivity. Qed.

Lemma scan_once_atom fuel c r :
  c <> 34 -> c <> 123 -> c <> 91 ->
  scan_once (S fuel) (c :: r)
  = match strip_prefix (lit "null") (c :: r) with
    | Some rest => Ok (JNull, rest)
    | None =>
    match strip_prefix (lit "true") (c :: r) with
    | Some rest => Ok (JBool true, rest)
    | None =>
    match strip_prefix (lit "false") (c :: r) with
    | Some rest => Ok (JBool false, rest)
    | None =>
    match strip_prefix (lit "NaN") (c :: r) with
    | Some rest => Ok (JFloat float_nan, rest)
    | None =>
    match strip_prefix (lit "Infinity") (c :: r) with
    | Some rest => Ok (JFloat float_inf, rest)
    | None =>
    match strip_prefix (lit "-Infinity") (c :: r) with
    | Some rest => Ok (JFloat float_neg_inf, rest)
    | None =>
    match match_number (c :: r) with
    | Some (i, [], [], rest) => Ok (JInt (py_int i), rest)
    | Some (i, frac, ex, rest) =>
        Ok (JFloat (parse_float (i ++ frac ++ ex)), rest)
    | None => Err JSONDecodeError
    end end end end end end end.
Proof.
  intros H1 H2 H3. cbn [scan_once].
  apply N.eqb_neq in H1, H2, H3. now rewrite H1, H2, H3.
Qed.

Lemma scan_items_S fuel s :
  scan_items (S fuel) s
  = rbind (scan_once fuel s) (fun '(v, rest) =>
      match skip_ws rest with
      | c :: r =>
          if c =? 93 then Ok ([v], r)
          else if c =? 44 then
            rbind (scan_items fuel (skip_ws r))
              (fun '(vs, rest') => Ok (v :: vs, rest'))
          else Err JSONDecodeError
      | [] => Err JSONDecodeError
      end).
Proof. reflexivity. Qed.

Lemma scan_members_S fuel r0 :
  scan_members (S fuel) (34 :: r0)
  = rbind (scanstring r0) (fun '(key, r1) =>
      match skip_ws r1 with
      | c1 :: r2 =>
          if c1 =? 58 then
            rbind (scan_once fuel (skip_ws r2)) (fun '(v, r3) =>
              match skip_ws r3 with
              | c2 :: r4 =>
                  if c2 =? 125 then Ok ([(key, v)], r4)
                  else if c2 =? 44 then
                    rbind (scan_members fuel (skip_ws r4))
                      (fun '(ps, r5) => Ok ((key, v) :: ps, r5))
                  else Err JSONDecodeError
              | [] => Err JSONDecodeError
              end)
          else Err JSONDecodeError
      | [] => Err JSONDecodeError
      end).
Proof. reflexivity. Qed.

Lemma strip_prefix_miss a l c r :
  N_of_ascii a <> c -> strip_prefix (lit (String a l)) (c :: r) = None.
Proof.
  intros H. change (lit (String a l)) with (N_of_ascii a :: lit l).
  cbn [strip_prefix]. apply N.eqb_neq in H. now rewrite H.
Qed.

Lemma strip_prefix_miss2 a b l c d r :
  N_of_ascii b <> d -> strip_prefix (lit (String a (String b l))) (c :: d :: r) = None.
Proof.
  intros H. change (lit (String a (String b l)))
    with (N_of_ascii a :: N_of_ascii b :: lit l).
  cbn [strip_prefix]. apply N.eqb_neq in H. rewrite H.
  now destruct (N_of_ascii a =? c).
Qed.

Lemma scan_once_number fuel s i frac ex rest :
  match_number s = Some (i, frac, ex, rest) ->
  scan_once (S fuel) s = Ok (number_value i frac ex, rest).
Proof.
  intros H. assert (Hi : exists p, scan_int s = Some p).
  { unfold match_number in H. destruct (scan_int s); [eauto|discriminate]. }
  destruct Hi as [p Hi].
  destruct (scan_int_head s p Hi) as (c & r & -> & Hc).
  assert (Hfin :
    match match_number (c :: r) with
    | Some (i, [], [], rest) => Ok (JInt (py_int i), rest)
    | Some (i, frac, ex, rest) =>
        Ok (JFloat (parse_float (i ++ frac ++ ex)), rest)
    | None => Err JSONDecodeError
    end = Ok (number_value i frac ex, rest)).
  { rewrite H. unfold number_value. now destruct frac, ex. }
  destruct Hc as [Hd|[-> (d & r' & -> & Hd)]]; apply digit_bounds in Hd.
  - rewrite scan_once_atom by lia.
    rewrite !strip_prefix_miss by (cbv; lia). exact Hfin.
  - rewrite scan_once_atom by lia.
    rewrite !strip_prefix_miss by (cbv; lia).
    rewrite strip_prefix_miss2 by (cbv; lia). exact Hfin.
Qed.

(** Induction on JSON values, through the lists they nest. *)
Lemma json_nested_ind (P : json -> Prop) :
  P JNull -> (forall b, P (JBool b)) -> (forall n, P (JInt n)) ->
  (forall f, P (JFloat f)) -> (forall s, P (JStr s)) ->
  (forall l, Forall P l -> P (JArr l)) ->
  (forall d, Forall (fun kv => P (snd kv)) d -> P (JObj d)) ->
  forall v, P v.
Proof.
  intros Hn Hb Hi Hf Hs Ha Ho. fix IH 1.
  intros [|b|n|f|s|l|d];
    [exact Hn|apply Hb|apply Hi|apply Hf|apply Hs| |].
  - apply Ha. induction l as [|x l IHl]; constructor; [apply IH|exact IHl].
  - apply Ho. induction d as [|[k x] d IHd]; constructor; [apply IH|exact IHd].
Qed.

Lemma ends_value_number rest : ends_value rest = true -> ends_number rest = true.
Proof.
  destruct rest as [|c r]; [reflexivity|]. cbn. unfold is_digit. intros H.
  apply orb_true_iff in H as [H|H]; [apply orb_true_iff in H as [H|H]|];
    apply N.eqb_eq in H; subst; reflexivity.
Qed.

Lemma value_start_skip c r :
  value_start c = true ->
  skip_ws (c :: r) = c :: r /\ c <> 93 /\ c <> 125 /\ c <> 44.
Proof.
  unfold value_start, is_digit. intros H.
  assert (Hc : 48 <= c <= 57 \/ c = 34 \/ c = 123 \/ c = 91 \/ c = 110
               \/ c = 116 \/ c = 102 \/ c = 78 \/ c = 73 \/ c = 45).
  { repeat (apply orb_true_iff in H as [H|H]);
      try (apply N.eqb_eq in H; lia).
    apply andb_true_iff in H as [H1 H2]. apply N.leb_le in H1, H2. lia. }
  assert (Hw : is_ws c = false).
  { unfold is_ws. repeat (apply orb_false_iff; split); apply N.eqb_neq; lia. }
  cbn [skip_ws]. rewrite Hw. repeat split; lia.
Qed.

Lemma float_repr_cases f :
  float_literal (float_repr f) = true
  \/ float_repr f = lit "NaN" \/ float_repr f = lit "Infinity"
  \/ float_repr f = lit "-Infinity".
Proof.
  pose proof (float_repr_text f) as H. unfold float_text in H.
  repeat (apply orb_true_iff in H as [H|H]); auto;
    apply str_eqb_eq in H; auto.
Qed.

Lemma float_literal_number s :
  float_literal s = true ->
  exists i frac ex,
    match_number s = Some (i, frac, ex, []) /\ (frac <> [] \/ ex <> []).
Proof.
  unfold float_literal. intros H.
  destruct (match_number s) as [[[[i frac] ex] [|? ?]]|]; try discriminate.
  exists i, frac, ex. split; [reflexivity|].
  destruct frac; [destruct ex; [discriminate|right; discriminate]|left; discriminate].
Qed.

Lemma dumps_head v :
  exists h t, json_dumps v = h :: t /\ value_start h = true.
Proof.
  destruct v as [|[|]|n|f|s|l|d]; try (eexists _, _; split; reflexivity).
  - cbn [json_dumps].
    destruct (repr_int_shape n) as (sign & d & ds & -> & [->| ->] & Hd & _).
    + exists d, ds. split; [reflexivity|]. unfold value_start. now rewrite Hd.
    + eexists _, _. split; reflexivity.
  - cbn [json_dumps]. destruct (float_repr_cases f) as [H|[->|[->| ->]]];
      try (eexists _, _; split; reflexivity).
    destruct (float_literal_number _ H) as (i & frac & ex & Hm & _).
    assert (Hi : exists p, scan_int (float_repr f) = Some p).
    { unfold match_number in Hm. destruct (scan_int _); [eauto|discriminate]. }
    destruct Hi as [p Hi].
    destruct (scan_int_head _ p Hi) as (c & r & -> & [Hc|[-> _]]).
    + exists c, r. split; [reflexivity|]. unfold value_start. now rewrite Hc.
    + eexists _, _. split; reflexivity.
Qed.

Lemma scan_dumps_float fuel f rest :
  ends_value rest = true ->
  exists f', scan_once (S fuel) (float_repr f ++ rest) = Ok (JFloat f', rest).
Proof.
  intros Hr. destruct (float_repr_cases f) as [H|[->|[->| ->]]].
  - destruct (float_literal_number _ H) as (i & frac & ex & Hm & Hne).
    apply (match_number_app _ _ _ _ rest) in Hm;
      [|now apply ends_value_number].
    rewrite (scan_once_number _ _ _ _ _ _ Hm). unfold number_value.
    destruct frac as [|? ?]; [destruct ex as [|? ?]|]; eauto.
    destruct Hne; congruence.
  - eexists. reflexivity.
  - eexists. reflexivity.
  - eexists. reflexivity.
Qed.

Lemma join_cons2 sep (p q : pystr) (l : list pystr) :
  join sep (p :: q :: l) = p ++ sep ++ join sep (q :: l).
Proof. reflexivity. Qed.

Lemma skip_space_value v tail :
  skip_ws (32 :: json_dumps v ++ tail) = json_dumps v ++ tail.
Proof.
  destruct (dumps_head v) as (h & t & -> & Hh).
  change (skip_ws (32 :: (h :: t) ++ tail)) with (skip_ws (h :: t ++ tail)).
  now apply value_start_skip.
Qed.

Lemma scan_items_dumps l :
  Forall reads_back l -> l <> [] ->
  forall fuel rest,
    (need_items l <= fuel)%nat ->
    exists l',
      scan_items fuel (join (lit ", ") (map json_dumps l) ++ 93 :: rest)
      = Ok (l', rest)
      /\ Forall2 same_kind l l'.
Proof.
  induction 1 as [|x l Hx Hl IH]; [congruence|]. intros _ fuel rest Hfuel.
  destruct fuel as [|fuel]; [cbn in Hfuel; lia|].
  cbn [need_items fold_right] in Hfuel. fold (need_items l) in Hfuel.
  rewrite scan_items_S. destruct l as [|y l].
  - cbn [map join].
    destruct (Hx fuel (93 :: rest)) as (v' & Hv & [Hk _]); [lia|reflexivity|].
    rewrite Hv. cbn [rbind]. change (skip_ws (93 :: rest)) with (93 :: rest).
    cbv iota. change (93 =? 93) with true. cbv iota.
    exists [v']. split; [reflexivity|]. now constructor.
  - cbn [map]. rewrite join_cons2, <- !app_assoc.
    change (lit ", " ++ ?t) with (44 :: 32 :: t).
    destruct (Hx fuel (44 :: 32 :: join (lit ", ") (json_dumps y :: map json_dumps l)
                        ++ 93 :: rest)) as (v' & Hv & [Hk _]); [lia|reflexivity|].
    rewrite Hv. cbn [rbind].
    change (skip_ws (44 :: ?t)) with (44 :: t). cbv iota.
    change (44 =? 93) with false. change (44 =? 44) with true. cbv iota.
    assert (Hskip : skip_ws (32 :: join (lit ", ") (json_dumps y :: map json_dumps l)
                             ++ 93 :: rest)
                    = join (lit ", ") (json_dumps y :: map json_dumps l)
                      ++ 93 :: rest).
    { destruct l as [|z l].
      - cbn [map join]. apply skip_space_value.
      - cbn [map]. rewrite join_cons2, <- !app_assoc. apply skip_space_value. }
    rewrite Hskip.
    destruct (IH ltac:(discriminate) fuel rest) as (l' & Hl' & Hk'); [lia|].
    change (json_dumps y :: map json_dumps l) with (map json_dumps (y :: l)).
    rewrite Hl'. cbn [rbind]. exists (v' :: l'). split; [reflexivity|].
    now constructor.
Qed.

Lemma member_text_app kv tail :
  member_text kv ++ tail
  = 34 :: flat_map escape_char (fst kv)
       ++ 34 :: 58 :: 32 :: json_dumps (snd kv) ++ tail.
Proof.
  unfold member_text, encode_basestring. cbn [app].
  rewrite <- !app_assoc. reflexivity.
Qed.

Lemma scan_members_dumps d :
  Forall (fun kv => reads_back (snd kv)) d -> d <> [] ->
  forall fuel rest,
    (need_members d <= fuel)%nat ->
    exists pairs,
      scan_members fuel (join (lit ", ") (map member_text d) ++ 125 :: rest)
      = Ok (pairs, rest)
      /\ Forall2 same_member d pairs.
Proof.
  induction 1 as [|x d Hx Hd IH]; [congruence|]. intros _ fuel rest Hfuel.
  destruct fuel as [|fuel]; [cbn in Hfuel; lia|].
  cbn [need_members fold_right] in Hfuel. fold (need_members d) in Hfuel.
  destruct d as [|y d].
  - cbn [map join]. rewrite member_text_app, scan_members_S.
    rewrite scanstring_encoded. cbn [rbind].
    change (skip_ws (58 :: ?t)) with (58 :: t). cbv iota.
    change (58 =? 58) with true. cbv iota.
    rewrite skip_space_value.
    destruct (Hx fuel (125 :: rest)) as (v' & Hv & [Hk _]); [lia|reflexivity|].
    rewrite Hv. cbn [rbind]. change (skip_ws (125 :: rest)) with (125 :: rest).
    cbv iota. change (125 =? 125) with true. cbv iota.
    exists [(fst x, v')]. split; [reflexivity|]. constructor; [|constructor].
    now split.
  - cbn [map]. rewrite join_cons2, <- app_assoc, member_text_app, scan_members_S.
    rewrite scanstring_encoded. cbn [rbind].
    change (skip_ws (58 :: ?t)) with (58 :: t). cbv iota.
    change (58 =? 58) with true. cbv iota.
    rewrite skip_space_value, <- app_assoc.
    change (lit ", " ++ ?t) with (44 :: 32 :: t).
    destruct (Hx fuel (44 :: 32 :: join (lit ", ") (member_text y :: map member_text d)
                        ++ 125 :: rest)) as (v' & Hv & [Hk _]); [lia|reflexivity|].
    rewrite Hv. cbn [rbind].
    change (skip_ws (44 :: ?t)) with (44 :: t). cbv iota.
    change (44 =? 125) with false. change (44 =? 44) with true. cbv iota.
    assert (Hskip : skip_ws (32 :: join (lit ", ") (member_text y :: map member_text d)
                             ++ 125 :: rest)
                    = join (lit ", ") (member_text y :: map member_text d)
                      ++ 125 :: rest).
    { destruct d as [|z d].
      - cbn [map join]. now rewrite member_text_app.
      - cbn [map]. now rewrite join_cons2, <- app_assoc, member_text_app. }
    rewrite Hskip.
    destruct (IH ltac:(discriminate) fuel rest) as (ps & Hps & Hk'); [lia|].
    change (member_text y :: map member_text d) with (map member_text (y :: d)).
    rewrite Hps. cbn [rbind]. exists ((fst x, v') :: ps).
    split; [reflexivity|]. constructor; [now split|assumption].
Qed.

(** The text [json.dumps] writes for a value is read back by the scanner as
    a value of the same kind, whatever follows the value in a document. *)
Theorem scan_once_dumps v : reads_back v.
Proof.
  induction v as [|b|n|f|s|l IH|d IH] using json_nested_ind;
    intros fuel rest Hfuel Hr;
    (destruct fuel as [|fuel]; [cbn in Hfuel; lia|]).
  - exists JNull. split; [reflexivity|now split].
  - exists (JBool b). destruct b; (split; [reflexivity|now split]).
  - exists (JInt (py_int (repr_int n))). split; [|now split].
    cbn [json_dumps].
    apply (scan_once_number _ _ _ [] []).
    apply match_number_repr_int. now apply ends_value_number.
  - destruct (scan_dumps_float fuel f rest Hr) as [f' Hf].
    exists (JFloat f'). split; [exact Hf|now split].
  - exists (JStr s). split; [|now split].
    cbn [json_dumps]. unfold encode_basestring. cbn [app].
    rewrite <- app_assoc. cbn [app]. rewrite scan_once_string.
    now rewrite scanstring_encoded.
  - cbn [json_dumps]. change (lit "[" ++ ?t) with (91 :: t). cbn [app].
    rewrite <- app_assoc. change (lit "]" ++ rest) with (93 :: rest).
    rewrite scan_once_array. destruct l as [|x l].
    + exists (JArr []). split; [reflexivity|now split].
    + destruct (scan_items_dumps (x :: l) IH ltac:(discriminate) fuel rest)
        as (l' & Hl' & Hk).
      { cbn [need] in Hfuel. unfold need_items. lia. }
      assert (Hhead : exists h t,
        join (lit ", ") (map json_dumps (x :: l)) ++ 93 :: rest = h :: t
        /\ value_start h = true).
      { destruct (dumps_head x) as (h & t & Hx & Hh). destruct l as [|y l].
        - cbn [map join]. rewrite Hx. eexists _, _. split; [reflexivity|exact Hh].
        - cbn [map]. rewrite join_cons2, Hx. eexists _, _.
          split; [reflexivity|exact Hh]. }
      destruct Hhead as (h & t & Hht & Hh). rewrite Hht in *.
      destruct (value_start_skip h t Hh) as (-> & H93 & _).
      apply N.eqb_neq in H93. rewrite H93, Hl'. cbn [rbind].
      exists (JArr l'). split; [reflexivity|].
      split; [|exact I]. cbn. apply Forall2_length in Hk. exact Hk.
  - cbn [json_dumps]. change (lit "{" ++ ?t) with (123 :: t). cbn [app].
    rewrite <- app_assoc. change (lit "}" ++ rest) with (125 :: rest).
    rewrite scan_once_object. destruct d as [|x d].
    + exists (JObj []). split; [reflexivity|]. split; [exact I|].
      exists []. split; [reflexivity|constructor].
    + fold member_text.
      change (fun kv : pystr * json =>
                encode_basestring (fst kv) ++ lit ": " ++ json_dumps (snd kv))
        with member_text.
      destruct (scan_members_dumps (x :: d) IH ltac:(discriminate) fuel rest)
        as (ps & Hps & Hk).
      { cbn [need] in Hfuel. unfold need_members. lia. }
      assert (Hhead : exists t,
        join (lit ", ") (map member_text (x :: d)) ++ 125 :: rest = 34 :: t).
      { destruct d as [|y d].
        - cbn [map join]. rewrite member_text_app. eauto.
        - cbn [map]. rewrite join_cons2, <- app_assoc, member_text_app. eauto. }
      destruct Hhead as (t & Hht). rewrite Hht in Hps.
      change (skip_ws _)
        with (skip_ws (join (lit ", ") (map member_text (x :: d)) ++ 125 :: rest)).
      rewrite Hht.
      change (skip_ws (34 :: t)) with (34 :: t). cbv iota.
      change (34 =? 125) with false. cbv iota. rewrite Hps. cbn [rbind].
      exists (JObj (dict_of_pairs ps)). split; [reflexivity|].
      split; [exact I|]. exists ps. now split.
Qed.

End Roundtrip.

Local Close Scope N_scope.

(* ------------------------------------------------------------------ *)
(** * The fuel of [json_loads] is never exhausted *)

Local Open Scope N_scope.

Lemma skip_ws_length s : (List.length (skip_ws s) <= List.length s)%nat.
Proof.
  induction s as [|c s IH]; cbn; [lia|]. destruct (is_ws c); cbn; lia.
Qed.

Lemma strip_prefix_length p s r :
  strip_prefix p s = Some r ->
  List.length s = (List.length p + List.length r)%nat.
Proof.
  revert s. induction p as [|x p IH]; intros [|y s]; cbn; try discriminate.
  - now intros [= <-].
  - now intros [= <-].
  - destruct (x =? y); [|discriminate]. intros H. apply IH in H. lia.
Qed.

Lemma span_digits_length s d t :
  span_digits s = (d, t) -> (List.length t <= List.length s)%nat.
Proof.
  revert d t. induction s as [|c s IH]; cbn; intros d t H.
  - injection H as <- <-. cbn. lia.
  - destruct (is_digit c).
    + destruct (span_digits s) as [d' t'] eqn:E. injection H as <- <-.
      specialize (IH d' t' eq_refl). lia.
    + injection H as <- <-. cbn. lia.
Qed.

Lemma scan_int_length s i t :
  scan_int s = Some (i, t) -> (List.length t < List.length s)%nat.
Proof.
  unfold scan_int.
  assert (Hbody : forall sign s1,
    match s1 with
    | [] => None
    | c :: r =>
        if (49 <=? c) && (c <=? 57)
        then let '(d, t) := span_digits r in Some (sign ++ c :: d, t)
        else if c =? 48 then Some (sign ++ [48], r) else None
    end = Some (i, t) -> (List.length t < List.length s1)%nat).
  { intros sign [|c r] Hb; [discriminate|]. cbn [List.length].
    destruct ((49 <=? c) && (c <=? 57)).
    - destruct (span_digits r) as [d t'] eqn:E. injection Hb as <- <-.
      apply span_digits_length in E. lia.
    - destruct (c =? 48); [|discriminate]. injection Hb as <- <-. lia. }
  destruct s as [|c r]; [discriminate|]. destruct (c =? 45).
  - intros H. apply Hbody in H. cbn [List.length]. lia.
  - apply (Hbody [] (c :: r)).
Qed.

Lemma scan_frac_length s fr t :
  scan_frac s = (fr, t) -> (List.length t <= List.length s)%nat.
Proof.
  unfold scan_frac. destruct s as [|p r]; [intros [= <- <-]; cbn; lia|].
  destruct (p =? 46); [|intros [= <- <-]; lia].
  destruct (span_digits r) as [[|d0 d] t'] eqn:E; intros [= <- <-]; [lia|].
  apply span_digits_length in E. cbn [List.length]. lia.
Qed.

Lemma scan_exp_length s ex t :
  scan_exp s = (ex, t) -> (List.length t <= List.length s)%nat.
Proof.
  unfold scan_exp. destruct s as [|e r]; [intros [= <- <-]; cbn; lia|].
  destruct ((e =? 101) || (e =? 69)); [|intros [= <- <-]; lia].
  destruct r as [|x r'].
  - cbn. intros [= <- <-]. cbn. lia.
  - destruct ((x =? 45) || (x =? 43)).
    + destruct (span_digits r') as [[|d0 d] t'] eqn:E; intros [= <- <-]; [lia|].
      apply span_digits_length in E. cbn [List.length]. lia.
    + destruct (span_digits (x :: r')) as [[|d0 d] t'] eqn:E;
        intros [= <- <-]; [lia|].
      apply span_digits_length in E. cbn [List.length] in *. lia.
Qed.

Lemma match_number_length s i fr ex t :
  match_number s = Some (i, fr, ex, t) -> (List.length t < List.length s)%nat.
Proof.
  unfold match_number.
  destruct (scan_int s) as [[i' s2]|] eqn:Ei; [|discriminate].
  destruct (scan_frac s2) as [fr' s3] eqn:Ef.
  destruct (scan_exp s3) as [ex' s4] eqn:Ee. intros [= <- <- <- <-].
  apply scan_int_length in Ei. apply scan_frac_length in Ef.
  apply scan_exp_length in Ee. lia.
Qed.

Lemma progress_push c s r :
  progress s r -> progress (c :: s) (push c r).
Proof.
  destruct r as [[str rest]|e]; cbn; [lia|auto].
Qed.

Lemma progress_weaken {A} (s s' : pystr) (r : result (A * pystr)) :
  (List.length s <= List.length s')%nat -> progress s r -> progress s' r.
Proof. destruct r as [[a rest]|e]; cbn; [lia|auto]. Qed.

Lemma progress_error {A} s : @progress A s (Err JSONDecodeError).
Proof. cbn. discriminate. Qed.

Lemma scanstring_progress s : progress s (scanstring s).
Proof.
  remember (List.length s) as n eqn:Hn. revert s Hn.
  induction n as [n IH] using lt_wf_ind. intros s Hn.
  assert (IH' : forall s', (List.length s' < List.length s)%nat ->
                           progress s' (scanstring s'))
    by (intros s' Hlt; apply (IH (List.length s')); [lia|reflexivity]).
  clear IH Hn.
  destruct s as [|c r]; [apply progress_error|]. cbn [scanstring].
  destruct (c =? 34); [cbn; lia|].
  destruct (c =? 92).
  - destruct r as [|e r1]; [apply progress_error|].
    destruct (e =? 117).
    + destruct r1 as [|h1 [|h2 [|h3 [|h4 r2]]]]; try apply progress_error.
      destruct (hex4 h1 h2 h3 h4) as [u|]; [|apply progress_error].
      assert (Hr2 : progress (c :: e :: h1 :: h2 :: h3 :: h4 :: r2)
                      (push u (scanstring r2))).
      { apply (progress_weaken (u :: r2)); [cbn; lia|].
        apply progress_push, IH'. cbn. lia. }
      destruct r2 as [|b [|u' [|g1 [|g2 [|g3 [|g4 r3]]]]]]; try exact Hr2.
      destruct (is_high_surrogate u && (b =? 92) && (u' =? 117));
        [|exact Hr2].
      destruct (hex4 g1 g2 g3 g4) as [u2|]; [|apply progress_error].
      destruct (is_low_surrogate u2); [|exact Hr2].
      apply (progress_weaken (join_surrogates u u2 :: r3)); [cbn; lia|].
      apply progress_push, IH'. cbn. lia.
    + destruct (unescape e) as [c'|]; [|apply progress_error].
      apply (progress_weaken (c' :: r1)); [cbn; lia|].
      apply progress_push, IH'. cbn. lia.
  - destruct (c <=? 31); [apply progress_error|].
    apply progress_push, IH'. cbn. lia.
Qed.

Section Fuel.
Context {FM : FloatModel}.

Lemma progress_prefix {A} (p : string) (s : pystr) (a : A) r :
  lit p <> [] -> strip_prefix (lit p) s = Some r -> progress s (Ok (a, r)).
Proof.
  intros Hp H. apply strip_prefix_length in H. cbn.
  destruct (lit p); [congruence|]. cbn in H. lia.
Qed.

Lemma fuel_step fuel : fuel_ok fuel -> fuel_ok (S fuel).
Proof.
  intros (Ho & Hi & Hm). split; [|split]; intros s Hf.
  - destruct s as [|c r]; [apply progress_error|]. cbn [List.length] in Hf.
    pose proof (skip_ws_length r) as Hws.
    destruct (N.eqb_spec c 34) as [->|H34];
      [|destruct (N.eqb_spec c 123) as [->|H123];
        [|destruct (N.eqb_spec c 91) as [->|H91]]].
    + rewrite scan_once_string. pose proof (scanstring_progress r) as Hs.
      destruct (scanstring r) as [[str rest]|e]; cbn in *; [lia|exact Hs].
    + rewrite scan_once_object.
      destruct (skip_ws r) as [|c1 r1]; [apply progress_error|].
      destruct (c1 =? 125); [cbn in *; lia|].
      assert (Hp : progress (c1 :: r1) (scan_members fuel (c1 :: r1)))
        by (apply Hm; lia).
      destruct (scan_members fuel (c1 :: r1)) as [[ps rest]|e];
        cbn in *; [lia|exact Hp].
    + rewrite scan_once_array.
      destruct (skip_ws r) as [|c1 r1]; [apply progress_error|].
      destruct (c1 =? 93); [cbn in *; lia|].
      assert (Hp : progress (c1 :: r1) (scan_items fuel (c1 :: r1)))
        by (apply Hi; lia).
      destruct (scan_items fuel (c1 :: r1)) as [[ps rest]|e];
        cbn in *; [lia|exact Hp].
    + rewrite scan_once_atom by assumption.
      repeat match goal with
      | |- context [strip_prefix (lit ?p) (c :: r)] =>
          let E := fresh "E" in
          destruct (strip_prefix (lit p) (c :: r)) eqn:E;
            [now apply (progress_prefix p)|]
      end.
      destruct (match_number (c :: r)) as [[[[i fr] ex] rest]|] eqn:Em;
        [|apply progress_error].
      apply match_number_length in Em. destruct fr, ex; exact Em.
  - rewrite scan_items_S.
    assert (Hp : progress s (scan_once fuel s)) by (apply Ho; lia).
    destruct (scan_once fuel s) as [[v rest]|e]; [|exact Hp].
    cbn [rbind]. cbn in Hp. pose proof (skip_ws_length rest) as Hws.
    destruct (skip_ws rest) as [|c r]; [apply progress_error|].
    destruct (c =? 93); [cbn in *; lia|].
    destruct (c =? 44); [|apply progress_error].
    pose proof (skip_ws_length r) as Hws'.
    assert (Hp' : progress (skip_ws r) (scan_items fuel (skip_ws r)))
      by (apply Hi; cbn in *; lia).
    destruct (scan_items fuel (skip_ws r)) as [[vs rest']|e];
      cbn in *; [lia|exact Hp'].
  - destruct s as [|q r0]; [apply progress_error|]. cbn [List.length] in Hf.
    destruct (N.eqb_spec q 34) as [->|Hq].
    + rewrite scan_members_S. pose proof (scanstring_progress r0) as Hs.
      destruct (scanstring r0) as [[key r1]|e]; [|exact Hs].
      cbn [rbind]. cbn in Hs. pose proof (skip_ws_length r1) as Hw1.
      destruct (skip_ws r1) as [|c1 r2]; [apply progress_error|].
      destruct (c1 =? 58); [|apply progress_error].
      pose proof (skip_ws_length r2) as Hw2.
      assert (Hp : progress (skip_ws r2) (scan_once fuel (skip_ws r2)))
        by (apply Ho; cbn in *; lia).
      destruct (scan_once fuel (skip_ws r2)) as [[v r3]|e]; [|exact Hp].
      cbn [rbind]. cbn in Hp. pose proof (skip_ws_length r3) as Hw3.
      destruct (skip_ws r3) as [|c2 r4]; [apply progress_error|].
      destruct (c2 =? 125); [cbn in *; lia|].
      destruct (c2 =? 44); [|apply progress_error].
      pose proof (skip_ws_length r4) as Hw4.
      assert (Hp' : progress (skip_ws r4) (scan_members fuel (skip_ws r4)))
        by (apply Hm; cbn in *; lia).
      destruct (scan_members fuel (skip_ws r4)) as [[ps r5]|e];
        cbn in *; [lia|exact Hp'].
    + cbn [scan_members]. apply N.eqb_neq in Hq. rewrite Hq.
      apply progress_error.
Qed.

Lemma fuel_ok_all fuel : fuel_ok fuel.
Proof.
  induction fuel as [|fuel IH]; [|now apply fuel_step].
  repeat split; intros s Hf; lia.
Qed.

(** [json_loads] never runs out of fuel: the model has no recursion
    limit. *)
Theorem json_loads_fuel s : json_loads s <> Err RecursionError.
Proof.
  unfold json_loads. destruct s as [|c r]; [discriminate|].
  destruct (c =? 65279); [discriminate|].
  pose proof (skip_ws_length (c :: r)) as Hws.
  assert (Hp : progress (skip_ws (c :: r))
                 (scan_once (loads_fuel (c :: r)) (skip_ws (c :: r)))).
  { apply (proj1 (fuel_ok_all _)). unfold loads_fuel. lia. }
  destruct (scan_once _ _) as [[v rest]|e]; cbn [rbind]; [|congruence].
  destruct (skip_ws rest); discriminate.
Qed.

End Fuel.

Local Close Scope N_scope.

(* ------------------------------------------------------------------ *)
(** * Decoding the serialized intent *)

Section Decode.
Context {FM : FloatModel}.
Local Open Scope N_scope.

Lemma value_start_not_bom c : value_start c = true -> c <> 65279.
Proof.
  unfold value_start, is_digit. intros H Hc. subst c. discriminate H.
Qed.

Lemma need_items_le l :
  Forall (fun x => (need x <= List.length (json_dumps x))%nat) l ->
  (need_items l <= List.length (join (lit ", ") (map json_dumps l)) + 1)%nat.
Proof.
  induction 1 as [|x l Hx Hl IH]; [cbn; lia|].
  cbn [need_items fold_right]. fold (need_items l).
  destruct l as [|y l].
  - cbn [map join need_items fold_right]. lia.
  - cbn [map]. rewrite join_cons2, !length_app. cbn [map] in IH.
    change (List.length (lit ", ")) with 2%nat. lia.
Qed.

Lemma need_members_le d :
  Forall (fun kv => (need (snd kv) <= List.length (json_dumps (snd kv)))%nat) d ->
  (need_members d <= List.length (join (lit ", ") (map member_text d)) + 1)%nat.
Proof.
  induction 1 as [|x d Hx Hd IH]; [cbn; lia|].
  cbn [need_members fold_right]. fold (need_members d).
  assert (Hm : (List.length (json_dumps (snd x)) <= List.length (member_text x))%nat).
  { unfold member_text. rewrite !length_app. lia. }
  destruct d as [|y d].
  - cbn [map join need_members fold_right]. lia.
  - cbn [map]. rewrite join_cons2, !length_app. cbn [map] in IH.
    change (List.length (lit ", ")) with 2%nat. lia.
Qed.

Lemma need_le_length v : (need v <= List.length (json_dumps v))%nat.
Proof.
  induction v as [|b|n|f|s|l IH|d IH] using json_nested_ind;
    try (match goal with |- (need ?v <= _)%nat =>
           destruct (dumps_head v) as (h & t & Hd & _);
           change (need v) with 1%nat; rewrite Hd; cbn [List.length]; lia
         end).
  - cbn [json_dumps]. cbn [need]. fold (need_items l).
    apply need_items_le in IH. rewrite !length_app.
    change (List.length (lit "[")) with 1%nat.
    change (List.length (lit "]")) with 1%nat. lia.
  - cbn [json_dumps]. cbn [need]. fold (need_members d).
    apply need_members_le in IH. rewrite !length_app.
    change (map (fun kv : pystr * json =>
                   encode_basestring (fst kv) ++ lit ": " ++ json_dumps (snd kv)) d)
      with (map member_text d).
    change (List.length (lit "{")) with 1%nat.
    change (List.length (lit "}")) with 1%nat. lia.
Qed.

(** [json.loads(json.dumps(v))] returns, for every value [v]. *)
Theorem json_loads_dumps v :
  exists v', json_loads (json_dumps v) = Ok v' /\ similar v v'.
Proof.
  destruct (dumps_head v) as (h & t & Hd & Hh).
  destruct (scan_once_dumps v (loads_fuel (json_dumps v)) []) as (v' & Hs & Hk).
  - pose proof (need_le_length v). unfold loads_fuel. lia.
  - reflexivity.
  - exists v'. split; [|exact Hk]. rewrite app_nil_r in Hs.
    unfold json_loads. rewrite Hd in *.
    apply value_start_not_bom in Hh as Hb. apply N.eqb_neq in Hb. rewrite Hb.
    destruct (value_start_skip h t Hh) as (-> & _). now rewrite Hs.
Qed.

Lemma parse_text_shape text parsed :
  parse_text text = Ok parsed ->
  exists tags content,
    parsed = plain_result tags content
    \/ exists call, parsed = call_result tags call content.
Proof.
  unfold parse_text. intros H.
  destruct (json_loads _) as [tools|e]; [|discriminate]. cbn [rbind] in H.
  destruct (py_len tools) as [n|e]; [|discriminate]. cbn [rbind] in H.
  destruct (Nat.eqb n 0).
  - injection H as <-. eexists _, _. left. reflexivity.
  - destruct (py_first tools) as [first|e]; [|discriminate].
    injection H as <-. eexists _, _. right. eexists. reflexivity.
Qed.

Lemma same_kind_str s v : same_kind (JStr s) v -> v = JStr s.
Proof. destruct v; cbn; try contradiction. now intros ->. Qed.

Lemma decode_plain tags content :
  json_loads (json_dumps (JObj (plain_result tags content)))
  = Ok (JObj (plain_result tags content)).
Proof.
  destruct (json_loads_dumps (JObj (plain_result tags content)))
    as (v' & -> & Hk & Hs).
  destruct v' as [| | | | | |d']; try contradiction. clear Hk.
  destruct Hs as (ps & -> & Hps). f_equal. f_equal.
  inversion Hps as [|? [k1 v1] ? ? [Hk1 Hv1] Hps1]; subst.
  inversion Hps1 as [|? [k2 v2] ? ? [Hk2 Hv2] Hps2]; subst.
  inversion Hps2; subst. cbn [fst snd] in *. subst.
  apply same_kind_str in Hv1, Hv2. subst. reflexivity.
Qed.

Lemma decode_call tags call content :
  exists call',
    json_loads (json_dumps (JObj (call_result tags call content)))
    = Ok (JObj (call_result tags call' content))
    /\ same_kind call call'.
Proof.
  destruct (json_loads_dumps (JObj (call_result tags call content)))
    as (v' & -> & Hk & Hs).
  destruct v' as [| | | | | |d']; try contradiction. clear Hk.
  destruct Hs as (ps & -> & Hps).
  inversion Hps as [|? [k1 v1] ? ? [Hk1 Hv1] Hps1]; subst.
  inversion Hps1 as [|? [k2 v2] ? ? [Hk2 Hv2] Hps2]; subst.
  inversion Hps2 as [|? [k3 v3] ? ? [Hk3 Hv3] Hps3]; subst.
  inversion Hps3; subst. cbn [fst snd] in *. subst.
  apply same_kind_str in Hv1, Hv3. subst. exists v2. split; [reflexivity|assumption].
Qed.

End Decode.

(* ------------------------------------------------------------------ *)
(** * Storing and the paths of a call *)

Section DictSet.
Context {V : Type}.
Implicit Types (d : dict V) (k : pystr).

Lemma dict_get_set_same k v d : dict_get k (dict_set k v d) = Some v.
Proof.
  induction d as [|[k' v'] d IH]; cbn.
  - now rewrite str_eqb_refl.
  - destruct (str_eqb k k') eqn:E; cbn; now rewrite E.
Qed.

Lemma dict_set_keys k v d :
  map fst (dict_set k v d)
  = if dict_mem k d then map fst d else map fst d ++ [k].
Proof.
  unfold dict_mem. induction d as [|[k' v'] d IH]; cbn; [reflexivity|].
  destruct (str_eqb k k') eqn:E; cbn; [reflexivity|].
  rewrite IH. now destruct (dict_get k d).
Qed.

Lemma dict_get_In k d v : dict_get k d = Some v -> In (k, v) d.
Proof.
  induction d as [|[k' v'] d IH]; cbn; [discriminate|].
  destruct (str_eqb k k') eqn:E.
  - apply str_eqb_eq in E. subst. intros H. injection H as ->. now left.
  - intros H. right. now apply IH.
Qed.

Lemma dict_get_None k d : dict_get k d = None -> ~ In k (map fst d).
Proof.
  induction d as [|[k' v'] d IH]; cbn; [tauto|].
  destruct (str_eqb k k') eqn:E; [discriminate|].
  apply str_eqb_neq in E. intros H [Heq|Hin]; [congruence|]. now apply IH.
Qed.

Lemma dict_set_wf k v d : dict_wf d -> dict_wf (dict_set k v d).
Proof.
  unfold dict_wf. intros Hwf. rewrite dict_set_keys. unfold dict_mem.
  destruct (dict_get k d) eqn:E; [assumption|].
  apply dict_get_None in E.
  apply NoDup_rev in Hwf. rewrite <- rev_involutive. apply NoDup_rev.
  rewrite rev_app_distr. cbn. constructor; [|assumption].
  now rewrite <- in_rev.
Qed.

Lemma dict_set_In k v d kv :
  In kv (dict_set k v d) -> In kv d \/ snd kv = v.
Proof.
  induction d as [|[k' v'] d IH]; cbn.
  - intros [<-|[]]. now right.
  - destruct (str_eqb k k'); cbn.
    + intros [<-|H]; [now right|left; now right].
    + intros [<-|H]; [left; now left|].
      destruct (IH H); [left; now right|now right].
Qed.
End DictSet.

(** [clean_cache] keeps only entries that are not expired, whatever the
    keys. *)
Lemma clean_cache_at_incl now (c : cache) :
  incl (clean_cache_at now c) (fresh now c).
Proof.
  unfold clean_cache_at. rewrite fold_dict_del.
  set (c1 := filter _ c).
  assert (H1 : incl c1 (fresh now c)).
  { intros kv Hin. apply filter_In in Hin as [Hin Hk].
    apply filter_In. split; [assumption|].
    destruct (expired now kv) eqn:E; [|reflexivity].
    apply negb_true_iff in Hk. exfalso.
    assert (Hin' : key_in (map fst (filter (expired now) c)) kv = true).
    { apply key_in_In, in_map, filter_In. now split. }
    congruence. }
  destruct (_ <? _)%nat; [|assumption].
  rewrite fold_dict_del_items. intros kv Hin.
  apply filter_In in Hin as [Hin _]. now apply H1.
Qed.

Lemma fresh_age now (c : cache) kv :
  In kv (fresh now c) -> In kv c /\ now - timestamp (snd kv) <= 600.
Proof.
  unfold fresh. rewrite filter_In. unfold expired, cache_expiry.
  rewrite negb_true_iff, Z.gtb_ltb, Z.ltb_ge. tauto.
Qed.

Section Post.
Context {FM : FloatModel}.
Variable clock : nat -> Z.

Lemma postprocess_parse_error decode key raw st e :
  parse_text (strip raw) = Err e ->
  postprocess clock decode key raw st = (Err e, st).
Proof.
  intros H. unfold postprocess. unfold bind at 1. unfold lift at 1.
  now rewrite H.
Qed.

Lemma postprocess_decode_failure decode key raw st parsed :
  parse_text (strip raw) = Ok parsed ->
  decode (json_dumps (JObj parsed)) = Err JSONDecodeError ->
  postprocess clock decode key raw st
  = (Ok fallback_intent, with_reads (S (clock_reads st)) st).
Proof.
  intros Hp Hd. unfold postprocess. unfold bind at 1. unfold lift at 1.
  rewrite Hp, Hd. reflexivity.
Qed.

Lemma postprocess_plain key raw st tags content :
  parse_text (strip raw) = Ok (plain_result tags content) ->
  postprocess clock json_loads key raw st
  = (Ok (json_dumps (JObj (plain_result tags content))),
     stored clock key (json_dumps (JObj (plain_result tags content))) st).
Proof.
  intros Hp. unfold postprocess. unfold bind at 1. unfold lift at 1.
  rewrite Hp, decode_plain. reflexivity.
Qed.

Lemma py_in_call tags call content :
  py_in (lit "function_call") (JObj (call_result tags call content)) = Ok true.
Proof. reflexivity. Qed.

Lemma py_getitem_call tags call content :
  py_getitem (lit "function_call") (JObj (call_result tags call content))
  = Ok call.
Proof. reflexivity. Qed.

Lemma postprocess_call key raw st tags call content :
  parse_text (strip raw) = Ok (call_result tags call content) ->
  postprocess clock json_loads key raw st
  = match call with
    | JObj _ =>
        (Ok (json_dumps (JObj (call_result tags call content))),
         stored clock key (json_dumps (JObj (call_result tags call content))) st)
    | _ => (Err AttributeError, st)
    end.
Proof.
  intros Hp. unfold postprocess. unfold bind at 1. unfold lift at 1.
  rewrite Hp. destruct (decode_call tags call content) as (call' & -> & Hk).
  destruct call, call'; try contradiction; try reflexivity.
  unfold bind at 1. unfold lift at 1. rewrite py_in_call.
  unfold bind at 1. unfold lift at 1. rewrite py_getitem_call.
  unfold bind at 1. unfold lift at 1. cbn [py_get].
  destruct (dict_get (lit "name") members0);
    unfold bind at 1; unfold lift at 1;
    destruct (dict_get (lit "arguments") members0); reflexivity.
Qed.

(** The serialized intent starts with the key [tags]; the fallback
    literal starts with the key [intent]. *)
Lemma dumps_not_fallback text parsed :
  parse_text text = Ok parsed ->
  json_dumps (JObj parsed) <> fallback_intent.
Proof.
  intros H. destruct (parse_text_shape _ _ H) as (tags & content & [->|[call ->]]);
    intros Heq; cbn in Heq; discriminate Heq.
Qed.

Lemma postprocess_ok key raw st r st' :
  postprocess clock json_loads key raw st = (Ok r, st') ->
  exists parsed,
    parse_text (strip raw) = Ok parsed
    /\ r = json_dumps (JObj parsed)
    /\ st' = stored clock key r st.
Proof.
  destruct (parse_text (strip raw)) as [parsed|e] eqn:Hp.
  - destruct (parse_text_shape _ _ Hp) as (tags & content & [->|[call ->]]).
    + rewrite (postprocess_plain _ _ _ _ _ Hp). intros H. injection H as <- <-.
      eauto.
    + rewrite (postprocess_call _ _ _ _ _ _ Hp).
      destruct call; intros H; try discriminate H; injection H as <- <-; eauto.
  - rewrite (postprocess_parse_error _ _ _ _ _ Hp). discriminate.
Qed.

Lemma misses_keeps text st client key st1 :
  misses clock text st client key st1 ->
  intent_cache st1 = intent_cache st /\ llm_calls st1 = llm_calls st.
Proof.
  intros (_ & _ & Hl). apply lookup_keeps in Hl as (Hc & Hl & _). now split.
Qed.

Lemma detect_miss decode conn text st client key st1 :
  misses clock text st client key st1 ->
  detect_intent_with clock decode conn text st
  = miss_path clock decode conn client key text st1.
Proof.
  intros (Hllm & Hkey & Hl).
  rewrite (detect_with_llm _ _ _ _ _ _ _ Hllm Hkey). now rewrite Hl.
Qed.

Lemma detect_answered decode conn text st client key st1 prompt raw :
  misses clock text st client key st1 ->
  answered conn client text st1 prompt raw ->
  detect_intent_with clock decode conn text st
  = postprocess clock decode key raw (after_llm clock st1 prompt text).
Proof.
  intros Hm (Hp & Hr). rewrite (detect_miss _ _ _ _ _ _ _ Hm).
  now apply miss_path_run.
Qed.

(** What a call of [detect_intent] is: a configuration error, an encoding
    error, a hit, or a miss. *)
Lemma detect_cases decode conn text st :
  (llm st = None)
  \/ (exists client e, llm st = Some client /\ cache_key_of text = Err e)
  \/ (exists client key e,
        llm st = Some client /\ cache_key_of text = Ok key
        /\ dict_get key (intent_cache st) = Some e
        /\ clock (S (clock_reads st)) - timestamp e <= cache_expiry
        /\ detect_intent_with clock decode conn text st
           = (Ok (intent e), with_reads (3 + clock_reads st) st))
  \/ (exists client key st1, misses clock text st client key st1).
Proof.
  destruct (llm st) as [client|] eqn:Hllm; [|now left]. right.
  destruct (cache_key_of text) as [key|e] eqn:Hkey; [|left; eauto]. right.
  destruct (dict_get key (intent_cache st)) as [e|] eqn:Hget.
  - destruct (Z.le_gt_cases (clock (S (clock_reads st)) - timestamp e) cache_expiry)
      as [Hle|Hgt].
    + left. exists client, key, e. repeat (split; [assumption|]).
      rewrite (detect_with_llm _ _ _ _ _ _ _ Hllm Hkey).
      now rewrite (lookup_fresh _ _ _ e).
    + right. exists client, key, (with_reads (2 + clock_reads st) st).
      repeat (split; [assumption|]). now rewrite (lookup_expired _ _ _ e).
  - right. exists client, key, (with_reads (1 + clock_reads st) st).
    repeat (split; [assumption|]). now rewrite lookup_absent.
Qed.

Lemma miss_path_ok conn client key text st r st' :
  miss_path clock json_loads conn client key text st = (Ok r, st') ->
  exists prompt raw parsed,
    answered conn client text st prompt raw
    /\ parse_text (strip raw) = Ok parsed
    /\ r = json_dumps (JObj parsed)
    /\ st' = stored clock key r (after_llm clock st prompt text).
Proof.
  intros H.
  destruct (build_system_prompt conn) as [prompt|e] eqn:Hp.
  - destruct (response_no_stream client (List.length (llm_calls st)) prompt text)
      as [raw|e] eqn:Hr.
    + rewrite (miss_path_run _ _ _ _ _ _ _ _ _ Hp Hr) in H.
      apply postprocess_ok in H as (parsed & Hparse & -> & ->).
      exists prompt, raw, parsed. repeat split; assumption.
    + exfalso. revert H. unfold miss_path.
      unfold bind at 1. rewrite clean_cache_run.
      unfold bind at 1. unfold lift at 1. rewrite Hp.
      unfold bind at 1. unfold time_time at 1.
      unfold bind at 1. unfold time_time at 1.
      unfold bind at 1. unfold call_llm at 1.
      cbn [llm_calls with_reads with_cache]. rewrite Hr. discriminate.
  - exfalso. revert H. unfold miss_path.
    unfold bind at 1. rewrite clean_cache_run.
    unfold bind at 1. unfold lift at 1. rewrite Hp. discriminate.
Qed.

(** Calls keep the keys of the cache distinct; the cache of [init] is
    empty, so that every cache a provider reaches is a dictionary. *)
Lemma detect_intent_keeps_wf decode conn text st r st' :
  dict_wf (intent_cache st) ->
  detect_intent_with clock decode conn text st = (r, st') ->
  dict_wf (intent_cache st').
Proof.
  intros Hwf Hrun.
  destruct (detect_cases decode conn text st)
    as [Hnone|[(client & e & Hllm & Hkey)
              |[(client & key & e & Hllm & Hkey & _ & _ & Hhit)
               |(client & key & st1 & Hm)]]].
  - rewrite (detect_without_llm _ _ _ _ _ Hnone) in Hrun.
    now injection Hrun as <- <-.
  - rewrite (detect_encode_error _ _ _ _ _ _ _ Hllm Hkey) in Hrun.
    now injection Hrun as <- <-.
  - rewrite Hhit in Hrun. now injection Hrun as <- <-.
  - rewrite (detect_miss _ _ _ _ _ _ _ Hm) in Hrun.
    destruct (misses_keeps _ _ _ _ _ Hm) as [Hc _].
    apply miss_path_cache in Hrun as [->|(i & t & -> & _)]; rewrite Hc.
    + now apply clean_cache_at_wf.
    + now apply dict_set_wf, clean_cache_at_wf.
Qed.

End Post.

(* ------------------------------------------------------------------ *)
(** * The claims on [parse_text] *)

Section ParseClaims.
Context {FM : FloatModel}.

Lemma lstrip_spaces g : forallb isspace g = true -> lstrip g = [].
Proof.
  induction g as [|c g IH]; [reflexivity|]. cbn. intros H.
  apply andb_true_iff in H as [Hc Hg]. rewrite Hc. now apply IH.
Qed.

Lemma strip_spaces g : forallb isspace g = true -> strip g = [].
Proof. intros H. unfold strip. now rewrite lstrip_spaces. Qed.

Lemma parse_text_loads_error text e :
  json_loads (group_or_empty (lit "<tool_call>") (lit "</tool_call>") text)
  = Err e ->
  parse_text text = Err e.
Proof. intros H. unfold parse_text. now rewrite H. Qed.

(** C10. When the text has no [<tool_call>...</tool_call>] region, or the
    region holds nothing but whitespace (nothing at all included),
    [parse_text] raises [json.JSONDecodeError]; so whenever [parse_text]
    returns, the region is there and holds more than whitespace: it never
    returns with the tool-call segment absent. *)
Theorem parse_text_needs_tool_call text :
  ((re_search_group (lit "<tool_call>") (lit "</tool_call>") text = None
    \/ exists g,
         re_search_group (lit "<tool_call>") (lit "</tool_call>") text = Some g
         /\ forallb isspace g = true) ->
   parse_text text = Err JSONDecodeError)
  /\ (forall parsed,
        parse_text text = Ok parsed ->
        exists g,
          re_search_group (lit "<tool_call>") (lit "</tool_call>") text = Some g
          /\ strip g <> []).
Proof.
  split.
  - intros H. apply parse_text_loads_error. unfold group_or_empty.
    destruct H as [->|(g & -> & Hg)]; [reflexivity|].
    now rewrite strip_spaces.
  - intros parsed H. unfold parse_text, group_or_empty in H.
    destruct (re_search_group (lit "<tool_call>") (lit "</tool_call>") text)
      as [g|]; [|discriminate H].
    exists g. split; [reflexivity|]. intros Hg. rewrite Hg in H. discriminate H.
Qed.

(** C2. When the [<tool_call>] region of the text holds a JSON array,
    [parse_text] returns the tags and the content alone if the array is
    empty, and otherwise the same with [function_call] bound to the first
    element of the array. The text
    [<tags>music</tags><tool_call>[]</tool_call><content>hi</content>]
    parses to tags [music] and content [hi] without [function_call]; a text
    whose region holds one call of [play] with argument [song = x] parses
    to a result whose [function_call] is that call. *)
Theorem parse_text_tool_call_array :
  (forall text g items,
     re_search_group (lit "<tool_call>") (lit "</tool_call>") text = Some g ->
     json_loads (strip g) = Ok (JArr items) ->
     let tags := group_or_empty (lit "<tags>") (lit "</tags>") text in
     let content := group_or_empty (lit "<content>") (lit "</content>") text in
     parse_text text
     = Ok match items with
          | [] => plain_result tags content
          | first :: _ => call_result tags first content
          end)
  /\ parse_text
       (qlit "<tags>music</tags><tool_call>[]</tool_call><content>hi</content>")
     = Ok (plain_result (lit "music") (lit "hi"))
  /\ (forall text g,
        re_search_group (lit "<tool_call>") (lit "</tool_call>") text = Some g ->
        strip g = qlit "[{'name':'play','arguments':{'song':'x'}}]" ->
        exists tags content,
          parse_text text
          = Ok (call_result tags
                  (JObj [(lit "name", JStr (lit "play"));
                         (lit "arguments",
                          JObj [(lit "song", JStr (lit "x"))])])
                  content)).
Proof.
  assert (Hgen : forall text g items,
     re_search_group (lit "<tool_call>") (lit "</tool_call>") text = Some g ->
     json_loads (strip g) = Ok (JArr items) ->
     parse_text text
     = Ok match items with
          | [] => plain_result (group_or_empty (lit "<tags>") (lit "</tags>") text)
                    (group_or_empty (lit "<content>") (lit "</content>") text)
          | first :: _ =>
              call_result (group_or_empty (lit "<tags>") (lit "</tags>") text)
                first
                (group_or_empty (lit "<content>") (lit "</content>") text)
          end).
  { intros text g items Hg Hl.
    assert (Htc : group_or_empty (lit "<tool_call>") (lit "</tool_call>") text
                  = strip g) by (unfold group_or_empty; now rewrite Hg).
    unfold parse_text. rewrite Htc, Hl. cbn [rbind py_len].
    destruct items as [|first items]; reflexivity. }
  split; [exact Hgen|]. split.
  - vm_compute. reflexivity.
  - intros text g Hg Hs. eexists _, _.
    rewrite (Hgen text g
               [JObj [(lit "name", JStr (lit "play"));
                      (lit "arguments", JObj [(lit "song", JStr (lit "x"))])]]
               Hg).
    + reflexivity.
    + rewrite Hs. vm_compute. reflexivity.
Qed.

End ParseClaims.

(* ------------------------------------------------------------------ *)
(** * The claims on a miss *)

Section MissClaims.
Context {FM : FloatModel}.
Variable clock : nat -> Z.

Lemma no_fallback_clean now c :
  no_fallback c -> no_fallback (clean_cache_at now c).
Proof.
  unfold no_fallback. rewrite !Forall_forall. intros H kv Hin.
  apply H. apply clean_cache_at_incl in Hin. now apply fresh_age in Hin.
Qed.

Lemma no_fallback_set key e c :
  intent e <> fallback_intent -> no_fallback c -> no_fallback (dict_set key e c).
Proof.
  unfold no_fallback. rewrite !Forall_forall. intros He H kv Hin.
  apply dict_set_In in Hin as [Hin| ->]; [now apply H|exact He].
Qed.

(** C9. The handler of [json.JSONDecodeError] in [detect_intent] is dead
    code: the text given to the final [json.loads] is [json.dumps] of the
    dictionary [parse_text] returned, and decoding it always succeeds; so
    no call of [detect_intent] returns the fallback literal, be it answered
    by the LLM or, the cache holding only what earlier calls stored, from
    the cache. *)
Theorem fallback_unreachable :
  (forall text parsed,
     parse_text text = Ok parsed ->
     exists data, json_loads (json_dumps (JObj parsed)) = Ok data)
  /\ (forall conn text st r st',
        no_fallback (intent_cache st) ->
        detect_intent clock conn text st = (Ok r, st') ->
        r <> fallback_intent /\ no_fallback (intent_cache st')).
Proof.
  split.
  - intros text parsed _.
    destruct (json_loads_dumps (JObj parsed)) as (data & Hd & _). eauto.
  - intros conn text st r st' Hinv Hrun. unfold detect_intent in Hrun.
    destruct (detect_cases clock json_loads conn text st)
      as [Hnone|[(client & e & Hllm & Hkey)
                |[(client & key & e & Hllm & Hkey & Hget & Hage & Hhit)
                 |(client & key & st1 & Hm)]]].
    + rewrite (detect_without_llm _ _ _ _ _ Hnone) in Hrun. discriminate.
    + rewrite (detect_encode_error _ _ _ _ _ _ _ Hllm Hkey) in Hrun.
      discriminate.
    + rewrite Hhit in Hrun. injection Hrun as <- <-. split; [|exact Hinv].
      apply dict_get_In in Hget. unfold no_fallback in Hinv.
      rewrite Forall_forall in Hinv. exact (Hinv _ Hget).
    + rewrite (detect_miss _ _ _ _ _ _ _ _ Hm) in Hrun.
      apply miss_path_ok in Hrun
        as (prompt & raw & parsed & _ & Hparse & -> & ->).
      pose proof (dumps_not_fallback _ _ Hparse) as Hne.
      split; [exact Hne|]. cbn [stored intent_cache after_llm].
      apply no_fallback_set; [exact Hne|]. apply no_fallback_clean.
      destruct (misses_keeps _ _ _ _ _ _ Hm) as [-> _]. exact Hinv.
Qed.

(** C6, amended. On a miss answered by the LLM, when [parse_text] returns
    and the [function_call] of its result, if there is one, is a JSON
    object, [detect_intent] returns the serialized result and stores it
    under the MD5 key of the text with the reading of the clock taken at
    that moment as timestamp; the entry replaces what the key held; this
    holds with and without a [function_call]. (Decoding the serialized
    result always succeeds, see [json_loads_dumps].) *)
Theorem miss_stores_intent conn text st client key st1 prompt raw parsed :
  misses clock text st client key st1 ->
  answered conn client text st1 prompt raw ->
  parse_text (strip raw) = Ok parsed ->
  loggable parsed ->
  let r := json_dumps (JObj parsed) in
  let entry := {| intent := r; timestamp := clock (5 + clock_reads st1)%nat |} in
  exists st',
    detect_intent clock conn text st = (Ok r, st')
    /\ intent_cache st'
       = dict_set key entry
           (clean_cache_at (clock (clock_reads st1)) (intent_cache st))
    /\ dict_get key (intent_cache st') = Some entry.
Proof.
  intros Hm Ha Hparse Hlog r entry. unfold detect_intent.
  rewrite (detect_answered _ _ _ _ _ _ _ _ _ _ Hm Ha).
  destruct (misses_keeps _ _ _ _ _ _ Hm) as [Hc _].
  assert (Hpost : postprocess clock json_loads key raw (after_llm clock st1 prompt text)
                  = (Ok r, stored clock key r (after_llm clock st1 prompt text))).
  { destruct (parse_text_shape _ _ Hparse) as (tags & content & [->|[call ->]]).
    - now apply postprocess_plain.
    - rewrite (postprocess_call _ _ _ _ _ _ _ Hparse).
      unfold loggable in Hlog. cbn in Hlog. now destruct call. }
  rewrite Hpost. eexists. split; [reflexivity|].
  cbn [stored intent_cache after_llm clock_reads]. rewrite Hc.
  split; [reflexivity|]. apply dict_get_set_same.
Qed.

(** C3. When decoding the serialized intent (line 138) fails with
    [json.JSONDecodeError] in [detect_intent], the call returns exactly the
    fallback literal and the fallback is not inserted into the cache:
    nothing is stored, every entry of the cache after the call was in the
    cache before it, the cache being as [clean_cache], run before the LLM
    was asked, left it. The decoder of line 138 is the parameter [decode]:
    the statement holds for every decoder, [json.loads] among them. *)
Theorem decode_failure_falls_back decode conn text st client key st1 prompt
    raw parsed :
  misses clock text st client key st1 ->
  answered conn client text st1 prompt raw ->
  parse_text (strip raw) = Ok parsed ->
  decode (json_dumps (JObj parsed)) = Err JSONDecodeError ->
  exists st',
    detect_intent_with clock decode conn text st = (Ok fallback_intent, st')
    /\ intent_cache st'
       = clean_cache_at (clock (clock_reads st1)) (intent_cache st)
    /\ incl (intent_cache st') (intent_cache st)
    /\ llm_calls st' = llm_calls st ++ [(prompt, text)].
Proof.
  intros Hm Ha Hparse Hdec.
  rewrite (detect_answered _ _ _ _ _ _ _ _ _ _ Hm Ha).
  rewrite (postprocess_decode_failure _ _ _ _ _ _ Hparse Hdec).
  destruct (misses_keeps _ _ _ _ _ _ Hm) as [Hc Hcalls].
  eexists. split; [reflexivity|].
  cbn [intent_cache with_reads after_llm llm_calls]. rewrite Hc, Hcalls.
  split; [reflexivity|]. split; [|reflexivity].
  intros kv Hin. apply clean_cache_at_incl in Hin. now apply fresh_age in Hin.
Qed.

(** C8. When the text in the [<tool_call>] region of the answer of the LLM
    is not valid JSON for [json.loads], the [json.JSONDecodeError] raised
    in [parse_text] leaves [detect_intent] uncaught: the call does not
    return the fallback intent, and nothing is stored, the cache being as
    [clean_cache] left it. *)
Theorem tool_call_error_propagates conn text st client key st1 prompt raw :
  misses clock text st client key st1 ->
  answered conn client text st1 prompt raw ->
  json_loads (group_or_empty (lit "<tool_call>") (lit "</tool_call>") (strip raw))
  = Err JSONDecodeError ->
  exists st',
    detect_intent clock conn text st = (Err JSONDecodeError, st')
    /\ intent_cache st'
       = clean_cache_at (clock (clock_reads st1)) (intent_cache st).
Proof.
  intros Hm Ha Hbad. unfold detect_intent.
  rewrite (detect_answered _ _ _ _ _ _ _ _ _ _ Hm Ha).
  rewrite (postprocess_parse_error _ _ _ _ _ _ (parse_text_loads_error _ _ Hbad)).
  destruct (misses_keeps _ _ _ _ _ _ Hm) as [Hc _].
  eexists. split; [reflexivity|]. cbn. now rewrite Hc.
Qed.

(** C5, amended. After a call of [detect_intent] that gets past the lookup
    without a hit, whether it returns or raises, the cache holds no entry
    older than 600 seconds at the reading of the clock [clean_cache] took,
    provided the clock does not run backwards. (A call answered from the
    cache purges nothing.) *)
Theorem miss_purges_expired conn text st client key st1 r st' :
  misses clock text st client key st1 ->
  (forall i j, (i <= j)%nat -> clock i <= clock j) ->
  detect_intent clock conn text st = (r, st') ->
  Forall (fun kv => clock (clock_reads st1) - timestamp (snd kv) <= 600)
    (intent_cache st').
Proof.
  intros Hm Hmono Hrun. unfold detect_intent in Hrun.
  rewrite (detect_miss _ _ _ _ _ _ _ _ Hm) in Hrun.
  assert (Hclean : forall kv,
    In kv (clean_cache_at (clock (clock_reads st1)) (intent_cache st1)) ->
    clock (clock_reads st1) - timestamp (snd kv) <= 600).
  { intros kv Hin. apply clean_cache_at_incl in Hin.
    now apply fresh_age in Hin. }
  apply Forall_forall. intros kv Hin.
  apply miss_path_cache in Hrun as [Hc|(i & t & Hc & _ & Ht)];
    rewrite Hc in Hin.
  - now apply Hclean.
  - apply dict_set_In in Hin as [Hin|Hnew]; [now apply Hclean|].
    rewrite Hnew. cbn [timestamp]. subst t.
    pose proof (Hmono (clock_reads st1) (5 + clock_reads st1)%nat ltac:(lia)).
    lia.
Qed.

End MissClaims.

(* ------------------------------------------------------------------ *)
(** * Further properties of [clean_cache] *)

Lemma filter_none {A} (f : A -> bool) (l : list A) :
  Forall (fun x => f x = false) l -> filter f l = [].
Proof.
  induction 1 as [|x l Hx _ IH]; cbn; [reflexivity|]. now rewrite Hx.
Qed.

Lemma clean_cache_at_noop now (c : cache) :
  Forall (fun kv => now - timestamp (snd kv) <= 600) c ->
  (List.length c <= 100)%nat ->
  clean_cache_at now c = c.
Proof.
  intros Hfresh Hlen. unfold clean_cache_at.
  rewrite filter_none.
  - cbn [map fold_left].
    destruct (Nat.ltb_spec cache_max_size (List.length c)); [|reflexivity].
    unfold cache_max_size in *. lia.
  - eapply Forall_impl; [|exact Hfresh]. intros kv H. cbn beta in H.
    unfold expired, cache_expiry. rewrite Z.gtb_ltb. apply Z.ltb_ge. exact H.
Qed.

Lemma clean_cache_at_filter now (c : cache) :
  exists keep, clean_cache_at now c = filter keep c.
Proof.
  unfold clean_cache_at. rewrite fold_dict_del.
  destruct (_ <? _)%nat; [|eauto].
  rewrite fold_dict_del_items, filter_filter. eauto.
Qed.

Lemma clean_cache_at_length now (c : cache) :
  dict_wf c -> (List.length (clean_cache_at now c) <= 100)%nat.
Proof.
  intros Hwf.
  destruct (Nat.leb_spec (List.length (fresh now c)) cache_max_size) as [Hle|Hgt].
  - rewrite clean_cache_at_small by assumption. exact Hle.
  - destruct (clean_cache_at_large now c Hwf Hgt) as [_ Hperm].
    rewrite (Permutation_length Hperm), length_skipn.
    rewrite (Permutation_length (sorted_by_timestamp_perm _)).
    unfold cache_max_size in *. lia.
Qed.

(** X1. When no entry is older than 600 seconds and the cache holds at most
    100 entries, [clean_cache] changes nothing but the clock. *)
Theorem clean_cache_leaves_fresh_cache clock (st : State) :
  Forall (fun kv => clock (clock_reads st) - timestamp (snd kv) <= 600)
    (intent_cache st) ->
  (List.length (intent_cache st) <= 100)%nat ->
  clean_cache clock st = (Ok tt, with_reads (S (clock_reads st)) st).
Proof.
  intros Hfresh Hlen. rewrite clean_cache_run.
  now rewrite clean_cache_at_noop.
Qed.

(** X2. [clean_cache] only deletes: what it leaves is the cache it found
    with some entries taken out, the others in their order and with their
    values. *)
Theorem clean_cache_only_deletes clock (st : State) :
  exists keep,
    intent_cache (snd (clean_cache clock st))
    = filter keep (intent_cache st).
Proof.
  rewrite clean_cache_run. cbn [snd intent_cache with_cache].
  apply clean_cache_at_filter.
Qed.

(** X3. Cleaning twice while the clock shows the same time is cleaning
    once. *)
Theorem clean_cache_idempotent clock (st : State) :
  dict_wf (intent_cache st) ->
  clock (S (clock_reads st)) = clock (clock_reads st) ->
  intent_cache (snd (clean_cache clock (snd (clean_cache clock st))))
  = intent_cache (snd (clean_cache clock st)).
Proof.
  intros Hwf Hclock. rewrite !clean_cache_run.
  cbn [snd intent_cache with_cache with_reads clock_reads]. rewrite Hclock.
  apply clean_cache_at_noop.
  - apply Forall_forall. intros kv Hin.
    apply clean_cache_at_incl in Hin. now apply fresh_age in Hin.
  - now apply clean_cache_at_length.
Qed.

Lemma before_In {A : Type} (a b : A) l : before a b l -> In a l /\ In b l.
Proof.
  induction 1 as [l Hb|x l _ [IHa IHb]]; cbn; auto.
Qed.

Lemma before_filter {A : Type} (f : A -> bool) (a b : A) l :
  before a b l -> f a = true -> f b = true -> before a b (filter f l).
Proof.
  intros H Ha Hb. induction H as [l Hin|x l _ IH]; cbn.
  - rewrite Ha. constructor. apply filter_In. now split.
  - destruct (f x); [now constructor|assumption].
Qed.

Lemma before_skipn {A : Type} (a b : A) l n :
  NoDup l -> before a b l -> In a (skipn n l) -> In b (skipn n l).
Proof.
  intros Hnd H. revert n. induction H as [l Hin|x l H IH]; intros [|n]; cbn.
  - intros _. now right.
  - intros Ha. exfalso. inversion Hnd as [|? ? Hnot _]; subst.
    apply Hnot. revert Ha. clear. revert n. induction l as [|y l IHl]; intros [|n]; cbn; auto.
    intros H. right. now apply (IHl n).
  - intros _. right. now apply before_In in H.
  - inversion Hnd; subst. now apply IH.
Qed.

Lemma insert_by_timestamp_In x l y :
  In y (insert_by_timestamp x l) <-> y = x \/ In y l.
Proof.
  induction l as [|z l IH]; cbn.
  - intuition congruence.
  - destruct (_ <=? _); cbn; [intuition congruence|].
    rewrite IH. intuition congruence.
Qed.

Lemma insert_by_timestamp_keeps x l a b :
  before a b l -> before a b (insert_by_timestamp x l).
Proof.
  induction 1 as [l Hin|z l H IH]; cbn.
  - destruct (_ <=? _).
    + apply before_later. now constructor.
    + constructor. apply insert_by_timestamp_In. now right.
  - destruct (_ <=? _); [now repeat apply before_later|].
    now apply before_later.
Qed.

Lemma insert_by_timestamp_first x l b :
  In b l -> timestamp (snd x) <= timestamp (snd b) ->
  before x b (insert_by_timestamp x l).
Proof.
  intros Hin Hle. induction l as [|z l IH]; [destruct Hin|]. cbn.
  destruct (Z.leb_spec (timestamp (snd x)) (timestamp (snd z))).
  - now constructor.
  - apply before_later. apply IH. destruct Hin as [->|Hin]; [lia|assumption].
Qed.

(** The sort is stable. *)
Lemma sorted_by_timestamp_stable l a b :
  before a b l -> timestamp (snd a) <= timestamp (snd b) ->
  before a b (sorted_by_timestamp l).
Proof.
  intros H Hle. induction H as [l Hin|x l _ IH]; cbn.
  - apply insert_by_timestamp_first; [|assumption].
    apply (Permutation_in _ (Permutation_sym (sorted_by_timestamp_perm l))).
    exact Hin.
  - now apply insert_by_timestamp_keeps.
Qed.

Lemma dict_wf_NoDup {V : Type} (d : dict V) : dict_wf d -> NoDup d.
Proof. apply NoDup_map_inv. Qed.

Lemma clean_cache_at_monotone now (c : cache) a b :
  dict_wf c -> before a b c ->
  timestamp (snd a) <= timestamp (snd b) ->
  In a (clean_cache_at now c) -> In b (clean_cache_at now c).
Proof.
  intros Hwf Hab Hle Ha.
  assert (Hfa : In a (fresh now c)) by now apply clean_cache_at_incl.
  assert (Hea : expired now a = false).
  { unfold fresh in Hfa. apply filter_In in Hfa as [_ H].
    now apply negb_true_iff in H. }
  assert (Heb : expired now b = false).
  { unfold expired in *. rewrite Z.gtb_ltb in *. apply Z.ltb_ge.
    apply Z.ltb_ge in Hea. lia. }
  assert (Hfab : before a b (fresh now c)).
  { apply before_filter; [assumption| |]; apply negb_true_iff; assumption. }
  destruct (Nat.leb_spec (List.length (fresh now c)) cache_max_size) as [Hs|Hl].
  - rewrite clean_cache_at_small by assumption. now apply before_In in Hfab.
  - destruct (clean_cache_at_large now c Hwf Hl) as [_ Hperm].
    apply (Permutation_in _ (Permutation_sym Hperm)).
    apply (Permutation_in _ Hperm) in Ha. revert Ha.
    apply before_skipn.
    + apply (Permutation_NoDup (Permutation_sym (sorted_by_timestamp_perm _))).
      apply dict_wf_NoDup. unfold fresh. now apply dict_wf_filter.
    + now apply sorted_by_timestamp_stable.
Qed.

(** X21. Eviction follows age, then insertion order: when an entry survives
    [clean_cache], so does every entry inserted after it that is not older
    than it. Among entries stored at the same time, those inserted first
    go first. *)
Theorem eviction_order clock (st : State) a b :
  dict_wf (intent_cache st) ->
  before a b (intent_cache st) ->
  timestamp (snd a) <= timestamp (snd b) ->
  In a (intent_cache (snd (clean_cache clock st))) ->
  In b (intent_cache (snd (clean_cache clock st))).
Proof.
  rewrite clean_cache_run. cbn [snd intent_cache with_cache].
  apply clean_cache_at_monotone.
Qed.

(* ------------------------------------------------------------------ *)
(** * What a call does to the provider *)

Section DictMore.
Context {V : Type}.
Implicit Types (d : dict V) (k : pystr).

Lemma dict_set_length k v d :
  (List.length (dict_set k v d) <= S (List.length d))%nat.
Proof.
  induction d as [|[k' v'] d IH]; cbn; [lia|].
  destruct (str_eqb k k'); cbn; lia.
Qed.

Lemma dict_set_entry k v d kv :
  In kv (dict_set k v d) -> In kv d \/ kv = (k, v).
Proof.
  induction d as [|[k' v'] d IH]; cbn.
  - intros [<-|[]]. now right.
  - destruct (str_eqb k k') eqn:E; cbn.
    + apply str_eqb_eq in E. subst k'.
      intros [<-|H]; [now right|left; now right].
    + intros [<-|H]; [left; now left|].
      destruct (IH H); [left; now right|now right].
Qed.
End DictMore.

Section Frames.
Context {FM : FloatModel}.
Variable clock : nat -> Z.
Variable decode : pystr -> result json.

(** Post-processing asks no LLM and writes at most the entry of the key. *)
Lemma postprocess_frame key raw st r st' :
  postprocess clock decode key raw st = (r, st') ->
  llm st' = llm st /\ llm_calls st' = llm_calls st
  /\ (intent_cache st' = intent_cache st
      \/ exists i,
           r = Ok i
           /\ intent_cache st'
              = dict_set key {| intent := i; timestamp := clock (clock_reads st) |}
                  (intent_cache st)).
Proof.
  unfold postprocess. unfold bind at 1. unfold lift at 1.
  destruct (parse_text (strip raw)) as [parsed|e];
    [|intros H; injection H as <- <-; auto].
  destruct (decode _) as [data|e].
  - unfold bind at 1. unfold lift at 1.
    destruct (py_in _ data) as [[|]|e];
      [| |intros H; injection H as <- <-; auto].
    + unfold bind at 1. unfold lift at 1.
      destruct (py_getitem _ data) as [fd|e];
        [|intros H; injection H as <- <-; auto].
      unfold bind at 1. unfold lift at 1.
      destruct (py_get _ JNull fd) as [?|e];
        [|intros H; injection H as <- <-; auto].
      unfold bind at 1. unfold lift at 1.
      destruct (py_get _ _ fd) as [?|e];
        [|intros H; injection H as <- <-; auto].
      intros H; injection H as <- <-. cbn. repeat split. right. eauto.
    + intros H; injection H as <- <-. cbn. repeat split. right. eauto.
  - destruct e; intros H; injection H as <- <-; cbn; auto.
Qed.

(** The three ways [miss_path] ends. *)
Lemma miss_path_outcome conn client key text st r st' :
  miss_path clock decode conn client key text st = (r, st') ->
  (exists e,
     build_system_prompt conn = Err e /\ r = Err e
     /\ st' = with_cache (clean_cache_at (clock (clock_reads st)) (intent_cache st))
                (with_reads (S (clock_reads st)) st))
  \/ (exists prompt e,
        build_system_prompt conn = Ok prompt
        /\ response_no_stream client (List.length (llm_calls st)) prompt text = Err e
        /\ r = Err e
        /\ llm st' = llm st
        /\ intent_cache st'
           = clean_cache_at (clock (clock_reads st)) (intent_cache st)
        /\ llm_calls st' = llm_calls st ++ [(prompt, text)])
  \/ (exists prompt raw,
        answered conn client text st prompt raw
        /\ postprocess clock decode key raw (after_llm clock st prompt text)
           = (r, st')).
Proof.
  destruct (build_system_prompt conn) as [prompt|e] eqn:Hp.
  - destruct (response_no_stream client (List.length (llm_calls st)) prompt text)
      as [raw|e] eqn:Hr.
    + rewrite (miss_path_run _ _ _ _ _ _ _ _ _ Hp Hr). intros H.
      right. right. exists prompt, raw. split; [now split|exact H].
    + unfold miss_path.
      unfold bind at 1. rewrite clean_cache_run.
      unfold bind at 1. unfold lift at 1. rewrite Hp.
      unfold bind at 1. unfold time_time at 1.
      unfold bind at 1. unfold time_time at 1.
      unfold bind at 1. unfold call_llm at 1.
      cbn [llm_calls with_reads with_cache]. rewrite Hr.
      intros H. injection H as <- <-. right. left. exists prompt, e.
      split; [reflexivity|]. split; [exact Hr|]. repeat split.
  - unfold miss_path.
    unfold bind at 1. rewrite clean_cache_run.
    unfold bind at 1. unfold lift at 1. rewrite Hp.
    intros H. injection H as <- <-. left. exists e. repeat split.
Qed.

End Frames.

Section CallProperties.
Context {FM : FloatModel}.
Variable clock : nat -> Z.

(** What any call does to the provider and to the log. *)
Lemma detect_frame conn text st r st' :
  detect_intent clock conn text st = (r, st') ->
  llm st' = llm st
  /\ (llm_calls st' = llm_calls st
      \/ exists prompt,
           build_system_prompt conn = Ok prompt
           /\ llm_calls st' = llm_calls st ++ [(prompt, text)])
  /\ (intent_cache st' = intent_cache st
      \/ exists now,
           intent_cache st' = clean_cache_at now (intent_cache st)
           \/ exists key i t,
                cache_key_of text = Ok key /\ r = Ok i
                /\ intent_cache st'
                   = dict_set key {| intent := i; timestamp := t |}
                       (clean_cache_at now (intent_cache st))).
Proof.
  intros Hrun. unfold detect_intent in Hrun.
  destruct (detect_cases clock json_loads conn text st)
    as [Hnone|[(client & e & Hllm & Hkey)
              |[(client & key & e & Hllm & Hkey & _ & _ & Hhit)
               |(client & key & st1 & Hm)]]].
  - rewrite (detect_without_llm _ _ _ _ _ Hnone) in Hrun.
    injection Hrun as <- <-. auto.
  - rewrite (detect_encode_error _ _ _ _ _ _ _ Hllm Hkey) in Hrun.
    injection Hrun as <- <-. cbn. auto.
  - rewrite Hhit in Hrun. injection Hrun as <- <-. cbn. auto.
  - rewrite (detect_miss _ _ _ _ _ _ _ _ Hm) in Hrun.
    destruct Hm as (_ & Hkey & Hl).
    apply lookup_keeps in Hl as (Hc & Hcalls & Hllm & _).
    cbn [intent_cache llm_calls llm with_reads] in Hc, Hcalls, Hllm.
    apply miss_path_outcome in Hrun
      as [(e & _ & -> & ->)
         |[(prompt & e & Hp & _ & -> & Hl' & Hc' & Hcalls')
          |(prompt & raw & [Hp _] & Hpost)]].
    + cbn. rewrite Hc, Hcalls, Hllm. split; [reflexivity|].
      split; [now left|]. right. eexists. left. reflexivity.
    + rewrite Hl', Hc', Hcalls', Hc, Hcalls, Hllm. split; [reflexivity|].
      split; [right; eauto|]. right. eexists. left. reflexivity.
    + apply postprocess_frame in Hpost as (Hl' & Hcalls' & Hcache).
      cbn [after_llm llm llm_calls intent_cache clock_reads] in *.
      rewrite Hl', Hcalls', Hcalls, Hllm. split; [reflexivity|].
      split; [right; eauto|]. right. exists (clock (clock_reads st1)).
      rewrite <- Hc.
      destruct Hcache as [->|(i & -> & ->)]; [now left|].
      right. exists key, i. eauto.
Qed.

(** X4. Calls keep the cache a dictionary of at most 101 entries:
    [clean_cache] cuts it to 100 before the LLM is asked, and one entry may
    be stored after. *)
Theorem cache_size_invariant conn text st r st' :
  dict_wf (intent_cache st) ->
  (List.length (intent_cache st) <= 101)%nat ->
  detect_intent clock conn text st = (r, st') ->
  dict_wf (intent_cache st')
  /\ (List.length (intent_cache st') <= 101)%nat.
Proof.
  intros Hwf Hlen Hrun.
  split; [exact (detect_intent_keeps_wf clock json_loads conn text st r st' Hwf Hrun)|].
  apply detect_frame in Hrun as (_ & _ & [->|(now & [->|(key & i & t & _ & _ & ->)])]).
  - exact Hlen.
  - pose proof (clean_cache_at_length now _ Hwf). lia.
  - pose proof (clean_cache_at_length now _ Hwf).
    pose proof (dict_set_length key {| intent := i; timestamp := t |}
                  (clean_cache_at now (intent_cache st))). lia.
Qed.

(** X5. A call asks the LLM at most once, with the text as it came as user
    prompt and the prompt built from the tool registry as system prompt; it
    never retries. *)
Theorem llm_asked_at_most_once conn text st r st' :
  detect_intent clock conn text st = (r, st') ->
  llm_calls st' = llm_calls st
  \/ exists prompt,
       build_system_prompt conn = Ok prompt
       /\ llm_calls st' = llm_calls st ++ [(prompt, text)].
Proof. intros Hrun. now apply detect_frame in Hrun as (_ & H & _). Qed.

(** X6. A call that raises stores nothing: every entry of the cache after
    it was in the cache before. *)
Theorem failing_call_stores_nothing conn text st e st' :
  detect_intent clock conn text st = (Err e, st') ->
  incl (intent_cache st') (intent_cache st).
Proof.
  intros Hrun.
  apply detect_frame in Hrun as (_ & _ & [->|(now & [->|(key & i & t & _ & H & _)])]).
  - apply incl_refl.
  - intros kv Hin. apply clean_cache_at_incl in Hin. now apply fresh_age in Hin.
  - discriminate H.
Qed.

(** X7. A call writes under the key of its own text only: an entry of the
    cache after the call is an entry of the cache before it, or the entry
    of the returned intent under the MD5 key of the text. *)
Theorem only_own_key_written conn text st r st' kv :
  detect_intent clock conn text st = (r, st') ->
  In kv (intent_cache st') ->
  In kv (intent_cache st)
  \/ exists key i,
       cache_key_of text = Ok key /\ r = Ok i
       /\ fst kv = key /\ intent (snd kv) = i.
Proof.
  intros Hrun Hin.
  apply detect_frame in Hrun
    as (_ & _ & [Hc|(now & [Hc|(key & i & t & Hkey & Hr & Hc)])]);
    rewrite Hc in Hin.
  - now left.
  - left. apply clean_cache_at_incl in Hin. now apply fresh_age in Hin.
  - apply dict_set_entry in Hin as [Hin| ->].
    + left. apply clean_cache_at_incl in Hin. now apply fresh_age in Hin.
    + right. exists key, i. now repeat split.
Qed.

(** X8. What a call returns is in the cache when it ends, under the MD5
    key of the text; and the same text asked again while that entry is at
    most 600 seconds old gets the same answer from the cache, whatever the
    connection then is, without the LLM. *)
Theorem repeated_call_hits conn conn' text st r st' :
  detect_intent clock conn text st = (Ok r, st') ->
  exists key e,
    cache_key_of text = Ok key
    /\ dict_get key (intent_cache st') = Some e
    /\ intent e = r
    /\ (clock (S (clock_reads st')) - timestamp e <= 600 ->
        exists st'',
          detect_intent clock conn' text st' = (Ok r, st'')
          /\ llm_calls st'' = llm_calls st'
          /\ intent_cache st'' = intent_cache st').
Proof.
  intros Hrun.
  assert (Hfirst : exists client key e,
            llm st' = Some client /\ cache_key_of text = Ok key
            /\ dict_get key (intent_cache st') = Some e /\ intent e = r).
  { unfold detect_intent in Hrun.
    destruct (detect_cases clock json_loads conn text st)
      as [Hnone|[(client & e & Hllm & Hkey)
                |[(client & key & e & Hllm & Hkey & Hget & _ & Hhit)
                 |(client & key & st1 & Hm)]]].
    - rewrite (detect_without_llm _ _ _ _ _ Hnone) in Hrun. discriminate.
    - rewrite (detect_encode_error _ _ _ _ _ _ _ Hllm Hkey) in Hrun.
      discriminate.
    - rewrite Hhit in Hrun. injection Hrun as <- <-.
      exists client, key, e. repeat split; assumption.
    - rewrite (detect_miss _ _ _ _ _ _ _ _ Hm) in Hrun.
      destruct Hm as (Hllm & Hkey & Hl).
      apply lookup_keeps in Hl as (_ & _ & Hllm1 & _).
      cbn [llm with_reads] in Hllm1.
      apply miss_path_ok in Hrun as (prompt & raw & parsed & _ & _ & -> & ->).
      eexists client, key, _. cbn [stored llm intent_cache after_llm].
      split; [congruence|]. split; [assumption|].
      split; [apply dict_get_set_same|reflexivity]. }
  destruct Hfirst as (client & key & e & Hllm & Hkey & Hget & He).
  exists key, e. repeat (split; [assumption|]). intros Hage.
  unfold detect_intent. rewrite (detect_with_llm _ _ _ _ _ _ _ Hllm Hkey).
  rewrite (lookup_fresh _ _ _ e) by assumption.
  rewrite He. eexists. split; [reflexivity|]. split; reflexivity.
Qed.

(** X9. Once the lookup has missed, a failure while the prompt is built
    (the music handler, the tool registry) ends the call with that error
    before the LLM is asked; the cache is as [clean_cache] left it. *)
Theorem prompt_failure_propagates conn text st client key st1 e :
  misses clock text st client key st1 ->
  build_system_prompt conn = Err e ->
  exists st',
    detect_intent clock conn text st = (Err e, st')
    /\ llm_calls st' = llm_calls st
    /\ intent_cache st'
       = clean_cache_at (clock (clock_reads st1)) (intent_cache st).
Proof.
  intros Hm Hp. unfold detect_intent.
  rewrite (detect_miss _ _ _ _ _ _ _ _ Hm).
  destruct (misses_keeps _ _ _ _ _ _ Hm) as [Hc Hcalls].
  destruct (miss_path clock json_loads conn client key text st1) as [r st'] eqn:E.
  apply miss_path_outcome in E
    as [(e' & Hp' & -> & ->)
       |[(prompt & e' & Hp' & _)|(prompt & raw & [Hp' _] & _)]];
    try congruence.
  assert (e' = e) by congruence. subst e'.
  eexists. split; [reflexivity|]. cbn. now rewrite Hc, Hcalls.
Qed.

(** X10. An exception of the LLM client leaves [detect_intent] as it is:
    the client was asked once, nothing is stored, the cache is as
    [clean_cache] left it. *)
Theorem llm_failure_propagates conn text st client key st1 prompt e :
  misses clock text st client key st1 ->
  build_system_prompt conn = Ok prompt ->
  response_no_stream client (List.length (llm_calls st1)) prompt text = Err e ->
  exists st',
    detect_intent clock conn text st = (Err e, st')
    /\ llm_calls st' = llm_calls st ++ [(prompt, text)]
    /\ intent_cache st'
       = clean_cache_at (clock (clock_reads st1)) (intent_cache st).
Proof.
  intros Hm Hp Hr. unfold detect_intent.
  rewrite (detect_miss _ _ _ _ _ _ _ _ Hm).
  destruct (misses_keeps _ _ _ _ _ _ Hm) as [Hc Hcalls].
  destruct (miss_path clock json_loads conn client key text st1) as [r st'] eqn:E.
  apply miss_path_outcome in E
    as [(e' & Hp' & _)
       |[(prompt' & e' & Hp' & Hr' & -> & _ & Hc' & Hcalls')
        |(prompt' & raw & [Hp' Hr'] & _)]];
    try congruence.
  assert (prompt' = prompt) by congruence. subst prompt'.
  assert (e' = e) by congruence. subst e'.
  eexists. split; [reflexivity|]. now rewrite Hc', Hcalls', Hc, Hcalls.
Qed.

(** X11. When the first candidate of the answer is not a JSON object (a
    number, a string, an array, [null]), the call raises [AttributeError]
    where it logs the call, after the LLM was asked and before anything is
    stored. *)
Theorem non_object_call_raises conn text st client key st1 prompt raw tags
    call content :
  misses clock text st client key st1 ->
  answered conn client text st1 prompt raw ->
  parse_text (strip raw) = Ok (call_result tags call content) ->
  (forall members, call <> JObj members) ->
  exists st',
    detect_intent clock conn text st = (Err AttributeError, st')
    /\ llm_calls st' = llm_calls st ++ [(prompt, text)]
    /\ intent_cache st'
       = clean_cache_at (clock (clock_reads st1)) (intent_cache st).
Proof.
  intros Hm Ha Hparse Hcall. unfold detect_intent.
  rewrite (detect_answered _ _ _ _ _ _ _ _ _ _ Hm Ha).
  rewrite (postprocess_call _ _ _ _ _ _ _ Hparse).
  destruct (misses_keeps _ _ _ _ _ _ Hm) as [Hc Hcalls].
  destruct call;
    try (eexists; split; [reflexivity|]; cbn; now rewrite Hc, Hcalls).
  now destruct (Hcall members).
Qed.

(** X12. A call answered from the cache consults neither the music
    handler nor the tool registry: it gives the same result and state
    whatever the connection is. *)
Theorem hit_ignores_connection conn conn' text st client key e :
  llm st = Some client ->
  cache_key_of text = Ok key ->
  dict_get key (intent_cache st) = Some e ->
  clock (S (clock_reads st)) - timestamp e <= 600 ->
  detect_intent clock conn text st = detect_intent clock conn' text st.
Proof.
  intros Hllm Hkey Hget Hage. unfold detect_intent.
  rewrite !(detect_with_llm _ _ _ _ _ _ _ Hllm Hkey).
  now rewrite (lookup_fresh _ _ _ e) by assumption.
Qed.

End CallProperties.

(* ------------------------------------------------------------------ *)
(** * The tagged regions *)

Lemma strip_prefix_sound p s r : strip_prefix p s = Some r -> s = p ++ r.
Proof.
  revert s. induction p as [|x p IH]; intros [|y s]; cbn; try discriminate.
  - now intros [= <-].
  - now intros [= <-].
  - destruct (N.eqb_spec x y) as [->|]; [|discriminate].
    intros H. now rewrite (IH _ H).
Qed.

Lemma strip_prefix_complete p r : strip_prefix p (p ++ r) = Some r.
Proof.
  induction p as [|c p IH]; [now destruct r|].
  cbn [app strip_prefix]. now rewrite N.eqb_refl.
Qed.

Lemma find_sound p s b a : find p s = Some (b, a) -> s = b ++ p ++ a.
Proof.
  revert b a. induction s as [|c s IH]; intros b a; cbn [find].
  - destruct (strip_prefix p []) as [r|] eqn:E; [|discriminate].
    intros [= <- <-]. cbn [app]. now apply strip_prefix_sound.
  - destruct (strip_prefix p (c :: s)) as [r|] eqn:E.
    + intros [= <- <-]. cbn [app]. now apply strip_prefix_sound.
    + destruct (find p s) as [[b0 a0]|]; [|discriminate].
      intros [= <- <-]. cbn. f_equal. now apply IH.
Qed.

Lemma find_leftmost p s b a b' a' :
  find p s = Some (b, a) -> s = b' ++ p ++ a' ->
  (List.length b <= List.length b')%nat.
Proof.
  revert b a b'. induction s as [|c s IH]; intros b a b'; cbn [find].
  - destruct (strip_prefix p []) as [r|]; [|discriminate].
    intros [= <- <-] _. cbn. lia.
  - destruct (strip_prefix p (c :: s)) as [r|] eqn:E.
    + intros [= <- <-] _. cbn. lia.
    + destruct (find p s) as [[b0 a0]|] eqn:F; [|discriminate].
      intros [= <- <-] Hs. destruct b' as [|c' b''].
      * cbn in Hs. rewrite Hs, strip_prefix_complete in E. discriminate.
      * injection Hs as -> Hs. cbn. specialize (IH b0 a0 b'' eq_refl Hs). lia.
Qed.

Lemma find_none p s b a : find p s = None -> s <> b ++ p ++ a.
Proof.
  revert b. induction s as [|c s IH]; intros b; cbn [find].
  - destruct (strip_prefix p []) as [r|] eqn:E; [discriminate|].
    intros _ Hs. destruct b; [|discriminate].
    cbn in Hs. rewrite Hs, strip_prefix_complete in E. discriminate.
  - destruct (strip_prefix p (c :: s)) as [r|] eqn:E; [discriminate|].
    destruct (find p s) as [[b0 a0]|] eqn:F; [discriminate|].
    intros _ Hs. destruct b as [|c' b''].
    + cbn in Hs. rewrite Hs, strip_prefix_complete in E. discriminate.
    + injection Hs as -> Hs. now apply (IH b'').
Qed.

(** X13. The region a pattern [<tag>(.*?)</tag>] captures lies between the
    first opening tag of the text and the first closing tag after it; and
    nothing is captured exactly when the text has no opening tag with a
    closing tag somewhere after it. *)
Theorem region_between_first_tags (open close text : pystr) :
  (forall g,
     re_search_group open close text = Some g ->
     exists pre post,
       text = pre ++ open ++ g ++ close ++ post
       /\ (forall pre' rest,
             text = pre' ++ open ++ rest ->
             (List.length pre <= List.length pre')%nat)
       /\ (forall g' post',
             g ++ close ++ post = g' ++ close ++ post' ->
             (List.length g <= List.length g')%nat))
  /\ (re_search_group open close text = None <->
      forall pre g post, text <> pre ++ open ++ g ++ close ++ post).
Proof.
  unfold re_search_group. split; [|split].
  - intros g H.
    destruct (find open text) as [[pre after]|] eqn:Fo; [|discriminate].
    destruct (find close after) as [[g0 post]|] eqn:Fc; [|discriminate].
    injection H as <-. exists pre, post.
    apply find_sound in Fo as Ho. apply find_sound in Fc as Hc.
    split; [now rewrite Ho, Hc|]. split.
    + intros pre' rest Ht. now apply (find_leftmost open text pre after pre' rest).
    + intros g' post' Hg.
      apply (find_leftmost close after g0 post g' post' Fc). congruence.
  - intros H pre g post Ht.
    destruct (find open text) as [[b a]|] eqn:Fo.
    + destruct (find close a) as [[g0 post0]|] eqn:Fc; [discriminate|].
      pose proof (find_leftmost open text b a pre (g ++ close ++ post) Fo Ht) as Hlen.
      apply find_sound in Fo as Ho.
      assert (Hx : exists x, a = x ++ close ++ post).
      { set (n := List.length (b ++ open)).
        assert (Ha : skipn n text = a).
        { rewrite Ho, app_assoc, skipn_app. unfold n.
          rewrite skipn_all, Nat.sub_diag. reflexivity. }
        assert (Hn : (n <= List.length (pre ++ open))%nat)
          by (unfold n; rewrite !length_app; lia).
        rewrite Ht, (app_assoc pre open), skipn_app in Ha.
        replace (n - List.length (pre ++ open))%nat with 0%nat in Ha by lia.
        cbn [skipn] in Ha. exists (skipn n (pre ++ open) ++ g).
        rewrite <- Ha, <- app_assoc. reflexivity. }
      destruct Hx as (x & Ha). now apply (find_none close a x post).
    + now apply (find_none open text pre (g ++ close ++ post)).
  - intros H.
    destruct (find open text) as [[b a]|] eqn:Fo; [|reflexivity].
    destruct (find close a) as [[g0 post0]|] eqn:Fc; [|reflexivity].
    exfalso. apply find_sound in Fo. apply find_sound in Fc.
    apply (H b g0 post0). now rewrite Fo, Fc.
Qed.

(* ------------------------------------------------------------------ *)
(** * [parse_text] on any answer *)

Lemma lstrip_head s :
  match lstrip s with [] => True | c :: _ => isspace c = false end.
Proof.
  induction s as [|c s IH]; cbn; [exact I|].
  destruct (isspace c) eqn:E; [exact IH|exact E].
Qed.

Lemma lstrip_snoc s c :
  isspace c = false -> lstrip (s ++ [c]) = lstrip s ++ [c].
Proof.
  intros Hc. induction s as [|x s IH]; cbn; [now rewrite Hc|].
  destruct (isspace x); [exact IH|reflexivity].
Qed.

Lemma rstrip_cons c s : isspace c = false -> rstrip (c :: s) = c :: rstrip s.
Proof.
  intros Hc. unfold rstrip. cbn [rev]. rewrite lstrip_snoc by assumption.
  now rewrite rev_app_distr.
Qed.

Lemma strip_stripped s : stripped (strip s).
Proof.
  unfold stripped, strip. split.
  - pose proof (lstrip_head s) as H. destruct (lstrip s) as [|c r]; [exact I|].
    now rewrite rstrip_cons.
  - unfold rstrip. rewrite rev_involutive. apply lstrip_head.
Qed.

Section ParseMore.
Context {FM : FloatModel}.

(** X14. What [parse_text] does with a [<tool_call>] region that holds
    valid JSON: a number, a boolean or [null] raises [TypeError] (no
    [len]); an object with members raises [KeyError] (no key [0]); an empty
    array, object or string gives the result without [function_call]; a
    string gives its first character as [function_call], an array its
    first element. *)
Theorem parse_text_by_kind text tools :
  json_loads (group_or_empty (lit "<tool_call>") (lit "</tool_call>") text)
  = Ok tools ->
  let tags := group_or_empty (lit "<tags>") (lit "</tags>") text in
  let content := group_or_empty (lit "<content>") (lit "</content>") text in
  parse_text text
  = match tools with
    | JNull | JBool _ | JInt _ | JFloat _ => Err TypeError
    | JObj (_ :: _) => Err KeyError
    | JObj [] | JStr [] | JArr [] => Ok (plain_result tags content)
    | JStr (c :: _) => Ok (call_result tags (JStr [c]) content)
    | JArr (first :: _) => Ok (call_result tags first content)
    end.
Proof.
  intros H tags content. unfold parse_text. rewrite H. cbn [rbind].
  destruct tools as [| | | |[|c s]|[|x l]|[|kv d]]; reflexivity.
Qed.

(** X15. In every result of [parse_text], [tags] and [content] are strings
    without whitespace at either end, the empty string when the text has
    no such region. *)
Theorem parse_text_fields_stripped text parsed :
  parse_text text = Ok parsed ->
  exists tags content,
    dict_get (lit "tags") parsed = Some (JStr tags)
    /\ dict_get (lit "content") parsed = Some (JStr content)
    /\ stripped tags /\ stripped content
    /\ (re_search_group (lit "<tags>") (lit "</tags>") text = None -> tags = [])
    /\ (re_search_group (lit "<content>") (lit "</content>") text = None ->
        content = []).
Proof.
  intros H.
  assert (Hs : forall open close,
            stripped (group_or_empty open close text)
            /\ (re_search_group open close text = None ->
                group_or_empty open close text = [])).
  { intros open close. unfold group_or_empty.
    destruct (re_search_group open close text) as [g|].
    - split; [apply strip_stripped|discriminate].
    - split; [now split|reflexivity]. }
  exists (group_or_empty (lit "<tags>") (lit "</tags>") text),
         (group_or_empty (lit "<content>") (lit "</content>") text).
  assert (Hget :
    dict_get (lit "tags") parsed
    = Some (JStr (group_or_empty (lit "<tags>") (lit "</tags>") text))
    /\ dict_get (lit "content") parsed
       = Some (JStr (group_or_empty (lit "<content>") (lit "</content>") text))).
  { unfold parse_text in H.
    destruct (json_loads _) as [tools|e]; [|discriminate]. cbn [rbind] in H.
    destruct (py_len tools) as [n|e]; [|discriminate]. cbn [rbind] in H.
    destruct (Nat.eqb n 0).
    - injection H as <-. split; reflexivity.
    - destruct (py_first tools) as [first|e]; [|discriminate].
      injection H as <-. split; reflexivity. }
  destruct Hget as [Ht Hc].
  destruct (Hs (lit "<tags>") (lit "</tags>")) as [Hst Hnt].
  destruct (Hs (lit "<content>") (lit "</content>")) as [Hsc Hnc].
  split; [exact Ht|]. split; [exact Hc|]. split; [exact Hst|].
  split; [exact Hsc|]. split; [exact Hnt|exact Hnc].
Qed.

(** X16. The intent string [detect_intent] builds from a result of
    [parse_text] decodes to an object with the same keys in the same
    order and the same [tags] and [content], whatever characters these
    hold. *)
Theorem serialized_intent_decodes text parsed :
  parse_text text = Ok parsed ->
  exists decoded,
    json_loads (json_dumps (JObj parsed)) = Ok (JObj decoded)
    /\ map fst decoded = map fst parsed
    /\ dict_get (lit "tags") decoded = dict_get (lit "tags") parsed
    /\ dict_get (lit "content") decoded = dict_get (lit "content") parsed.
Proof.
  intros H. destruct (parse_text_shape _ _ H) as (tags & content & [->|[call ->]]).
  - exists (plain_result tags content). rewrite decode_plain. now repeat split.
  - destruct (decode_call tags call content) as (call' & -> & _).
    exists (call_result tags call' content). now repeat split.
Qed.

End ParseMore.

(** * The cache key *)

Lemma encode_char_error c e :
  MD5.encode_char c = Err e -> e = UnicodeEncodeError /\ is_surrogate c = true.
Proof.
  unfold MD5.encode_char, is_surrogate.
  destruct (Z.ltb_spec (Z.of_N c) 128); [discriminate|].
  destruct (Z.ltb_spec (Z.of_N c) 2048); [discriminate|].
  destruct (Z.leb_spec 55296 (Z.of_N c)), (Z.leb_spec (Z.of_N c) 57343);
    cbn [andb]; try (destruct (_ <? _); discriminate).
  intros [= <-]. split; [reflexivity|].
  apply andb_true_iff. split; apply N.leb_le; lia.
Qed.

Lemma encode_char_surrogate c :
  is_surrogate c = true -> MD5.encode_char c = Err UnicodeEncodeError.
Proof.
  unfold MD5.encode_char, is_surrogate. intros H.
  apply andb_true_iff in H as [H1 H2]. apply N.leb_le in H1, H2.
  destruct (Z.ltb_spec (Z.of_N c) 128); [lia|].
  destruct (Z.ltb_spec (Z.of_N c) 2048); [lia|].
  destruct (Z.leb_spec 55296 (Z.of_N c)); [|lia].
  destruct (Z.leb_spec (Z.of_N c) 57343); [|lia]. reflexivity.
Qed.

Lemma encode_result text :
  if existsb is_surrogate text
  then MD5.encode text = Err UnicodeEncodeError
  else exists bytes, MD5.encode text = Ok bytes.
Proof.
  induction text as [|c text IH]; cbn [existsb MD5.encode]; [eauto|].
  destruct (is_surrogate c) eqn:Hc; cbn [orb].
  - now rewrite encode_char_surrogate.
  - destruct (MD5.encode_char c) as [b|e] eqn:E.
    + destruct (existsb is_surrogate text).
      * now rewrite IH.
      * destruct IH as [bs ->]. eauto.
    + apply encode_char_error in E as [_ E]. congruence.
Qed.

Lemma hex_digit_lower n :
  0 <= n < 16 -> is_lower_hex (Z.to_N (MD5.hex_digit n)) = true.
Proof.
  intros H. unfold MD5.hex_digit, is_lower_hex.
  destruct (Z.ltb_spec n 10); apply orb_true_iff; [left|right];
    apply andb_true_iff; split; apply N.leb_le; lia.
Qed.

Lemma hexdigest_shape bs :
  Forall (fun b => 0 <= b < 256) bs ->
  List.length (MD5.hexdigest bs) = (2 * List.length bs)%nat
  /\ forallb is_lower_hex (MD5.hexdigest bs) = true.
Proof.
  unfold MD5.hexdigest. induction 1 as [|b bs Hb _ [IH1 IH2]]; [now split|].
  cbn [flat_map app List.length forallb]. rewrite IH1, IH2. split; [lia|].
  rewrite !hex_digit_lower; [reflexivity| |].
  - change 15 with (Z.ones 4). rewrite Z.land_ones by lia.
    apply Z.mod_pos_bound. lia.
  - rewrite Z.shiftr_div_pow2 by lia. change (2 ^ 4) with 16.
    split; [apply Z.div_pos; lia|apply Z.div_lt_upper_bound; lia].
Qed.

Lemma le_bytes_shape n x :
  List.length (MD5.le_bytes n x) = n
  /\ Forall (fun b => 0 <= b < 256) (MD5.le_bytes n x).
Proof.
  unfold MD5.le_bytes. split; [now rewrite length_map, length_seq|].
  apply Forall_forall. intros b Hb. apply in_map_iff in Hb as (i & <- & _).
  change 255 with (Z.ones 8). rewrite Z.land_ones by lia.
  apply Z.mod_pos_bound. lia.
Qed.

Lemma digest_shape msg :
  List.length (MD5.digest msg) = 16%nat
  /\ Forall (fun b => 0 <= b < 256) (MD5.digest msg).
Proof.
  unfold MD5.digest. destruct (MD5.blocks _ _ _) as [[[a b] c] d].
  rewrite !length_app, !Forall_app.
  destruct (le_bytes_shape 4 a) as [-> ?], (le_bytes_shape 4 b) as [-> ?],
    (le_bytes_shape 4 c) as [-> ?], (le_bytes_shape 4 d) as [-> ?].
  repeat split; assumption.
Qed.

(** X17. The cache key exists exactly for the texts that hold no
    surrogate code point ([str.encode] raises [UnicodeEncodeError] on the
    others), and it is a string of 32 characters among [0-9a-f]. *)
Theorem cache_key_shape text :
  (if existsb is_surrogate text
   then cache_key_of text = Err UnicodeEncodeError
   else exists key, cache_key_of text = Ok key)
  /\ (forall key,
        cache_key_of text = Ok key ->
        List.length key = 32%nat /\ forallb is_lower_hex key = true).
Proof.
  unfold cache_key_of. pose proof (encode_result text) as He. split.
  - destruct (existsb is_surrogate text).
    + now rewrite He.
    + destruct He as [bs ->]. eauto.
  - intros key H. destruct (MD5.encode text) as [bs|e]; [|discriminate].
    injection H as <-. destruct (digest_shape bs) as [Hl Hb].
    destruct (hexdigest_shape _ Hb) as [Hl' Hh]. rewrite Hl', Hl. now split.
Qed.

Section EncodeFailure.
Context {FM : FloatModel}.
Variable clock : nat -> Z.

(** X18. For a text with a surrogate code point and a provider with a
    client, [detect_intent] raises [UnicodeEncodeError] where it computes
    the cache key: the clock was read once, the cache was not looked at
    and the LLM was not asked. *)
Theorem surrogate_text_raises conn text st client :
  llm st = Some client ->
  existsb is_surrogate text = true ->
  detect_intent clock conn text st
  = (Err UnicodeEncodeError, with_reads (S (clock_reads st)) st).
Proof.
  intros Hllm Hs. apply (detect_encode_error _ _ _ _ _ client); [assumption|].
  unfold cache_key_of. pose proof (encode_result text) as He.
  rewrite Hs in He. now rewrite He.
Qed.

End EncodeFailure.

(* ------------------------------------------------------------------ *)
(** * The prompt and the text of the intent *)

Lemma escape_char_plain c : needs_escape c = false -> escape_char c = [c].
Proof.
  unfold needs_escape, escape_char. intros H.
  apply orb_false_iff in H as [H H3]. apply orb_false_iff in H as [H1 H2].
  rewrite H1, H2, H3.
  apply N.ltb_ge in H3.
  repeat match goal with
         | |- context [(c =? ?n)%N] =>
             destruct (N.eqb_spec c n); [lia|]
         end.
  reflexivity.
Qed.

Lemma encode_basestring_plain s :
  existsb needs_escape s = false -> encode_basestring s = 34%N :: s ++ [34%N].
Proof.
  unfold encode_basestring. intros H. f_equal. f_equal.
  induction s as [|c s IH]; [reflexivity|]. cbn [existsb] in H.
  apply orb_false_iff in H as [Hc Hs]. cbn [flat_map].
  rewrite (escape_char_plain _ Hc), (IH Hs). reflexivity.
Qed.

Section PromptAndText.
Context {FM : FloatModel}.
Variable clock : nat -> Z.

(** X19. When the answer of the LLM names no tool and its tags and
    content hold no double quote, backslash or control character, the
    intent returned is the text [{"tags": "T", "content": "C"}] with the
    tags and the content as they are, non-ASCII characters included. *)
Theorem plain_intent_text conn text st client key st1 prompt raw tags content :
  misses clock text st client key st1 ->
  answered conn client text st1 prompt raw ->
  parse_text (strip raw) = Ok (plain_result tags content) ->
  existsb needs_escape tags = false ->
  existsb needs_escape content = false ->
  fst (detect_intent clock conn text st)
  = Ok (qlit "{'tags': '" ++ tags ++ qlit "', 'content': '" ++ content
        ++ qlit "'}").
Proof.
  intros Hm Ha Hp Ht Hc. unfold detect_intent.
  rewrite (detect_answered _ _ _ _ _ _ _ _ _ _ Hm Ha).
  rewrite (postprocess_plain _ _ _ _ _ _ Hp). cbn [fst]. f_equal.
  unfold plain_result. cbn [json_dumps map join fst snd].
  rewrite (encode_basestring_plain tags Ht), (encode_basestring_plain content Hc).
  cbn. repeat (rewrite <- app_assoc; cbn). reflexivity.
Qed.

(** X20. The list of music files is looked up and never used, yet it has
    to be there: when the music handler gives a dictionary without the key
    [music_file_names], or a registered tool is a dictionary without the
    key [function], a call that misses the cache raises [KeyError] before
    the LLM is asked. *)
Theorem prompt_keys_required conn text st client key st1 :
  misses clock text st client key st1 ->
  (exists config,
     initialize_music_handler conn = Ok (JObj config)
     /\ dict_get (lit "music_file_names") config = None)
  \/ (exists config tools tool,
        initialize_music_handler conn = Ok (JObj config)
        /\ dict_mem (lit "music_file_names") config = true
        /\ get_functions conn = Ok tools
        /\ In (JObj tool) tools
        /\ dict_get (lit "function") tool = None
        /\ Forall (fun t => exists d, t = JObj d) tools) ->
  exists st',
    detect_intent clock conn text st = (Err KeyError, st')
    /\ llm_calls st' = llm_calls st.
Proof.
  intros Hm H.
  assert (Hp : build_system_prompt conn = Err KeyError).
  { unfold build_system_prompt.
    destruct H as [(config & -> & Hget)
                  |(config & tools & tool & -> & Hmem & -> & Hin & Hget & Hall)];
      cbn [rbind py_getitem].
    - now rewrite Hget.
    - unfold dict_mem in Hmem.
      destruct (dict_get (lit "music_file_names") config); [|discriminate].
      cbn [rbind].
      assert (Hmap : map_result (py_getitem (lit "function")) tools = Err KeyError).
      { clear Hmem. induction Hall as [|t tools [d ->] _ IH]; [destruct Hin|].
        cbn [map_result py_getitem].
        destruct (dict_get (lit "function") d) as [x|] eqn:Hd; [|reflexivity].
        cbn [rbind]. destruct Hin as [Heq|Hin]; [congruence|].
        now rewrite (IH Hin). }
      now rewrite Hmap. }
  unfold detect_intent. rewrite (detect_miss _ _ _ _ _ _ _ _ Hm).
  destruct (misses_keeps _ _ _ _ _ _ Hm) as [_ Hcalls].
  destruct (miss_path clock json_loads conn client key text st1) as [r st'] eqn:E.
  apply miss_path_outcome in E
    as [(e' & Hp' & -> & ->)
       |[(prompt & e' & Hp' & _)|(prompt & raw & [Hp' _] & _)]];
    try congruence.
  assert (e' = KeyError) by congruence. subst e'.
  eexists. split; [reflexivity|]. cbn. now rewrite Hcalls.
Qed.

End PromptAndText.

(* ------------------------------------------------------------------ *)
(** * Concrete runs *)


Lemma distinct_sound keys : distinct keys = true -> NoDup keys.
Proof.
  induction keys as [|k keys IH]; cbn; [constructor|]. intros H.
  apply andb_true_iff in H as [Hk Hd]. constructor; [|now apply IH].
  intros Hin. apply negb_true_iff in Hk.
  assert (existsb (str_eqb k) keys = true); [|congruence].
  apply existsb_exists. exists k. split; [assumption|apply str_eqb_refl].
Qed.

Lemma demo_clock_monotone i j : (i <= j)%nat -> demo_clock i <= demo_clock j.
Proof. unfold demo_clock. lia. Qed.

Example md5_empty :
  cache_key_of (lit "") = Ok (lit "d41d8cd98f00b204e9800998ecf8427e").
Proof. vm_compute. reflexivity. Qed.

Example md5_abc :
  cache_key_of (lit "abc") = Ok (lit "900150983cd24fb0d6963f7d28e17f72").
Proof. vm_compute. reflexivity. Qed.

Example md5_two_blocks :
  cache_key_of (repeat 97%N 120)
  = Ok (lit "5f61c0ccad4cac44c75ff505e1f1e537").
Proof. vm_compute. reflexivity. Qed.

Example md5_utf8 :
  cache_key_of [25773; 25918; 38899; 20048]%N
  = Ok (lit "a58dd302a34ff32735ae22774c501ff5").
Proof. vm_compute. reflexivity. Qed.

Example md5_play_x : cache_key_of play_x = Ok play_x_key.
Proof. vm_compute. reflexivity. Qed.

Example encode_lone_surrogate :
  cache_key_of [55357]%N = Err UnicodeEncodeError.
Proof. vm_compute. reflexivity. Qed.

Example loads_duplicate_keys :
  json_loads (qlit "{'a': 1, 'b': [], 'a': 2}")
  = Ok (JObj [(lit "a", JInt 2); (lit "b", JArr [])]).
Proof. vm_compute. reflexivity. Qed.

Example loads_trailing_comma : json_loads (qlit "[1,]") = Err JSONDecodeError.
Proof. vm_compute. reflexivity. Qed.

Example loads_nan_accepted :
  json_loads (qlit "[NaN]") = Ok (JArr [JFloat (lit "NaN")]).
Proof. vm_compute. reflexivity. Qed.

Example dumps_play :
  json_dumps (JObj (call_result (lit "music")
                      (JObj [(lit "name", JStr (lit "play"))]) (lit "hi")))
  = qlit "{'tags': 'music', 'function_call': {'name': 'play'}, 'content': 'hi'}".
Proof. vm_compute. reflexivity. Qed.

Example eviction_keeps_newest :
  map fst (intent_cache (snd (clean_cache demo_clock crowded)))
  = map (fun i => repr_int (Z.of_nat i)) (seq 50 100).
Proof. vm_compute. reflexivity. Qed.

(** Ties are broken by insertion order: the entry inserted first goes. *)
Example eviction_tie :
  map fst
    (clean_cache_at 1000
       ((lit "a", {| intent := []; timestamp := 700 |})
        :: (lit "b", {| intent := []; timestamp := 700 |})
        :: numbered_cache 99 800))
  = lit "b" :: map (fun i => repr_int (Z.of_nat i)) (seq 0 99).
Proof. vm_compute. reflexivity. Qed.

Lemma misses_play_x raw c :
  dict_get play_x_key c = None ->
  misses demo_clock play_x (demo_state raw c) (demo_client raw) play_x_key
    (with_reads 1 (demo_state raw c)).
Proof.
  intros H. split; [reflexivity|]. split; [exact md5_play_x|].
  now apply lookup_absent.
Qed.

Lemma answered_demo raw st1 :
  answered demo_conn (demo_client raw) play_x st1 demo_prompt raw.
Proof. split; reflexivity. Qed.

(** C1, at a concrete input. *)
Lemma detect_intent_cache_hit_witness :
  let st := demo_state answer_empty hit_cache in
  llm st = Some (demo_client answer_empty)
  /\ cache_key_of play_x = Ok play_x_key
  /\ dict_get play_x_key (intent_cache st)
     = Some {| intent := lit "cached"; timestamp := 500 |}
  /\ demo_clock 1 - 500 <= 600
  /\ exists st',
       detect_intent demo_clock demo_conn play_x st = (Ok (lit "cached"), st')
       /\ intent_cache st' = intent_cache st
       /\ llm_calls st' = llm_calls st.
Proof.
  assert (Hage : demo_clock 1 - 500 <= 600) by (vm_compute; discriminate).
  split; [reflexivity|]. split; [exact md5_play_x|].
  split; [reflexivity|]. split; [exact Hage|].
  exact (proj1 (detect_intent_cache_hit demo_clock demo_conn play_x
                  (demo_state answer_empty hit_cache) (demo_client answer_empty)
                  play_x_key {| intent := lit "cached"; timestamp := 500 |}
                  eq_refl md5_play_x eq_refl) Hage).
Defined.

(** C7, at a concrete input. *)
Lemma detect_intent_requires_llm_witness :
  llm init = None
  /\ detect_intent demo_clock demo_conn play_x init
     = (Err (ValueError (lit "LLM provider not set")), init).
Proof.
  split; [reflexivity|].
  exact (detect_intent_requires_llm demo_clock demo_conn play_x init eq_refl).
Defined.

(** C4, at a concrete input. *)
Lemma clean_cache_purges_and_bounds_witness :
  dict_wf (intent_cache crowded)
  /\ (List.length (intent_cache (snd (clean_cache demo_clock crowded))) <= 100)%nat.
Proof.
  assert (Hwf : dict_wf (intent_cache crowded))
    by (apply distinct_sound; vm_compute; reflexivity).
  split; [exact Hwf|].
  exact (proj2 (proj2 (proj2 (proj2
           (clean_cache_purges_and_bounds demo_clock crowded Hwf))))).
Defined.

(** C2, at a concrete input. *)
Lemma parse_text_tool_call_array_witness :
  re_search_group (lit "<tool_call>") (lit "</tool_call>") answer_play
  = Some (qlit "[{'name':'play','arguments':{'song':'x'}}]")
  /\ exists tags content,
       parse_text answer_play
       = Ok (call_result tags
               (JObj [(lit "name", JStr (lit "play"));
                      (lit "arguments", JObj [(lit "song", JStr (lit "x"))])])
               content).
Proof.
  assert (Hg : re_search_group (lit "<tool_call>") (lit "</tool_call>") answer_play
               = Some (qlit "[{'name':'play','arguments':{'song':'x'}}]"))
    by (vm_compute; reflexivity).
  split; [exact Hg|].
  refine (proj2 (proj2 parse_text_tool_call_array) answer_play _ Hg _).
  vm_compute. reflexivity.
Defined.

(** C10, at a concrete input: a region of blanks. *)
Lemma parse_text_needs_tool_call_witness :
  re_search_group (lit "<tool_call>") (lit "</tool_call>")
    (lit "<tool_call>  </tool_call>") = Some (lit "  ")
  /\ parse_text (lit "<tool_call>  </tool_call>") = Err JSONDecodeError.
Proof.
  assert (Hg : re_search_group (lit "<tool_call>") (lit "</tool_call>")
                 (lit "<tool_call>  </tool_call>") = Some (lit "  "))
    by (vm_compute; reflexivity).
  split; [exact Hg|].
  apply (proj1 (parse_text_needs_tool_call (lit "<tool_call>  </tool_call>"))).
  right. exists (lit "  "). split; [exact Hg|reflexivity].
Defined.

(** C9, at a concrete input. *)
Lemma fallback_unreachable_witness :
  no_fallback (intent_cache (demo_state answer_play []))
  /\ fst (detect_intent demo_clock demo_conn play_x (demo_state answer_play []))
     <> Ok fallback_intent.
Proof.
  assert (Hinv : no_fallback (intent_cache (demo_state answer_play [])))
    by constructor.
  split; [exact Hinv|].
  destruct (detect_intent demo_clock demo_conn play_x (demo_state answer_play []))
    as [[r|e] st'] eqn:E; [|discriminate].
  intros Heq. injection Heq as ->.
  exact (proj1 (proj2 (fallback_unreachable demo_clock) demo_conn play_x
                  (demo_state answer_play []) fallback_intent st' Hinv E)
           eq_refl).
Defined.

(** C8, at a concrete input. *)
Lemma tool_call_error_propagates_witness :
  json_loads (group_or_empty (lit "<tool_call>") (lit "</tool_call>")
                (strip answer_broken)) = Err JSONDecodeError
  /\ exists st',
       detect_intent demo_clock demo_conn play_x (demo_state answer_broken stale_cache)
       = (Err JSONDecodeError, st')
       /\ intent_cache st' = clean_cache_at (demo_clock 1) stale_cache.
Proof.
  assert (Hbad : json_loads (group_or_empty (lit "<tool_call>") (lit "</tool_call>")
                               (strip answer_broken)) = Err JSONDecodeError)
    by (vm_compute; reflexivity).
  split; [exact Hbad|].
  exact (tool_call_error_propagates demo_clock demo_conn play_x
           (demo_state answer_broken stale_cache) (demo_client answer_broken)
           play_x_key (with_reads 1 (demo_state answer_broken stale_cache))
           demo_prompt answer_broken
           (misses_play_x answer_broken stale_cache eq_refl)
           (answered_demo answer_broken _) Hbad).
Defined.

(** C3, at a concrete input: a decoder that rejects the serialized intent,
    and a cache holding one expired entry. *)
Lemma decode_failure_falls_back_witness :
  let st := demo_state answer_empty stale_cache in
  misses demo_clock play_x st (demo_client answer_empty) play_x_key (with_reads 1 st)
  /\ parse_text (strip answer_empty) = Ok (plain_result (lit "music") (lit "hi"))
  /\ failing_decoder (json_dumps (JObj (plain_result (lit "music") (lit "hi"))))
     = Err JSONDecodeError
  /\ exists st',
       detect_intent_with demo_clock failing_decoder demo_conn play_x st
       = (Ok fallback_intent, st')
       /\ intent_cache st' = clean_cache_at (demo_clock 1) stale_cache
       /\ incl (intent_cache st') (intent_cache st)
       /\ llm_calls st' = llm_calls st ++ [(demo_prompt, play_x)].
Proof.
  cbv zeta.
  assert (Hp : parse_text (strip answer_empty)
               = Ok (plain_result (lit "music") (lit "hi")))
    by (vm_compute; reflexivity).
  split; [exact (misses_play_x answer_empty stale_cache eq_refl)|].
  split; [exact Hp|]. split; [reflexivity|].
  exact (decode_failure_falls_back demo_clock failing_decoder demo_conn play_x
           (demo_state answer_empty stale_cache) (demo_client answer_empty)
           play_x_key (with_reads 1 (demo_state answer_empty stale_cache))
           demo_prompt answer_empty (plain_result (lit "music") (lit "hi"))
           (misses_play_x answer_empty stale_cache eq_refl)
           (answered_demo answer_empty _) Hp eq_refl).
Defined.

(** C5 as stated fails: a call answered from the cache leaves the expired
    entry of another key where it is. *)
Lemma hit_leaves_expired_entry :
  let st := demo_state answer_empty mixed_cache in
  let out := detect_intent demo_clock demo_conn play_x st in
  fst out = Ok (lit "cached")
  /\ In (stop_key, {| intent := lit "old"; timestamp := 0 |})
       (intent_cache (snd out))
  /\ demo_clock (clock_reads (snd out)) - 0 > 600.
Proof. vm_compute. repeat split. right. left. reflexivity. Qed.

(** C5, amended, at a concrete input. *)
Lemma miss_purges_expired_witness :
  let st := demo_state answer_empty stale_cache in
  misses demo_clock play_x st (demo_client answer_empty) play_x_key (with_reads 1 st)
  /\ Forall (fun kv => demo_clock 1 - timestamp (snd kv) <= 600)
       (intent_cache (snd (detect_intent demo_clock demo_conn play_x st))).
Proof.
  split; [exact (misses_play_x answer_empty stale_cache eq_refl)|].
  exact (miss_purges_expired demo_clock demo_conn play_x
           (demo_state answer_empty stale_cache) (demo_client answer_empty)
           play_x_key (with_reads 1 (demo_state answer_empty stale_cache))
           _ _ (misses_play_x answer_empty stale_cache eq_refl)
           demo_clock_monotone (surjective_pairing _)).
Defined.

(** C6 as stated fails: the LLM answers with the array [[1]]; parsing and
    the final decoding succeed, and the call raises [AttributeError] where
    it logs the call, before anything is stored. *)
Lemma number_call_not_stored :
  let st := demo_state answer_number [] in
  let out := detect_intent demo_clock demo_conn play_x st in
  parse_text (strip answer_number)
  = Ok (call_result (lit "music") (JInt 1) (lit "hi"))
  /\ json_loads (json_dumps (JObj (call_result (lit "music") (JInt 1) (lit "hi"))))
     = Ok (JObj (call_result (lit "music") (JInt 1) (lit "hi")))
  /\ fst out = Err AttributeError
  /\ dict_get play_x_key (intent_cache (snd out)) = None.
Proof. vm_compute. repeat split. Qed.

(** C6, amended, at a concrete input. *)
Lemma miss_stores_intent_witness :
  let st := demo_state answer_play stale_cache in
  let parsed :=
    call_result (lit "music")
      (JObj [(lit "name", JStr (lit "play"));
             (lit "arguments", JObj [(lit "song", JStr (lit "x"))])])
      (lit "hi") in
  parse_text (strip answer_play) = Ok parsed
  /\ loggable parsed
  /\ exists st',
       detect_intent demo_clock demo_conn play_x st
       = (Ok (json_dumps (JObj parsed)), st')
       /\ dict_get play_x_key (intent_cache st')
          = Some {| intent := json_dumps (JObj parsed);
                    timestamp := demo_clock 6 |}.
Proof.
  cbv zeta.
  assert (Hp : parse_text (strip answer_play)
               = Ok (call_result (lit "music")
                       (JObj [(lit "name", JStr (lit "play"));
                              (lit "arguments", JObj [(lit "song", JStr (lit "x"))])])
                       (lit "hi")))
    by (vm_compute; reflexivity).
  split; [exact Hp|]. split; [exact I|].
  destruct (miss_stores_intent demo_clock demo_conn play_x
              (demo_state answer_play stale_cache) (demo_client answer_play)
              play_x_key (with_reads 1 (demo_state answer_play stale_cache))
              demo_prompt answer_play _
              (misses_play_x answer_play stale_cache eq_refl)
              (answered_demo answer_play _) Hp I)
    as (st' & Hrun & _ & Hget).
  exists st'. split; [exact Hrun|exact Hget].
Defined.

(* ------------------------------------------------------------------ *)
(** * The further properties at concrete inputs *)

Lemma run_eq {A B : Type} (p : A * B) (a : A) : fst p = a -> p = (a, snd p).
Proof. destruct p as [x y]. cbn. now intros ->. Qed.

Lemma misses_failing :
  misses demo_clock play_x failing_state failing_client play_x_key
    (with_reads 1 failing_state).
Proof.
  split; [reflexivity|]. split; [exact md5_play_x|].
  now apply lookup_absent.
Qed.

(** X1, at a concrete input. *)
Lemma clean_cache_leaves_fresh_cache_witness :
  let st := demo_state answer_empty hit_cache in
  Forall (fun kv => demo_clock (clock_reads st) - timestamp (snd kv) <= 600)
    (intent_cache st)
  /\ (List.length (intent_cache st) <= 100)%nat
  /\ clean_cache demo_clock st = (Ok tt, with_reads 1 st).
Proof.
  cbv zeta.
  assert (Hf : Forall (fun kv => demo_clock (clock_reads (demo_state answer_empty hit_cache))
                                 - timestamp (snd kv) <= 600)
                 (intent_cache (demo_state answer_empty hit_cache)))
    by (repeat constructor; vm_compute; discriminate).
  assert (Hl : (List.length (intent_cache (demo_state answer_empty hit_cache)) <= 100)%nat)
    by (cbn; lia).
  split; [exact Hf|]. split; [exact Hl|].
  exact (clean_cache_leaves_fresh_cache demo_clock
           (demo_state answer_empty hit_cache) Hf Hl).
Defined.

(** X3, at a concrete input: the crowded cache under a clock that stands
    still. *)
Lemma clean_cache_idempotent_witness :
  dict_wf (intent_cache crowded)
  /\ frozen_clock (S (clock_reads crowded)) = frozen_clock (clock_reads crowded)
  /\ intent_cache (snd (clean_cache frozen_clock (snd (clean_cache frozen_clock crowded))))
     = intent_cache (snd (clean_cache frozen_clock crowded)).
Proof.
  assert (Hwf : dict_wf (intent_cache crowded))
    by (apply distinct_sound; vm_compute; reflexivity).
  split; [exact Hwf|]. split; [reflexivity|].
  exact (clean_cache_idempotent frozen_clock crowded Hwf eq_refl).
Defined.

(** X4, at a concrete input: a cache of 101 entries. *)
Lemma cache_size_invariant_witness :
  let st := demo_state answer_empty (numbered_cache 101 900) in
  dict_wf (intent_cache st)
  /\ (List.length (intent_cache st) <= 101)%nat
  /\ dict_wf (intent_cache (snd (detect_intent demo_clock demo_conn play_x st)))
  /\ (List.length (intent_cache (snd (detect_intent demo_clock demo_conn play_x st)))
      <= 101)%nat.
Proof.
  cbv zeta.
  assert (Hwf : dict_wf (intent_cache (demo_state answer_empty (numbered_cache 101 900))))
    by (apply distinct_sound; vm_compute; reflexivity).
  assert (Hl : (List.length (intent_cache (demo_state answer_empty (numbered_cache 101 900)))
                <= 101)%nat)
    by (apply Nat.leb_le; vm_compute; reflexivity).
  split; [exact Hwf|]. split; [exact Hl|].
  exact (cache_size_invariant demo_clock demo_conn play_x
           (demo_state answer_empty (numbered_cache 101 900)) _ _ Hwf Hl
           (surjective_pairing _)).
Defined.

(** X5, at a concrete input. *)
Lemma llm_asked_at_most_once_witness :
  let st := demo_state answer_play stale_cache in
  let out := detect_intent demo_clock demo_conn play_x st in
  out = (fst out, snd out)
  /\ (llm_calls (snd out) = llm_calls st
      \/ exists prompt,
           build_system_prompt demo_conn = Ok prompt
           /\ llm_calls (snd out) = llm_calls st ++ [(prompt, play_x)]).
Proof.
  cbv zeta. split; [apply surjective_pairing|].
  exact (llm_asked_at_most_once demo_clock demo_conn play_x
           (demo_state answer_play stale_cache) _ _ (surjective_pairing _)).
Defined.

(** X6, at a concrete input. *)
Lemma failing_call_stores_nothing_witness :
  let st := demo_state answer_number stale_cache in
  let out := detect_intent demo_clock demo_conn play_x st in
  out = (Err AttributeError, snd out)
  /\ incl (intent_cache (snd out)) (intent_cache st).
Proof.
  cbv zeta.
  assert (Hrun : detect_intent demo_clock demo_conn play_x
                   (demo_state answer_number stale_cache)
                 = (Err AttributeError,
                    snd (detect_intent demo_clock demo_conn play_x
                           (demo_state answer_number stale_cache))))
    by (apply run_eq; vm_compute; reflexivity).
  split; [exact Hrun|].
  exact (failing_call_stores_nothing demo_clock demo_conn play_x
           (demo_state answer_number stale_cache) AttributeError _ Hrun).
Defined.

(** X7, at a concrete input. *)
Lemma only_own_key_written_witness :
  let st := demo_state answer_empty stale_cache in
  let out := detect_intent demo_clock demo_conn play_x st in
  let i := json_dumps (JObj (plain_result (lit "music") (lit "hi"))) in
  let kv := (play_x_key, {| intent := i; timestamp := demo_clock 6 |}) in
  In kv (intent_cache (snd out))
  /\ (In kv (intent_cache st)
      \/ exists key i',
           cache_key_of play_x = Ok key /\ fst out = Ok i'
           /\ fst kv = key /\ intent (snd kv) = i').
Proof.
  cbv zeta.
  assert (Hin : In (play_x_key,
                    {| intent := json_dumps (JObj (plain_result (lit "music") (lit "hi")));
                       timestamp := demo_clock 6 |})
                  (intent_cache
                     (snd (detect_intent demo_clock demo_conn play_x
                             (demo_state answer_empty stale_cache)))))
    by (vm_compute; left; reflexivity).
  split; [exact Hin|].
  exact (only_own_key_written demo_clock demo_conn play_x
           (demo_state answer_empty stale_cache) _ _ _
           (surjective_pairing _) Hin).
Defined.

(** X8, at a concrete input. *)
Lemma repeated_call_hits_witness :
  let st := demo_state answer_empty stale_cache in
  let r := json_dumps (JObj (plain_result (lit "music") (lit "hi"))) in
  let st' := snd (detect_intent demo_clock demo_conn play_x st) in
  detect_intent demo_clock demo_conn play_x st = (Ok r, st')
  /\ exists key e,
       cache_key_of play_x = Ok key
       /\ dict_get key (intent_cache st') = Some e
       /\ intent e = r
       /\ (demo_clock (S (clock_reads st')) - timestamp e <= 600 ->
           exists st'',
             detect_intent demo_clock broken_conn play_x st' = (Ok r, st'')
             /\ llm_calls st'' = llm_calls st'
             /\ intent_cache st'' = intent_cache st').
Proof.
  cbv zeta.
  assert (Hrun : detect_intent demo_clock demo_conn play_x
                   (demo_state answer_empty stale_cache)
                 = (Ok (json_dumps (JObj (plain_result (lit "music") (lit "hi")))),
                    snd (detect_intent demo_clock demo_conn play_x
                           (demo_state answer_empty stale_cache))))
    by (apply run_eq; vm_compute; reflexivity).
  split; [exact Hrun|].
  exact (repeated_call_hits demo_clock demo_conn broken_conn play_x
           (demo_state answer_empty stale_cache) _ _ Hrun).
Defined.

(** X9, at a concrete input. *)
Lemma prompt_failure_propagates_witness :
  let st := demo_state answer_empty stale_cache in
  misses demo_clock play_x st (demo_client answer_empty) play_x_key (with_reads 1 st)
  /\ build_system_prompt broken_conn = Err (Raised "music handler")
  /\ exists st',
       detect_intent demo_clock broken_conn play_x st
       = (Err (Raised "music handler"), st')
       /\ llm_calls st' = llm_calls st
       /\ intent_cache st' = clean_cache_at (demo_clock 1) (intent_cache st).
Proof.
  cbv zeta.
  split; [exact (misses_play_x answer_empty stale_cache eq_refl)|].
  split; [reflexivity|].
  exact (prompt_failure_propagates demo_clock broken_conn play_x
           (demo_state answer_empty stale_cache) (demo_client answer_empty)
           play_x_key (with_reads 1 (demo_state answer_empty stale_cache))
           (Raised "music handler")
           (misses_play_x answer_empty stale_cache eq_refl) eq_refl).
Defined.

(** X10, at a concrete input. *)
Lemma llm_failure_propagates_witness :
  misses demo_clock play_x failing_state failing_client play_x_key
    (with_reads 1 failing_state)
  /\ build_system_prompt demo_conn = Ok demo_prompt
  /\ response_no_stream failing_client 0 demo_prompt play_x = Err (Raised "timeout")
  /\ exists st',
       detect_intent demo_clock demo_conn play_x failing_state
       = (Err (Raised "timeout"), st')
       /\ llm_calls st' = llm_calls failing_state ++ [(demo_prompt, play_x)]
       /\ intent_cache st'
          = clean_cache_at (demo_clock 1) (intent_cache failing_state).
Proof.
  split; [exact misses_failing|]. split; [reflexivity|]. split; [reflexivity|].
  exact (llm_failure_propagates demo_clock demo_conn play_x failing_state
           failing_client play_x_key (with_reads 1 failing_state) demo_prompt
           (Raised "timeout") misses_failing eq_refl eq_refl).
Defined.

(** X11, at a concrete input: the answer [[1]]. *)
Lemma non_object_call_raises_witness :
  let st := demo_state answer_number stale_cache in
  parse_text (strip answer_number)
  = Ok (call_result (lit "music") (JInt 1) (lit "hi"))
  /\ (forall members, JInt 1 <> JObj members)
  /\ exists st',
       detect_intent demo_clock demo_conn play_x st = (Err AttributeError, st')
       /\ llm_calls st' = llm_calls st ++ [(demo_prompt, play_x)]
       /\ intent_cache st' = clean_cache_at (demo_clock 1) (intent_cache st).
Proof.
  cbv zeta.
  assert (Hp : parse_text (strip answer_number)
               = Ok (call_result (lit "music") (JInt 1) (lit "hi")))
    by (vm_compute; reflexivity).
  assert (Hn : forall members, JInt 1 <> JObj members)
    by (intros members H; discriminate H).
  split; [exact Hp|]. split; [exact Hn|].
  exact (non_object_call_raises demo_clock demo_conn play_x
           (demo_state answer_number stale_cache) (demo_client answer_number)
           play_x_key (with_reads 1 (demo_state answer_number stale_cache))
           demo_prompt answer_number _ _ _
           (misses_play_x answer_number stale_cache eq_refl)
           (answered_demo answer_number _) Hp Hn).
Defined.

(** X12, at a concrete input. *)
Lemma hit_ignores_connection_witness :
  let st := demo_state answer_empty hit_cache in
  dict_get play_x_key (intent_cache st)
  = Some {| intent := lit "cached"; timestamp := 500 |}
  /\ demo_clock 1 - 500 <= 600
  /\ detect_intent demo_clock demo_conn play_x st
     = detect_intent demo_clock broken_conn play_x st.
Proof.
  cbv zeta.
  assert (Hage : demo_clock 1 - 500 <= 600) by (vm_compute; discriminate).
  split; [reflexivity|]. split; [exact Hage|].
  exact (hit_ignores_connection demo_clock demo_conn broken_conn play_x
           (demo_state answer_empty hit_cache) (demo_client answer_empty)
           play_x_key {| intent := lit "cached"; timestamp := 500 |}
           eq_refl md5_play_x eq_refl Hage).
Defined.

(** X13, at a concrete input. *)
Lemma region_between_first_tags_witness :
  re_search_group (lit "<tags>") (lit "</tags>") answer_empty = Some (lit "music")
  /\ exists pre post,
       answer_empty = pre ++ lit "<tags>" ++ lit "music" ++ lit "</tags>" ++ post
       /\ (forall pre' rest,
             answer_empty = pre' ++ lit "<tags>" ++ rest ->
             (List.length pre <= List.length pre')%nat)
       /\ (forall g' post',
             lit "music" ++ lit "</tags>" ++ post = g' ++ lit "</tags>" ++ post' ->
             (List.length (lit "music") <= List.length g')%nat).
Proof.
  assert (Hg : re_search_group (lit "<tags>") (lit "</tags>") answer_empty
               = Some (lit "music"))
    by (vm_compute; reflexivity).
  split; [exact Hg|].
  exact (proj1 (region_between_first_tags (lit "<tags>") (lit "</tags>") answer_empty)
           (lit "music") Hg).
Defined.

(** X14, at a concrete input: an object in the tool region. *)
Lemma parse_text_by_kind_witness :
  json_loads (group_or_empty (lit "<tool_call>") (lit "</tool_call>") answer_object)
  = Ok (JObj [(lit "name", JStr (lit "play"))])
  /\ parse_text answer_object = Err KeyError.
Proof.
  assert (Hl : json_loads (group_or_empty (lit "<tool_call>") (lit "</tool_call>")
                             answer_object)
               = Ok (JObj [(lit "name", JStr (lit "play"))]))
    by (vm_compute; reflexivity).
  split; [exact Hl|].
  exact (parse_text_by_kind answer_object _ Hl).
Defined.

(** X15, at a concrete input. *)
Lemma parse_text_fields_stripped_witness :
  parse_text answer_play = Ok parsed_play
  /\ exists tags content,
       dict_get (lit "tags") parsed_play = Some (JStr tags)
       /\ dict_get (lit "content") parsed_play = Some (JStr content)
       /\ stripped tags /\ stripped content
       /\ (re_search_group (lit "<tags>") (lit "</tags>") answer_play = None ->
           tags = [])
       /\ (re_search_group (lit "<content>") (lit "</content>") answer_play = None ->
           content = []).
Proof.
  assert (Hp : parse_text answer_play = Ok parsed_play)
    by (vm_compute; reflexivity).
  split; [exact Hp|].
  exact (parse_text_fields_stripped answer_play parsed_play Hp).
Defined.

(** X16, at a concrete input. *)
Lemma serialized_intent_decodes_witness :
  parse_text answer_play = Ok parsed_play
  /\ exists decoded,
       json_loads (json_dumps (JObj parsed_play)) = Ok (JObj decoded)
       /\ map fst decoded = map fst parsed_play
       /\ dict_get (lit "tags") decoded = dict_get (lit "tags") parsed_play
       /\ dict_get (lit "content") decoded = dict_get (lit "content") parsed_play.
Proof.
  assert (Hp : parse_text answer_play = Ok parsed_play)
    by (vm_compute; reflexivity).
  split; [exact Hp|].
  exact (serialized_intent_decodes answer_play parsed_play Hp).
Defined.

(** X17, at a concrete input. *)
Lemma cache_key_shape_witness :
  cache_key_of play_x = Ok play_x_key
  /\ List.length play_x_key = 32%nat
  /\ forallb is_lower_hex play_x_key = true.
Proof.
  split; [exact md5_play_x|].
  exact (proj2 (cache_key_shape play_x) play_x_key md5_play_x).
Defined.

(** X18, at a concrete input. *)
Lemma surrogate_text_raises_witness :
  let st := demo_state answer_empty hit_cache in
  llm st = Some (demo_client answer_empty)
  /\ existsb is_surrogate lone_surrogate = true
  /\ detect_intent demo_clock demo_conn lone_surrogate st
     = (Err UnicodeEncodeError, with_reads 1 st).
Proof.
  cbv zeta. split; [reflexivity|]. split; [reflexivity|].
  exact (surrogate_text_raises demo_clock demo_conn lone_surrogate
           (demo_state answer_empty hit_cache) (demo_client answer_empty)
           eq_refl eq_refl).
Defined.

(** X19, at a concrete input: tags and content outside ASCII. *)
Lemma plain_intent_text_witness :
  let st := demo_state answer_cjk [] in
  parse_text (strip answer_cjk) = Ok (plain_result [38899%N; 20048%N] [22909%N])
  /\ existsb needs_escape [38899%N; 20048%N] = false
  /\ existsb needs_escape [22909%N] = false
  /\ fst (detect_intent demo_clock demo_conn play_x st)
     = Ok (qlit "{'tags': '" ++ [38899%N; 20048%N] ++ qlit "', 'content': '"
           ++ [22909%N] ++ qlit "'}").
Proof.
  cbv zeta.
  assert (Hp : parse_text (strip answer_cjk)
               = Ok (plain_result [38899%N; 20048%N] [22909%N]))
    by (vm_compute; reflexivity).
  split; [exact Hp|]. split; [reflexivity|]. split; [reflexivity|].
  exact (plain_intent_text demo_clock demo_conn play_x (demo_state answer_cjk [])
           (demo_client answer_cjk) play_x_key
           (with_reads 1 (demo_state answer_cjk [])) demo_prompt answer_cjk _ _
           (misses_play_x answer_cjk [] eq_refl) (answered_demo answer_cjk _)
           Hp eq_refl eq_refl).
Defined.

(** X20, at a concrete input: a music handler that gives [{}]. *)
Lemma prompt_keys_required_witness :
  let st := demo_state answer_empty stale_cache in
  misses demo_clock play_x st (demo_client answer_empty) play_x_key (with_reads 1 st)
  /\ initialize_music_handler bare_conn = Ok (JObj [])
  /\ dict_get (lit "music_file_names") (@nil (pystr * json)) = None
  /\ exists st',
       detect_intent demo_clock bare_conn play_x st = (Err KeyError, st')
       /\ llm_calls st' = llm_calls st.
Proof.
  cbv zeta.
  split; [exact (misses_play_x answer_empty stale_cache eq_refl)|].
  split; [reflexivity|]. split; [reflexivity|].
  exact (prompt_keys_required demo_clock bare_conn play_x
           (demo_state answer_empty stale_cache) (demo_client answer_empty)
           play_x_key (with_reads 1 (demo_state answer_empty stale_cache))
           (misses_play_x answer_empty stale_cache eq_refl)
           (or_introl (ex_intro _ [] (conj eq_refl eq_refl)))).
Defined.

(** X21, at a concrete input: the second and the third of 101 entries. *)
Lemma eviction_order_witness :
  let st := demo_state answer_empty (numbered_cache 101 900) in
  let a := (repr_int 1, {| intent := lit "{}"; timestamp := 901 |}) in
  let b := (repr_int 2, {| intent := lit "{}"; timestamp := 902 |}) in
  dict_wf (intent_cache st)
  /\ before a b (intent_cache st)
  /\ timestamp (snd a) <= timestamp (snd b)
  /\ In a (intent_cache (snd (clean_cache demo_clock st)))
  /\ In b (intent_cache (snd (clean_cache demo_clock st))).
Proof.
  cbv zeta.
  assert (Hwf : dict_wf (intent_cache (demo_state answer_empty (numbered_cache 101 900))))
    by (apply distinct_sound; vm_compute; reflexivity).
  assert (Hab : before (repr_int 1, {| intent := lit "{}"; timestamp := 901 |})
                  (repr_int 2, {| intent := lit "{}"; timestamp := 902 |})
                  (intent_cache (demo_state answer_empty (numbered_cache 101 900))))
    by (vm_compute; apply before_later; apply before_here; left; reflexivity).
  assert (Hle : timestamp (snd (repr_int 1, {| intent := lit "{}"; timestamp := 901 |}))
                <= timestamp (snd (repr_int 2, {| intent := lit "{}"; timestamp := 902 |})))
    by (vm_compute; discriminate).
  assert (Ha : In (repr_int 1, {| intent := lit "{}"; timestamp := 901 |})
                 (intent_cache
                    (snd (clean_cache demo_clock
                            (demo_state answer_empty (numbered_cache 101 900))))))
    by (vm_compute; left; reflexivity).
  split; [exact Hwf|]. split; [exact Hab|]. split; [exact Hle|].
  split; [exact Ha|].
  exact (eviction_order demo_clock
           (demo_state answer_empty (numbered_cache 101 900)) _ _ Hwf Hab Hle Ha).
Defined.
